(** * Flower: records, VCE worker, Dirichlet partitioner and DP wrapper

    A shallow embedding of the parts of the Flower sources that the
    specification talks about:

    - [flwr/common/record/typeddict.py]: module [TypedDict]
    - [flwr/common/recordset_utils.py]: module [RecordsetUtils]
    - [flwr/server/superlink/fleet/vce/vce_api.py]: module [VceApi]
    - [flwr_datasets/partitioner/dirichlet_partitioner.py]: module
      [DirichletPartitioner]
    - [flwr/server/strategy/dp_strategy_wrapper_fixed_clipping.py]: module
      [DPStrategyWrapperServerSideFixedClipping]

    Python objects that are mutated are modelled by explicit state passing:
    a function returns, next to its result, the objects it may have changed
    as the call leaves them.  Python exceptions are modelled by the [result]
    type below. *)

From Stdlib Require Import ZArith String Ascii List Lia Bool.
From Stdlib Require Import Decimal DecimalString DecimalNat.
From Stdlib Require Import QArith Qround.
From Stdlib Require Import Reals Lra.
From stdpp Require Import base decidable option list strings gmap.

Import ListNotations.
Local Open Scope string_scope.
Local Open Scope list_scope.

(** ** Python exceptions and fallible computations *)

Inductive PyExn : Type :=
| TypeError
| KeyError
| IndexError
| ValueError
| AttributeError
| AssertionError
| ZeroDivisionError
| RuntimeError.

Inductive result (A : Type) : Type :=
| Ok (a : A)
| Raise (e : PyExn).

Arguments Ok {A} a.
Arguments Raise {A} e.

#[global] Instance result_ret : MRet result := fun A a => Ok a.

#[global] Instance result_bind : MBind result := fun A B k c =>
  match c with
  | Ok a => k a
  | Raise e => Raise e
  end.

Definition is_raise {A : Type} (c : result A) : Prop :=
  match c with
  | Raise _ => True
  | Ok _ => False
  end.

(** ** Python dictionaries

    A [dict] keeps its entries in insertion order; assigning to a key that
    is already present replaces the value and keeps the position.  The
    entries are kept as an association list whose keys are pairwise
    distinct ([dict_wf]). *)

Module PyDict.
Section PyDict.
Context {K V : Type} `{EqDecision K}.

Definition dict : Type := list (K * V).

Definition keys (d : dict) : list K := map fst d.
Definition values (d : dict) : list V := map snd d.

Definition dict_wf (d : dict) : Prop := NoDup (keys d).

(** [d[k] = v] *)
Fixpoint setitem (k : K) (v : V) (d : dict) : dict :=
  match d with
  | [] => [(k, v)]
  | (k', v') :: d' =>
      if decide (k = k') then (k', v) :: d' else (k', v') :: setitem k v d'
  end.

(** [d[k]], raising [KeyError] on a missing key *)
Fixpoint getitem (k : K) (d : dict) : result V :=
  match d with
  | [] => Raise KeyError
  | (k', v') :: d' => if decide (k = k') then Ok v' else getitem k d'
  end.

(** [del d[k]], raising [KeyError] on a missing key *)
Fixpoint delitem (k : K) (d : dict) : result dict :=
  match d with
  | [] => Raise KeyError
  | (k', v') :: d' =>
      if decide (k = k') then Ok d'
      else d'' ← delitem k d'; Ok ((k', v') :: d'')
  end.

Definition contains (k : K) (d : dict) : bool :=
  match getitem k d with
  | Ok _ => true
  | Raise _ => false
  end.

End PyDict.
Arguments dict : clear implicits.
End PyDict.

(** ** [typeddict.py]: the typed dictionary underlying all records *)

Module TypedDict.
Section TypedDict.
Context {K V : Type} `{EqDecision K}.

(** The two checkers are callables returning [None]; they signal a
    rejected key or value by raising. *)
Record t : Type := mk {
  _data : PyDict.dict K V;
  _check_key_fn : K -> result unit;
  _check_value_fn : V -> result unit
}.

Definition __init__ (check_key_fn : K -> result unit)
    (check_value_fn : V -> result unit) : t :=
  {| _data := [];
     _check_key_fn := check_key_fn;
     _check_value_fn := check_value_fn |}.

Definition with_data (self : t) (d : PyDict.dict K V) : t :=
  {| _data := d;
     _check_key_fn := _check_key_fn self;
     _check_value_fn := _check_value_fn self |}.

(** [__setitem__] returns the outcome of the call together with the
    object as it is afterwards. *)
Definition __setitem__ (self : t) (key : K) (value : V) : result unit * t :=
  match _check_key_fn self key with
  | Raise e => (Raise e, self)
  | Ok _ =>
      match _check_value_fn self value with
      | Raise e => (Raise e, self)
      | Ok _ => (Ok tt, with_data self (PyDict.setitem key value (_data self)))
      end
  end.

Definition __delitem__ (self : t) (key : K) : result unit * t :=
  match PyDict.delitem key (_data self) with
  | Raise e => (Raise e, self)
  | Ok d => (Ok tt, with_data self d)
  end.

Definition __getitem__ (self : t) (item : K) : result V :=
  PyDict.getitem item (_data self).

Definition __len__ (self : t) : nat := length (_data self).

Definition __contains__ (self : t) (key : K) : bool :=
  PyDict.contains key (_data self).

Definition items (self : t) : list (K * V) := _data self.
Definition keys (self : t) : list K := PyDict.keys (_data self).
Definition values (self : t) : list V := PyDict.values (_data self).

(** The dictionary that [update] builds of its arguments with [dict], for
    the pairs in the order given: a repeated key keeps its first position
    and takes its last value. *)
Definition dict_of (entries : list (K * V)) : PyDict.dict K V :=
  fold_left (fun d kv => PyDict.setitem (fst kv) (snd kv) d) entries [].

(** [for key, value in items: self[key] = value]: the items are assigned one
    after the other; the loop stops at the first one that is rejected. *)
Fixpoint update_items (self : t) (items : list (K * V)) : result unit * t :=
  match items with
  | [] => (Ok tt, self)
  | (k, v) :: rest =>
      match __setitem__ self k v with
      | (Raise e, self') => (Raise e, self')
      | (Ok _, self') => update_items self' rest
      end
  end.

(** [update] builds a dictionary of its arguments first and assigns the
    items of that dictionary. *)
Definition update (self : t) (entries : list (K * V)) : result unit * t :=
  update_items self (dict_of entries).

(** [pop] removes the key and returns its value. *)
Definition pop (self : t) (key : K) : result V * t :=
  match PyDict.getitem key (_data self), PyDict.delitem key (_data self) with
  | Ok v, Ok d => (Ok v, with_data self d)
  | _, _ => (Raise KeyError, self)
  end.

Definition get (self : t) (key : K) (default : V) : V :=
  match PyDict.getitem key (_data self) with
  | Ok v => v
  | Raise _ => default
  end.

Definition clear (self : t) : t := with_data self [].

(** A checker rejects [x] when calling it on [x] raises. *)
Definition rejects {A : Type} (check : A -> result unit) (x : A) : Prop :=
  is_raise (check x).

End TypedDict.
Arguments t K V : clear implicits.
End TypedDict.

(** A record of integers that accepts every key and only non-negative
    values. *)
Definition nonneg_record : TypedDict.t string Z :=
  TypedDict.with_data
    (TypedDict.__init__ (fun _ => Ok tt)
       (fun v => if Z.ltb v 0 then Raise TypeError else Ok tt))
    [("lr", 3%Z)].


(** ** [recordset_utils.py]: ParametersRecord <-> Parameters *)

(** [str(idx)] for a non-negative index: its decimal numeral. *)
Definition str (n : nat) : string := NilEmpty.string_of_uint (Nat.to_uint n).

Definition bytes : Type := list Byte.byte.

(** [lst[idx]] and [lst.pop(0)] on a Python list *)
Definition list_getitem {A : Type} (lst : list A) (idx : nat) : result A :=
  match lst !! idx with
  | Some x => Ok x
  | None => Raise IndexError
  end.

Definition list_pop0 {A : Type} (lst : list A) : result (A * list A) :=
  match lst with
  | [] => Raise IndexError
  | x :: rest => Ok (x, rest)
  end.

Module Array.
Record t : Type := mk {
  dtype : string;
  shape : list Z;
  stype : string;
  data : bytes
}.
End Array.

Module Parameters.
Record t : Type := mk {
  tensors : list bytes;
  tensor_type : string
}.

(** [parameters.tensors.append(blob)] *)
Definition tensors_append (p : t) (blob : bytes) : t :=
  {| tensors := tensors p ++ [blob]; tensor_type := tensor_type p |}.

Definition with_tensors (p : t) (ts : list bytes) : t :=
  {| tensors := ts; tensor_type := tensor_type p |}.
End Parameters.

Module ParametersRecord.
Record t : Type := mk {
  data : PyDict.dict string Array.t
}.

(** [ParametersRecord()] *)
Definition empty : t := {| data := [] |}.

(** Modelled from the spec: [ParametersRecord.set_parameters], whose file
    ([parametersrecord.py]) is not part of the sources.  The spec describes
    a ParametersRecord as an ordered mapping from string key to Array in
    which insertion order is significant, and set as the insertion of a
    key-value pair; [set_parameters] inserts the entries of the given
    ordered dictionary one after the other. *)
Definition set_parameters (self : t) (array_dict : PyDict.dict string Array.t) : t :=
  {| data := fold_left (fun d kv => PyDict.setitem (fst kv) (snd kv) d)
                       array_dict (data self) |}.
End ParametersRecord.

Module RecordsetUtils.

(** The body of [for key in list(record.data.keys())], iterated over the
    snapshot [keys]; the state is the [Parameters] under construction and
    the input record, which is drained unless [keep_input]. *)
Fixpoint parametersrecord_to_parameters_loop (keys : list string)
    (keep_input : bool) (parameters : Parameters.t) (record : ParametersRecord.t)
    : result (Parameters.t * ParametersRecord.t) :=
  match keys with
  | [] => Ok (parameters, record)
  | key :: rest =>
      a ← PyDict.getitem key (ParametersRecord.data record);
      let parameters := Parameters.tensors_append parameters (Array.data a) in
      record ← (if keep_input then Ok record
                else d ← PyDict.delitem key (ParametersRecord.data record);
                     Ok (ParametersRecord.mk d));
      parametersrecord_to_parameters_loop rest keep_input parameters record
  end.

(** Returns the [Parameters] and the input record as the call leaves it. *)
Definition parametersrecord_to_parameters (record : ParametersRecord.t)
    (keep_input : bool) : result (Parameters.t * ParametersRecord.t) :=
  let parameters := Parameters.mk [] "" in
  parametersrecord_to_parameters_loop
    (PyDict.keys (ParametersRecord.data record)) keep_input parameters record.

(** The body of [for idx in range(num_arrays)]; the state is the list
    [parameters.tensors] (drained from the front unless [keep_input]) and
    the record under construction. *)
Fixpoint parameters_to_parametersrecord_loop (idxs : list nat)
    (keep_input : bool) (tensor_type : string) (tensors : list bytes)
    (p_record : ParametersRecord.t)
    : result (ParametersRecord.t * list bytes) :=
  match idxs with
  | [] => Ok (p_record, tensors)
  | idx :: rest =>
      '(tensor, tensors) ← (if keep_input
                            then tensor ← list_getitem tensors idx; Ok (tensor, tensors)
                            else list_pop0 tensors);
      let p_record :=
        ParametersRecord.set_parameters p_record
          [(str idx, Array.mk "" [] tensor_type tensor)] in
      parameters_to_parametersrecord_loop rest keep_input tensor_type tensors p_record
  end.

(** Returns the record and the input [Parameters] as the call leaves it. *)
Definition parameters_to_parametersrecord (parameters : Parameters.t)
    (keep_input : bool) : result (ParametersRecord.t * Parameters.t) :=
  let tensor_type := Parameters.tensor_type parameters in
  let p_record := ParametersRecord.empty in
  let num_arrays := length (Parameters.tensors parameters) in
  '(p_record, tensors) ←
    parameters_to_parametersrecord_loop (seq 0 num_arrays) keep_input tensor_type
      (Parameters.tensors parameters) p_record;
  Ok (p_record, Parameters.with_tensors parameters tensors).

(** [parameters_to_parametersrecord(parametersrecord_to_parameters(P))] *)
Definition roundtrip (P : ParametersRecord.t) (keep1 keep2 : bool)
    : result ParametersRecord.t :=
  '(parameters, _) ← parametersrecord_to_parameters P keep1;
  '(p_record, _) ← parameters_to_parametersrecord parameters keep2;
  Ok p_record.

(** The blobs of a record's values, in insertion order. *)
Definition blobs (P : ParametersRecord.t) : list bytes :=
  map Array.data (PyDict.values (ParametersRecord.data P)).

End RecordsetUtils.

(** A record with one float32 tensor serialized by NumPy. *)
Definition one_layer_record : ParametersRecord.t :=
  ParametersRecord.mk
    [("fc.weight",
      Array.mk "float32" [1%Z] "numpy.ndarray"
        [Byte.x00; Byte.x00; Byte.x80; Byte.x3f])].

(** The entries that [parameters_to_parametersrecord] creates for the blobs
    [ts], the first of which has index [i]. *)
Fixpoint indexed_arrays (tensor_type : string) (i : nat) (ts : list bytes)
    : PyDict.dict string Array.t :=
  match ts with
  | [] => []
  | t :: rest =>
      (str i, Array.mk "" [] tensor_type t) :: indexed_arrays tensor_type (S i) rest
  end.

(** The two sentences of the specification that the code does not follow,
    as predicates on the input record. *)

(** "only dtype and shape metadata are lost": blobs and serialization tags
    of the values survive the round trip. *)
Definition roundtrip_loses_only_dtype_and_shape (P : ParametersRecord.t) : Prop :=
  exists R : ParametersRecord.t,
    RecordsetUtils.roundtrip P false false = Ok R /\
    RecordsetUtils.blobs R = RecordsetUtils.blobs P /\
    map Array.stype (PyDict.values (ParametersRecord.data R)) =
      map Array.stype (PyDict.values (ParametersRecord.data P)).

(** "the common tensor-type tag is copied from the first Array's
    serialization-format tag" *)
Definition tensor_type_is_first_stype (P : ParametersRecord.t) : Prop :=
  forall (key : string) (first : Array.t) (rest : PyDict.dict string Array.t),
    ParametersRecord.data P = (key, first) :: rest ->
    exists (parameters : Parameters.t) (P' : ParametersRecord.t),
      RecordsetUtils.parametersrecord_to_parameters P false = Ok (parameters, P') /\
      Parameters.tensor_type parameters = Array.stype first.

(** All keys of [d] are numerals of indices below [i]. *)
Definition keys_below (i : nat) (d : PyDict.dict string Array.t) : Prop :=
  forall k, In k (PyDict.keys d) -> exists j, j < i /\ k = str j.

(** ** [vce_api.py]: the worker of the Virtual Client Engine *)

(** [str(node_id)] for an integer *)
Definition str_int (z : Z) : string := NilEmpty.string_of_int (Z.to_int z).

Module Node.
Record t : Type := mk {
  node_id : Z;
  anonymous : bool
}.
End Node.

(** The protobuf messages [Task], [TaskIns] and [TaskRes], with the fields
    the engine reads; [Payload] is the serialized RecordSet. *)
Module Task.
Record t (Payload : Type) : Type := mk {
  producer : Node.t;
  consumer : Node.t;
  ttl : string;
  task_type : string;
  recordset : Payload
}.
Arguments mk {Payload}.
Arguments producer {Payload}.
Arguments consumer {Payload}.
Arguments ttl {Payload}.
Arguments task_type {Payload}.
Arguments recordset {Payload}.
End Task.

Module TaskIns.
Record t (Payload : Type) : Type := mk {
  task_id : string;
  group_id : string;
  run_id : Z;
  task : Task.t Payload
}.
Arguments mk {Payload}.
Arguments task_id {Payload}.
Arguments group_id {Payload}.
Arguments run_id {Payload}.
Arguments task {Payload}.
End TaskIns.

Module TaskRes.
Record t (Payload : Type) : Type := mk {
  task_id : string;
  group_id : string;
  run_id : Z;
  task : Task.t Payload
}.
Arguments mk {Payload}.
Arguments task_id {Payload}.
Arguments group_id {Payload}.
Arguments run_id {Payload}.
Arguments task {Payload}.
End TaskRes.

Module Metadata.
Record t : Type := mk {
  run_id : Z;
  message_id : string;
  group_id : string;
  node_id : Z;
  ttl : string;
  message_type : string
}.
End Metadata.

Module Message.
Record t (Content : Type) : Type := mk {
  content : Content;
  metadata : Metadata.t
}.
Arguments mk {Content}.
Arguments content {Content}.
Arguments metadata {Content}.
End Message.

(** Modelled from the spec: [NodeState] ([flwr/client/node_state.py] is not
    part of the sources).  The specification's node context registry:
    [register_context] creates an empty RecordSet for the run if absent,
    [retrieve_context] returns the stored one, [update_context] replaces
    it. *)
Module NodeState.
Record t (Ctx : Type) : Type := mk {
  run_contexts : gmap Z Ctx
}.
Arguments mk {Ctx}.
Arguments run_contexts {Ctx}.

Definition register_context {Ctx : Type} (empty : Ctx) (self : t Ctx) (run_id : Z)
    : t Ctx :=
  match run_contexts self !! run_id with
  | Some _ => self
  | None => mk (<[run_id := empty]> (run_contexts self))
  end.

Definition retrieve_context {Ctx : Type} (self : t Ctx) (run_id : Z) : result Ctx :=
  match run_contexts self !! run_id with
  | Some ctx => Ok ctx
  | None => Raise KeyError
  end.

Definition update_context {Ctx : Type} (self : t Ctx) (run_id : Z) (context : Ctx)
    : t Ctx :=
  mk (<[run_id := context]> (run_contexts self)).
End NodeState.

(** Modelled from the spec: [BasicActorPool] ([ray_actor.py] is not part of
    the sources).  The specification's pool contract: a fixed number of
    actors; [submit_if_actor_is_free] is non-blocking and yields no handle
    when all actors are busy; [fetch_result_and_return_actor] re-marks the
    actor available.  [submitted] keeps the jobs handed to actors, oldest
    first. *)
Module BasicActorPool.
Record t (Job : Type) : Type := mk {
  num_actors : nat;
  busy : nat;
  submitted : list Job
}.
Arguments mk {Job}.
Arguments num_actors {Job}.
Arguments busy {Job}.
Arguments submitted {Job}.

Definition is_actor_available {Job : Type} (self : t Job) : bool :=
  Nat.ltb (busy self) (num_actors self).

Definition submit_if_actor_is_free {Job : Type} (self : t Job) (job : Job)
    : option Job * t Job :=
  if is_actor_available self
  then (Some job, mk (num_actors self) (S (busy self)) (submitted self ++ [job]))
  else (None, self).

Definition fetch_result_and_return_actor {Job : Type} (self : t Job) : t Job :=
  mk (num_actors self) (Nat.pred (busy self)) (submitted self).
End BasicActorPool.

Inductive LogEntry : Type :=
| LogError (ex : PyExn)
| LogErrorTraceback (ex : PyExn).

(** Where a worker is once the queue holds nothing more for it: suspended
    in [queue.get()], or out of its [while True] loop with [remaining]
    still queued. *)
Inductive WorkerStatus (Payload : Type) : Type :=
| AwaitingQueue
| Exited (remaining : list (TaskIns.t Payload)).
Arguments AwaitingQueue {Payload}.
Arguments Exited {Payload}.

Module VceApi.
Section VceApi.

(** [Payload] is the protobuf RecordSet, [RecordSet] the in-memory one
    (also the type of a run's context).  The functions below come from
    modules outside the sources and are taken as they are. *)
Variables Payload RecordSet : Type.
Variable empty_recordset : RecordSet.
Variable recordset_from_proto : Payload -> RecordSet.
Variable message_to_taskres : Message.t RecordSet -> TaskRes.t Payload.
Variable configure_task_res :
  TaskRes.t Payload -> TaskIns.t Payload -> Node.t -> TaskRes.t Payload.

(** What an actor does with a job [(message, cid, context)]: the reply and
    the updated context, or the exception the client app raised. *)
Definition Job : Type := Message.t RecordSet * string * RecordSet.
Variable actor_run : Job -> result (Message.t RecordSet * RecordSet).

Definition NodeToPartitionMapping : Type := gmap Z Z.

Definition taskins_to_message (taskins : TaskIns.t Payload) (datapartition_id : Z)
    : Message.t RecordSet :=
  let recordset := recordset_from_proto (Task.recordset (TaskIns.task taskins)) in
  Message.mk recordset
    (Metadata.mk
       (TaskIns.run_id taskins)
       (TaskIns.task_id taskins)
       (TaskIns.group_id taskins)
       datapartition_id
       (Task.ttl (TaskIns.task taskins))
       (Task.task_type (TaskIns.task taskins))).

(** Everything a worker reads and writes besides the queue. *)
Record World : Type := mkWorld {
  node_states : gmap Z (NodeState.t RecordSet);
  pool : BasicActorPool.t Job;
  task_res_store : list (TaskRes.t Payload);
  log : list LogEntry
}.

(** Statements that may raise and that change the world. *)
Definition M (A : Type) : Type := World -> result A * World.

Definition ret {A : Type} (a : A) : M A := fun w => (Ok a, w).

Definition bind {A B : Type} (c : M A) (k : A -> M B) : M B := fun w =>
  match c w with
  | (Ok a, w') => k a w'
  | (Raise e, w') => (Raise e, w')
  end.

Notation "'let*' x := c 'in' k" := (bind c (fun x => k))
  (at level 10, x pattern, c at level 100, k at level 200, only parsing).

Definition raise {A : Type} (e : PyExn) : M A := fun w => (Raise e, w).

Definition assert_ (b : bool) : M unit :=
  if b then ret tt else raise AssertionError.

Definition get_pool : M (BasicActorPool.t Job) := fun w => (Ok (pool w), w).

Definition set_pool (p : BasicActorPool.t Job) : M unit := fun w =>
  (Ok tt, mkWorld (node_states w) p (task_res_store w) (log w)).

(** [node_states[node_id]] *)
Definition node_state_of (node_id : Z) : M (NodeState.t RecordSet) := fun w =>
  match node_states w !! node_id with
  | Some ns => (Ok ns, w)
  | None => (Raise KeyError, w)
  end.

Definition set_node_state (node_id : Z) (ns : NodeState.t RecordSet) : M unit :=
  fun w =>
    (Ok tt,
     mkWorld (<[node_id := ns]> (node_states w)) (pool w) (task_res_store w) (log w)).

Definition lift {A : Type} (r : result A) : M A := fun w => (r, w).

(** [state_factory.state().store_task_res(task_res)] *)
Definition store_task_res (task_res : TaskRes.t Payload) : M unit := fun w =>
  (Ok tt, mkWorld (node_states w) (pool w) (task_res_store w ++ [task_res]) (log w)).

Definition log_error (entries : list LogEntry) (w : World) : World :=
  mkWorld (node_states w) (pool w) (task_res_store w) (log w ++ entries).

(** [nodes_mapping[node_id]] *)
Definition partition_of (nodes_mapping : NodeToPartitionMapping) (node_id : Z)
    : result Z :=
  match nodes_mapping !! node_id with
  | Some i => Ok i
  | None => Raise KeyError
  end.

(** The body of the [try] block, after [task_ins = await queue.get()]. *)
Definition process_task (nodes_mapping : NodeToPartitionMapping)
    (task_ins : TaskIns.t Payload) : M unit :=
  let* p := get_pool in
  let* _ := assert_ (BasicActorPool.is_actor_available p) in
  let node_id := Node.node_id (Task.consumer (TaskIns.task task_ins)) in
  (* Register and retrieve the run state *)
  let* ns := node_state_of node_id in
  let ns := NodeState.register_context empty_recordset ns (TaskIns.run_id task_ins) in
  let* _ := set_node_state node_id ns in
  let* ns := node_state_of node_id in
  let* run_state := lift (NodeState.retrieve_context ns (TaskIns.run_id task_ins)) in
  (* Convert TaskIns to Message *)
  let* datapartition_id := lift (partition_of nodes_mapping node_id) in
  let message := taskins_to_message task_ins datapartition_id in
  (* Submit a task to the pool *)
  let* p := get_pool in
  let '(future, p) :=
    BasicActorPool.submit_if_actor_is_free p (message, str_int node_id, run_state) in
  let* _ := set_pool p in
  match future with
  | None => raise AssertionError
  | Some job =>
      (* Fetch the result; the actor goes back to the pool *)
      let* p := get_pool in
      let* _ := set_pool (BasicActorPool.fetch_result_and_return_actor p) in
      let* (out_mssg, updated_context) := lift (actor_run job) in
      (* Update the context *)
      let* ns := node_state_of node_id in
      let* _ := set_node_state node_id
                  (NodeState.update_context ns (TaskIns.run_id task_ins) updated_context) in
      (* Convert to TaskRes, configure it and store it *)
      let task_res := message_to_taskres out_mssg in
      let task_res := configure_task_res task_res task_ins (Node.mk node_id false) in
      store_task_res task_res
  end.

(** The [while True] loop of [worker], run on the tasks that [queue.get()]
    hands to this worker, in order.  The [except Exception] handler logs the
    exception and its traceback and leaves the loop. *)
Fixpoint worker (nodes_mapping : NodeToPartitionMapping)
    (queue : list (TaskIns.t Payload)) (w : World) : WorkerStatus Payload * World :=
  match queue with
  | [] => (AwaitingQueue, w)
  | task_ins :: rest =>
      match process_task nodes_mapping task_ins w with
      | (Ok _, w') => worker nodes_mapping rest w'
      | (Raise ex, w') => (Exited rest, log_error [LogError ex; LogErrorTraceback ex] w')
      end
  end.

End VceApi.
End VceApi.

(** A concrete engine: payloads and record sets are plain strings, the
    client app fails on the payload "boom", node 7 holds partition 0. *)
Module VceExample.

Definition actor_run (job : VceApi.Job string) : result (Message.t string * string) :=
  let '(message, cid, context) := job in
  if String.eqb (Message.content message) "boom"
  then Raise RuntimeError
  else Ok (Message.mk "reply" (Message.metadata message), String.append context (String.append "+" cid)).

Definition message_to_taskres (m : Message.t string) : TaskRes.t string :=
  TaskRes.mk "" (Metadata.group_id (Message.metadata m))
    (Metadata.run_id (Message.metadata m))
    (Task.mk (Node.mk 0 true) (Node.mk 0 true) (Metadata.ttl (Message.metadata m))
       (Metadata.message_type (Message.metadata m)) (Message.content m)).

Definition configure_task_res (task_res : TaskRes.t string) (ref : TaskIns.t string)
    (producer : Node.t) : TaskRes.t string :=
  TaskRes.mk "" (TaskIns.group_id ref) (TaskIns.run_id ref)
    (Task.mk producer (Task.producer (TaskIns.task ref))
       (Task.ttl (TaskRes.task task_res)) (Task.task_type (TaskRes.task task_res))
       (Task.recordset (TaskRes.task task_res))).

Definition nodes_mapping : VceApi.NodeToPartitionMapping := {[ 7%Z := 0%Z ]}.

Definition world0 : VceApi.World string string :=
  VceApi.mkWorld string string
    {[ 7%Z := NodeState.mk (∅ : gmap Z string) ]}
    (BasicActorPool.mk 1 0 [])
    [] [].

Definition task (task_id payload : string) : TaskIns.t string :=
  TaskIns.mk task_id "1" 42%Z
    (Task.mk (Node.mk 0 true) (Node.mk 7 false) "" "fit" payload).

Definition worker : list (TaskIns.t string) -> VceApi.World string string ->
    WorkerStatus string * VceApi.World string string :=
  VceApi.worker string string "" (fun payload => payload)
    message_to_taskres configure_task_res actor_run nodes_mapping.

End VceExample.

(** The sentence of the specification about task failures, as a predicate
    on a run of the worker: the worker is still in its loop (waiting for the
    queue) once the queue is drained, and every task has a TaskRes in the
    store, a synthesized failure one if its execution raised. *)
Definition worker_survives_task_failures {Payload RecordSet : Type}
    (run : list (TaskIns.t Payload) -> VceApi.World Payload RecordSet ->
           WorkerStatus Payload * VceApi.World Payload RecordSet)
    (queue : list (TaskIns.t Payload)) (w : VceApi.World Payload RecordSet) : Prop :=
  fst (run queue w) = AwaitingQueue /\
  length (VceApi.task_res_store _ _ (snd (run queue w))) =
    length (VceApi.task_res_store _ _ w) + length queue.

(** ** [dirichlet_partitioner.py] *)

(** A Hugging Face dataset, as far as the partitioner looks at it: rows of
    named integer columns. *)
Module Dataset.
Definition Row : Type := PyDict.dict string Z.
Definition t : Type := list Row.

Definition num_rows (ds : t) : nat := length ds.

(** [dataset[column]] *)
Fixpoint column (ds : t) (name : string) : result (list Z) :=
  match ds with
  | [] => Ok []
  | row :: rest =>
      v ← PyDict.getitem name row;
      vs ← column rest name;
      Ok (v :: vs)
  end.

(** The distinct values of a list, in order of first appearance. *)
Fixpoint distinct (seen : list Z) (vs : list Z) : list Z :=
  match vs with
  | [] => []
  | v :: rest =>
      if bool_decide (v ∈ seen) then distinct seen rest
      else v :: distinct (v :: seen) rest
  end.

(** [dataset.unique(column)] *)
Definition unique (ds : t) (name : string) : result (list Z) :=
  vs ← column ds name; Ok (distinct [] vs).

(** [dataset.select(indices)] *)
Fixpoint select (ds : t) (indices : list nat) : result t :=
  match indices with
  | [] => Ok []
  | i :: rest =>
      row ← list_getitem ds i;
      rows ← select ds rest;
      Ok (row :: rows)
  end.
End Dataset.

(** NumPy helpers on one-dimensional arrays.  Proportions are kept as exact
    rationals; the rounding of NumPy's doubles is not modelled. *)
Module Np.

(** [np.nonzero(targets == k)[0]] *)
Fixpoint nonzero_eq_from (i : nat) (targets : list Z) (k : Z) : list nat :=
  match targets with
  | [] => []
  | t :: rest =>
      if Z.eqb t k then i :: nonzero_eq_from (S i) rest k
      else nonzero_eq_from (S i) rest k
  end.

Definition nonzero_eq (targets : list Z) (k : Z) : list nat :=
  nonzero_eq_from 0 targets k.

(** [np.cumsum] *)
Fixpoint cumsum_from (acc : Q) (xs : list Q) : list Q :=
  match xs with
  | [] => []
  | x :: rest => (acc + x)%Q :: cumsum_from (acc + x)%Q rest
  end.

Definition cumsum (xs : list Q) : list Q := cumsum_from 0%Q xs.

(** [.astype(int)]: truncation towards zero *)
Definition astype_int (x : Q) : Z :=
  if Qle_bool 0 x then Qfloor x else Qceiling x.

(** A slice bound of a sequence of length [n], as Python clamps it. *)
Definition clamp (n : nat) (i : Z) : nat :=
  if Z.ltb i 0 then Z.to_nat (Z.max 0 (i + Z.of_nat n))
  else Nat.min (Z.to_nat i) n.

(** [a[start:stop]] *)
Definition slice {A : Type} (a : list A) (start stop : nat) : list A :=
  firstn (stop - start) (skipn start a).

(** [np.split(a, indices)]: the sections [a[0:i0]], [a[i0:i1]], ...,
    [a[i_last:]] *)
Fixpoint split_from {A : Type} (a : list A) (start : nat) (indices : list Z)
    : list (list A) :=
  match indices with
  | [] => [slice a start (length a)]
  | i :: rest =>
      let stop := clamp (length a) i in
      slice a start stop :: split_from a stop rest
  end.

Definition split {A : Type} (a : list A) (indices : list Z) : list (list A) :=
  split_from a 0 indices.

End Np.

Inductive Alpha : Type :=
| AlphaFloat (a : Q)
| AlphaList (l : list Q)
| AlphaNDArray (l : list Q).

(** How a call that contains a [while True] loop ends when the loop is given
    [fuel] rounds. *)
Inductive Outcome (A : Type) : Type :=
| Returned (a : A)
| Raised (e : PyExn)
| OutOfFuel.
Arguments Returned {A}.
Arguments Raised {A}.
Arguments OutOfFuel {A}.

Module DirichletPartitioner.

Record t : Type := mk {
  dataset : Dataset.t;
  _num_partitions : nat;
  _alpha : list Q;
  _partition_by : string;
  _min_partition_size : Z;
  _self_balancing : bool;
  _shuffle : bool;
  _seed : Z;
  _unique_classes : list Z;
  _num_unique_classes : option nat;
  _avg_num_of_samples_per_node : Q;
  _node_id_to_indices : gmap nat (list nat);
  _node_id_to_indices_determined : bool
}.

Definition _initialize_alpha (num_partitions : nat) (alpha : Alpha) : list Q :=
  match alpha with
  | AlphaFloat a => repeat a num_partitions
  | AlphaList l => l
  | AlphaNDArray l => l
  end.

(** [DirichletPartitioner(...)] followed by [d.dataset = dataset] *)
Definition __init__ (ds : Dataset.t) (num_partitions : nat) (alpha : Alpha)
    (partition_by : string) (min_partition_size : option Z)
    (self_balancing shuffle : bool) (seed : Z) : t :=
  {| dataset := ds;
     _num_partitions := num_partitions;
     _alpha := _initialize_alpha num_partitions alpha;
     _partition_by := partition_by;
     _min_partition_size := default 0%Z min_partition_size;
     _self_balancing := self_balancing;
     _shuffle := shuffle;
     _seed := seed;
     _unique_classes := [];
     _num_unique_classes := None;
     _avg_num_of_samples_per_node := 0;
     _node_id_to_indices := ∅;
     _node_id_to_indices_determined := false |}.

Section Sampling.

(** The process-wide NumPy generator behind [np.random]: [dirichlet alpha]
    draws a vector of proportions and advances the generator. *)
Variable Rng : Type.
Variable dirichlet : list Q -> Rng -> list Q * Rng.

(** [{nid: [] for nid in range(num_partitions)}] *)
Definition empty_assignment (num_partitions : nat) : gmap nat (list nat) :=
  list_to_map (map (fun nid => (nid, [])) (seq 0 num_partitions)).

(** [nid_to_proportion_of_k_samples[nid] = class_k_division_proportions[nid]]
    for [nid] in [range(num_partitions)]; the values in key order. *)
Fixpoint proportions_by_nid (nids : list nat) (class_k_division_proportions : list Q)
    : result (list Q) :=
  match nids with
  | [] => Ok []
  | nid :: rest =>
      x ← list_getitem class_k_division_proportions nid;
      xs ← proportions_by_nid rest class_k_division_proportions;
      Ok (x :: xs)
  end.

(** The self-balancing branch starts by zeroing the proportion of every
    partition that already holds more than the average. *)
Definition zero_full_partitions (avg : Q) (node_id_to_indices : gmap nat (list nat))
    (proportions : list Q) : list Q :=
  imap (fun nid proportion =>
          if Qle_bool (inject_Z (Z.of_nat (length (default [] (node_id_to_indices !! nid))))) avg
          then proportion else 0%Q)
       proportions.

(** [nid_to_proportion_of_k_samples.values().sum()]: a dictionary view has
    no attribute [sum]. *)
Definition dict_values_sum (values : list Q) : result Q := Raise AttributeError.

Definition balance (avg : Q) (node_id_to_indices : gmap nat (list nat))
    (proportions : list Q) : result (list Q) :=
  let proportions := zero_full_partitions avg node_id_to_indices proportions in
  (* Normalize the proportions such that they sum up to 1 *)
  sum_proportions ← dict_values_sum proportions;
  Ok (map (fun proportion => (proportion / sum_proportions)%Q) proportions).

(** [node_id_to_indices[nid].extend(split_indices[nid].tolist())] for every
    [nid] of the assignment *)
Fixpoint extend_all (nids : list nat) (split_indices : list (list nat))
    (node_id_to_indices : gmap nat (list nat)) : result (gmap nat (list nat)) :=
  match nids with
  | [] => Ok node_id_to_indices
  | nid :: rest =>
      section ← list_getitem split_indices nid;
      extend_all rest split_indices
        (<[nid := default [] (node_id_to_indices !! nid) ++ section]> node_id_to_indices)
  end.

(** The body of [for k in self._unique_classes] *)
Definition assign_class (self : t) (targets : list Z) (k : Z)
    (node_id_to_indices : gmap nat (list nat)) (rng : Rng)
    : result (gmap nat (list nat)) * Rng :=
  let indices_representing_class_k := Np.nonzero_eq targets k in
  let '(class_k_division_proportions, rng) := dirichlet (_alpha self) rng in
  let nids := seq 0 (_num_partitions self) in
  (proportions ← proportions_by_nid nids class_k_division_proportions;
   proportions ← (if _self_balancing self
                  then balance (_avg_num_of_samples_per_node self)
                         node_id_to_indices proportions
                  else Ok proportions);
   let cumsum_division_fractions := Np.cumsum proportions in
   let cumsum_division_numbers :=
     map (fun f => (f * inject_Z (Z.of_nat (length indices_representing_class_k)))%Q)
         cumsum_division_fractions in
   let indices_on_which_split :=
     removelast (map Np.astype_int cumsum_division_numbers) in
   let split_indices := Np.split indices_representing_class_k indices_on_which_split in
   extend_all nids split_indices node_id_to_indices,
   rng).

Fixpoint assign_classes (self : t) (targets : list Z) (classes : list Z)
    (node_id_to_indices : gmap nat (list nat)) (rng : Rng)
    : result (gmap nat (list nat)) * Rng :=
  match classes with
  | [] => (Ok node_id_to_indices, rng)
  | k :: rest =>
      match assign_class self targets k node_id_to_indices rng with
      | (Ok node_id_to_indices, rng) =>
          assign_classes self targets rest node_id_to_indices rng
      | (Raise e, rng) => (Raise e, rng)
      end
  end.

(** [min(len(indices) for indices in node_id_to_indices.values())] *)
Definition min_sample_size (num_partitions : nat)
    (node_id_to_indices : gmap nat (list nat)) : result nat :=
  match map (fun nid => length (default [] (node_id_to_indices !! nid)))
            (seq 0 num_partitions) with
  | [] => Raise ValueError
  | n :: ns => Ok (fold_left Nat.min ns n)
  end.

(** The [while True] loop: sample an assignment, repeat until its smallest
    partition has [_min_partition_size] indices. *)
Fixpoint sample_assignment (fuel : nat) (self : t) (targets : list Z) (rng : Rng)
    : Outcome (gmap nat (list nat)) * Rng :=
  match fuel with
  | O => (OutOfFuel, rng)
  | S fuel =>
      let node_id_to_indices := empty_assignment (_num_partitions self) in
      match assign_classes self targets (_unique_classes self) node_id_to_indices rng with
      | (Raise e, rng) => (Raised e, rng)
      | (Ok node_id_to_indices, rng) =>
          match min_sample_size (_num_partitions self) node_id_to_indices with
          | Raise e => (Raised e, rng)
          | Ok min_sample_size_on_client =>
              if Z.leb (_min_partition_size self) (Z.of_nat min_sample_size_on_client)
              then (Returned node_id_to_indices, rng)
              else sample_assignment fuel self targets rng
          end
      end
  end.

Definition set_class_info (self : t) (unique_classes : list Z) (avg : Q) : t :=
  {| dataset := dataset self;
     _num_partitions := _num_partitions self;
     _alpha := _alpha self;
     _partition_by := _partition_by self;
     _min_partition_size := _min_partition_size self;
     _self_balancing := _self_balancing self;
     _shuffle := _shuffle self;
     _seed := _seed self;
     _unique_classes := unique_classes;
     _num_unique_classes := Some (length unique_classes);
     _avg_num_of_samples_per_node := avg;
     _node_id_to_indices := _node_id_to_indices self;
     _node_id_to_indices_determined := _node_id_to_indices_determined self |}.

Definition set_assignment (self : t) (node_id_to_indices : gmap nat (list nat)) : t :=
  {| dataset := dataset self;
     _num_partitions := _num_partitions self;
     _alpha := _alpha self;
     _partition_by := _partition_by self;
     _min_partition_size := _min_partition_size self;
     _self_balancing := _self_balancing self;
     _shuffle := _shuffle self;
     _seed := _seed self;
     _unique_classes := _unique_classes self;
     _num_unique_classes := _num_unique_classes self;
     _avg_num_of_samples_per_node := _avg_num_of_samples_per_node self;
     _node_id_to_indices := node_id_to_indices;
     _node_id_to_indices_determined := true |}.

(** Returns how the call ends, the object and the generator as the call
    leaves them. *)
Definition _determine_node_id_to_indices_if_needed (fuel : nat) (self : t) (rng : Rng)
    : Outcome unit * t * Rng :=
  (* [if not self._node_id_to_indices_determined: pass] *)
  let _ := if negb (_node_id_to_indices_determined self) then tt else tt in
  match Dataset.unique (dataset self) (_partition_by self) with
  | Raise e => (Raised e, self, rng)
  | Ok unique_classes =>
      if Nat.eqb (_num_partitions self) 0
      then (Raised ZeroDivisionError,
            set_class_info self unique_classes (_avg_num_of_samples_per_node self),
            rng)
      else
        let avg := (inject_Z (Z.of_nat (Dataset.num_rows (dataset self)))
                    / inject_Z (Z.of_nat (_num_partitions self)))%Q in
        let self := set_class_info self unique_classes avg in
        match Dataset.column (dataset self) (_partition_by self) with
        | Raise e => (Raised e, self, rng)
        | Ok targets =>
            match sample_assignment fuel self targets rng with
            | (Returned node_id_to_indices, rng) =>
                (* the loop meant to shuffle re-assigns every entry to itself *)
                (Returned tt, set_assignment self node_id_to_indices, rng)
            | (Raised e, rng) => (Raised e, self, rng)
            | (OutOfFuel, rng) => (OutOfFuel, self, rng)
            end
        end
  end.

Definition load_partition (fuel : nat) (self : t) (node_id : nat) (rng : Rng)
    : Outcome Dataset.t * t * Rng :=
  match _determine_node_id_to_indices_if_needed fuel self rng with
  | (Returned _, self, rng) =>
      match _node_id_to_indices self !! node_id with
      | None => (Raised KeyError, self, rng)
      | Some indices =>
          match Dataset.select (dataset self) indices with
          | Ok partition => (Returned partition, self, rng)
          | Raise e => (Raised e, self, rng)
          end
      end
  | (Raised e, self, rng) => (Raised e, self, rng)
  | (OutOfFuel, self, rng) => (OutOfFuel, self, rng)
  end.

End Sampling.
End DirichletPartitioner.

(** A dataset of four rows with a balanced binary label, two partitions,
    no self-balancing, seed 42; the NumPy generator is a stream of the
    vectors it is going to draw. *)
Module DirichletExample.

Definition Rng : Type := list (list Q).

Definition dirichlet (alpha : list Q) (rng : Rng) : list Q * Rng :=
  match rng with
  | draw :: rest => (draw, rest)
  | [] => (map (fun _ => (1 # Pos.of_nat (length alpha))%Q) alpha, [])
  end.

Definition rows : Dataset.t :=
  [ [("features", 10%Z); ("label", 0%Z)];
    [("features", 11%Z); ("label", 0%Z)];
    [("features", 12%Z); ("label", 1%Z)];
    [("features", 13%Z); ("label", 1%Z)] ].

Definition new_partitioner (seed : Z) : DirichletPartitioner.t :=
  DirichletPartitioner.__init__ rows 2 (AlphaFloat (1 # 2)) "label" (Some 0%Z)
    false true seed.

Definition rng0 : Rng :=
  [ [1 # 2; 1 # 2]; [1 # 2; 1 # 2]; [1 # 4; 3 # 4]; [1 # 4; 3 # 4] ]%Q.

Definition load_partition : DirichletPartitioner.t -> nat -> Rng ->
    Outcome Dataset.t * DirichletPartitioner.t * Rng :=
  DirichletPartitioner.load_partition Rng dirichlet 1.

(** The partitioner and the generator after a call *)
Definition after (run : Outcome Dataset.t * DirichletPartitioner.t * Rng)
    : DirichletPartitioner.t * Rng :=
  (snd (fst run), snd run).

End DirichletExample.

(** The same partitioner constructed with another seed. *)
Definition with_seed (self : DirichletPartitioner.t) (seed : Z) : DirichletPartitioner.t :=
  {| DirichletPartitioner.dataset := DirichletPartitioner.dataset self;
     DirichletPartitioner._num_partitions := DirichletPartitioner._num_partitions self;
     DirichletPartitioner._alpha := DirichletPartitioner._alpha self;
     DirichletPartitioner._partition_by := DirichletPartitioner._partition_by self;
     DirichletPartitioner._min_partition_size :=
       DirichletPartitioner._min_partition_size self;
     DirichletPartitioner._self_balancing := DirichletPartitioner._self_balancing self;
     DirichletPartitioner._shuffle := DirichletPartitioner._shuffle self;
     DirichletPartitioner._seed := seed;
     DirichletPartitioner._unique_classes := DirichletPartitioner._unique_classes self;
     DirichletPartitioner._num_unique_classes :=
       DirichletPartitioner._num_unique_classes self;
     DirichletPartitioner._avg_num_of_samples_per_node :=
       DirichletPartitioner._avg_num_of_samples_per_node self;
     DirichletPartitioner._node_id_to_indices :=
       DirichletPartitioner._node_id_to_indices self;
     DirichletPartitioner._node_id_to_indices_determined :=
       DirichletPartitioner._node_id_to_indices_determined self |}.

(** ** [dp_strategy_wrapper_fixed_clipping.py] *)

(** A NumPy array is kept as the vector of its entries, an [NDArrays] value
    as the list of its layers.  Entries are real numbers: the rounding of
    floating-point arithmetic is not modelled.  Python lists that a function
    mutates are passed by state: the function returns the list as the call
    leaves it. *)
Abbreviation NDArray := (list R).
Abbreviation NDArrays := (list (list R)).

Module Np1.

(** An elementwise operation on two vectors; a vector of one entry is
    broadcast, any other difference of sizes is an error. *)
Definition broadcast (f : R -> R -> R) (x y : NDArray) : result NDArray :=
  if Nat.eqb (length x) (length y) then Ok (zip_with f x y)
  else match x, y with
       | _, [b] => Ok (map (fun a => f a b) x)
       | [a], _ => Ok (map (f a) y)
       | _, _ => Raise ValueError
       end.

Definition subtract : NDArray -> NDArray -> result NDArray := broadcast Rminus.
Definition add : NDArray -> NDArray -> result NDArray := broadcast Rplus.

End Np1.

(** [lst[idx] = value] *)
Definition list_setitem {A : Type} (lst : list A) (idx : nat) (value : A)
    : result (list A) :=
  if Nat.ltb idx (length lst) then Ok (<[idx := value]> lst) else Raise IndexError.

Inductive Scalar : Type :=
| ScalarBool (b : bool)
| ScalarBytes (b : bytes)
| ScalarFloat (x : R)
| ScalarInt (n : Z)
| ScalarStr (s : string).

Module Status.
Record t : Type := mk {
  code : Z;
  message : string
}.
End Status.

Module FitRes.
Record t : Type := mk {
  status : Status.t;
  parameters : Parameters.t;
  num_examples : Z;
  metrics : PyDict.dict string Scalar
}.

(** [fit_res.parameters = parameters] *)
Definition set_parameters (fit_res : t) (p : Parameters.t) : t :=
  {| status := status fit_res;
     parameters := p;
     num_examples := num_examples fit_res;
     metrics := metrics fit_res |}.
End FitRes.

(** Modelled from the spec: the quantities of
    [flwr/common/differential_privacy.py], which is not part of the sources.
    The specification has each update clipped by its L2 norm to
    [clipping_norm] with the scaling factor [min(1, C/||update||_2)], and
    noise added of standard deviation
    [noise_multiplier * clipping_norm / num_sampled_clients].  What the
    wrapper's own code needs of [clip_inputs] is a parameter of the wrapper
    below; [clip_inputs] here is one instance of it. *)
Module DifferentialPrivacy.

Definition sum_of_squares (xs : list R) : R :=
  fold_right (fun x acc => (x * x + acc)%R) 0%R xs.

(** The L2 norm of all entries of all layers *)
Definition get_norm (input_arrays : NDArrays) : R :=
  sqrt (sum_of_squares (concat input_arrays)).

Definition scale (factor : R) (arrays : NDArrays) : NDArrays :=
  map (map (Rmult factor)) arrays.

(** A [clip_inputs] in the reading that the specification's note O4 asks
    for: it scales the layers of the list it is given, in place, and returns
    that list.  The pair is (returned value, [input_arrays] after the call).
    This instance never raises. *)
Definition clip_inputs (input_arrays : NDArrays) (clipping_norm : R)
    : result (NDArrays * NDArrays) :=
  let input_norm := get_norm input_arrays in
  let scaling_factor := Rmin 1 (clipping_norm / input_norm) in
  let clipped_inputs := scale scaling_factor input_arrays in
  Ok (clipped_inputs, clipped_inputs).

Definition compute_stdv (noise_multiplier clipping_norm : R)
    (num_sampled_clients : Z) : R :=
  (noise_multiplier * clipping_norm / IZR num_sampled_clients)%R.

End DifferentialPrivacy.

Module DPStrategyWrapperServerSideFixedClipping.

Record t : Type := mk {
  noise_multiplier : R;
  clipping_norm : R;
  num_sampled_clients : Z;
  current_round_params : NDArrays
}.

Definition __init__ (noise_multiplier clipping_norm : R) (num_sampled_clients : Z)
    : result t :=
  if Rlt_dec noise_multiplier 0 then Raise ValueError
  else if Rle_dec clipping_norm 0 then Raise ValueError
  else if Z.leb num_sampled_clients 0 then Raise ValueError
  else Ok {| noise_multiplier := noise_multiplier;
             clipping_norm := clipping_norm;
             num_sampled_clients := num_sampled_clients;
             current_round_params := [] |}.

Section Wrapper.

(** A client proxy is opaque to the wrapper.  The codecs between
    [Parameters] and arrays, the noise generator and the wrapped strategy
    come from outside the file. *)
Variable ClientProxy : Type.
Variable parameters_to_ndarrays : Parameters.t -> NDArrays.
Variable ndarrays_to_parameters : NDArrays -> Parameters.t.
Variable NoiseRng : Type.
Variable add_noise_to_params : Parameters.t -> R -> NoiseRng -> Parameters.t * NoiseRng.

(** [clip_inputs(input_arrays, clipping_norm)] is imported from outside the
    file.  A call raises, or it returns: then it is kept as the pair of the
    list it returns and of [input_arrays] as the call leaves it. *)
Variable clip_inputs : NDArrays -> R -> result (NDArrays * NDArrays).

Definition Results : Type := list (ClientProxy * FitRes.t).

Inductive Failure : Type :=
| FailedResult (proxy : ClientProxy) (fit_res : FitRes.t)
| FailedException (ex : PyExn).

Definition Metrics : Type := PyDict.dict string Scalar.

(** [self.strategy.aggregate_fit] *)
Variable strategy_aggregate_fit :
  Z -> Results -> list Failure -> option Parameters.t * Metrics.

(** [configure_fit] remembers the parameters sent out for the round. *)
Definition configure_fit (self : t) (parameters : Parameters.t) : t :=
  {| noise_multiplier := noise_multiplier self;
     clipping_norm := clipping_norm self;
     num_sampled_clients := num_sampled_clients self;
     current_round_params := parameters_to_ndarrays parameters |}.

(** [[np.subtract(x, y) for (x, y) in zip(client_param, current)]] *)
Fixpoint compute_model_update (client_param current : NDArrays) : result NDArrays :=
  match client_param, current with
  | x :: client_param, y :: current =>
      d ← Np1.subtract x y;
      ds ← compute_model_update client_param current;
      Ok (d :: ds)
  | _, _ => Ok []
  end.

Fixpoint _compute_model_updates (self : t) (all_clients_params : list NDArrays)
    : result (list NDArrays) :=
  match all_clients_params with
  | [] => Ok []
  | client_param :: rest =>
      client_update ← compute_model_update client_param (current_round_params self);
      all_client_updates ← _compute_model_updates self rest;
      Ok (client_update :: all_client_updates)
  end.

(** The body of [for i, _ in enumerate(self.current_round_params)], run over
    the indices [idxs]; returns [client_param] as the loop leaves it. *)
Fixpoint update_clients_params_loop (self : t) (idxs : list nat)
    (client_param client_update : NDArrays) : result NDArrays :=
  match idxs with
  | [] => Ok client_param
  | i :: rest =>
      current_i ← list_getitem (current_round_params self) i;
      update_i ← list_getitem client_update i;
      new_i ← Np1.add current_i update_i;
      client_param ← list_setitem client_param i new_i;
      update_clients_params_loop self rest client_param client_update
  end.

Definition _update_clients_params (self : t) (client_param client_update : NDArrays)
    : result NDArrays :=
  update_clients_params_loop self (seq 0 (length (current_round_params self)))
    client_param client_update.

(** [for client_update in all_clients_updates:
       client_update = clip_inputs(client_update, self.clipping_norm)]:
    the value returned by [clip_inputs] is bound to the loop variable and
    dropped; each list of [all_clients_updates] is left as [clip_inputs]
    leaves its argument.  A call that raises ends the loop. *)
Fixpoint clip_updates (self : t) (all_clients_updates : list NDArrays)
    : result (list NDArrays) :=
  match all_clients_updates with
  | [] => Ok []
  | client_update :: rest =>
      clipped ← clip_inputs client_update (clipping_norm self);
      let client_update_after := snd clipped in
      rest ← clip_updates self rest;
      Ok (client_update_after :: rest)
  end.

(** [for client_param, client_update in zip(clients_params, all_clients_updates)] *)
Fixpoint update_all_clients_params (self : t)
    (clients_params all_clients_updates : list NDArrays) : result (list NDArrays) :=
  match clients_params, all_clients_updates with
  | client_param :: clients_params, client_update :: all_clients_updates =>
      client_param ← _update_clients_params self client_param client_update;
      rest ← update_all_clients_params self clients_params all_clients_updates;
      Ok (client_param :: rest)
  | clients_params, _ => Ok clients_params
  end.

(** The clients' parameters after the updates were computed, clipped and
    added back (the statements between the test of [failures] and the loop
    that writes the results). *)
Definition sanitized_clients_params (self : t) (results : Results)
    : result (list NDArrays) :=
  let clients_params :=
    map (fun r => parameters_to_ndarrays (FitRes.parameters (snd r))) results in
  all_clients_updates ← _compute_model_updates self clients_params;
  all_clients_updates ← clip_updates self all_clients_updates;
  update_all_clients_params self clients_params all_clients_updates.

(** [for res, params in zip(results, clients_params):
       res[1].parameters = ndarrays_to_parameters(params)] *)
Fixpoint write_back (results : Results) (clients_params : list NDArrays) : Results :=
  match results, clients_params with
  | (proxy, fit_res) :: results, params :: clients_params =>
      (proxy, FitRes.set_parameters fit_res (ndarrays_to_parameters params))
        :: write_back results clients_params
  | results, _ => results
  end.

(** [if aggregated_params: aggregated_params = add_noise_to_params(...)];
    a [Parameters] object is always true, [None] is false. *)
Definition add_noise (self : t) (aggregated : option Parameters.t * Metrics)
    (rng : NoiseRng) : (option Parameters.t * Metrics) * NoiseRng :=
  let '(aggregated_params, metrics) := aggregated in
  match aggregated_params with
  | Some aggregated_params =>
      let '(aggregated_params, rng) :=
        add_noise_to_params aggregated_params
          (DifferentialPrivacy.compute_stdv (noise_multiplier self)
             (clipping_norm self) (num_sampled_clients self))
          rng in
      ((Some aggregated_params, metrics), rng)
  | None => ((None, metrics), rng)
  end.

(** [aggregate_fit] returns its result, the FitRes objects of [results] as
    the call leaves them, and the state of the noise generator. *)
Definition aggregate_fit (self : t) (server_round : Z) (results : Results)
    (failures : list Failure) (rng : NoiseRng)
    : result (option Parameters.t * Metrics) * Results * NoiseRng :=
  match failures with
  | _ :: _ => (Ok (None, []), results, rng)
  | [] =>
      match sanitized_clients_params self results with
      | Raise e => (Raise e, results, rng)
      | Ok clients_params =>
          (* Update the results with the new params *)
          let results := write_back results clients_params in
          (* Pass the new parameters for aggregation *)
          let aggregated := strategy_aggregate_fit server_round results failures in
          (* Add Gaussian noise to the aggregated parameters *)
          let '(aggregated, rng) := add_noise self aggregated rng in
          (Ok aggregated, results, rng)
      end
  end.

End Wrapper.
End DPStrategyWrapperServerSideFixedClipping.

(** Two lists of layers with the same number of layers and layers of the
    same sizes. *)
Definition same_shape (a b : NDArrays) : Prop :=
  Forall2 (fun x y => length x = length y) a b.

(** The specification's reading of the wrapper, for one client: the update
    is the client's parameters minus the round's, it is scaled by
    [min(1, C / norm)], and the sanitized parameters are the round's
    parameters plus the clipped update. *)
Module DPSpec.

Definition update (client current : NDArrays) : NDArrays :=
  zip_with (zip_with Rminus) client current.

Definition clip (C : R) (delta : NDArrays) : NDArrays :=
  DifferentialPrivacy.scale (Rmin 1 (C / DifferentialPrivacy.get_norm delta)) delta.

Definition sanitized (C : R) (current client : NDArrays) : NDArrays :=
  zip_with (zip_with Rplus) current (clip C (update client current)).

End DPSpec.

(** Scenario S3 of the specification, with one client: the client returns
    [[1.0]], the round's parameters are [[0.0]], the clipping norm is 0.5 and
    there is no noise.  A tensor is decoded byte by byte; the encoder keeps
    the sizes of the layers only. *)
Module DPExample.

Definition parameters_to_ndarrays (p : Parameters.t) : NDArrays :=
  map (map (fun b => IZR (Z.of_N (Byte.to_N b)))) (Parameters.tensors p).

Definition ndarrays_to_parameters (arrays : NDArrays) : Parameters.t :=
  Parameters.mk (map (map (fun _ => Byte.x00)) arrays) "numpy.ndarray".

Definition add_noise_to_params (p : Parameters.t) (stdv : R) (rng : nat)
    : Parameters.t * nat :=
  (p, S rng).

(** An inner strategy that returns the first client's parameters *)
Definition first_result
    (server_round : Z)
    (results : DPStrategyWrapperServerSideFixedClipping.Results string)
    (failures : list (DPStrategyWrapperServerSideFixedClipping.Failure string))
    : option Parameters.t * DPStrategyWrapperServerSideFixedClipping.Metrics :=
  match results with
  | [] => (None, [])
  | (_, fit_res) :: _ => (Some (FitRes.parameters fit_res), [])
  end.

Definition wrapper : DPStrategyWrapperServerSideFixedClipping.t :=
  DPStrategyWrapperServerSideFixedClipping.configure_fit parameters_to_ndarrays
    (DPStrategyWrapperServerSideFixedClipping.mk 0 (1 / 2) 1 [])
    (Parameters.mk [[Byte.x00]] "numpy.ndarray").

Definition reply : FitRes.t :=
  FitRes.mk (Status.mk 0 "Success") (Parameters.mk [[Byte.x01]] "numpy.ndarray")
    10 [].

Definition results : DPStrategyWrapperServerSideFixedClipping.Results string :=
  [("client-0", reply)].

Definition aggregate_fit :=
  DPStrategyWrapperServerSideFixedClipping.aggregate_fit string
    parameters_to_ndarrays ndarrays_to_parameters nat add_noise_to_params
    DifferentialPrivacy.clip_inputs first_result wrapper 1.

End DPExample.

(** The sentence of the specification about failures, as a predicate on a
    call of the example wrapper: whatever [failures] holds, the outcome is
    the wrapped strategy's answer to the round's results (as many as were
    passed in) and these failures, with the noise added. *)
Definition delegates_to_inner_strategy
    (results : DPStrategyWrapperServerSideFixedClipping.Results string)
    (failures : list (DPStrategyWrapperServerSideFixedClipping.Failure string))
    (rng : nat) : Prop :=
  exists handed : DPStrategyWrapperServerSideFixedClipping.Results string,
    length handed = length results /\
    fst (fst (DPExample.aggregate_fit results failures rng)) =
      Ok (fst (DPStrategyWrapperServerSideFixedClipping.add_noise nat
                 DPExample.add_noise_to_params DPExample.wrapper
                 (DPExample.first_result 1 handed failures) rng)).

(** ** Records that were only changed through their methods *)

(** The typed dictionaries one can obtain from a freshly constructed one by
    calling its mutating methods. *)
Inductive reachable {K V : Type} `{EqDecision K}
    (check_key_fn : K -> result unit) (check_value_fn : V -> result unit)
    : TypedDict.t K V -> Prop :=
| reachable_init :
    reachable check_key_fn check_value_fn
      (TypedDict.__init__ check_key_fn check_value_fn)
| reachable_setitem (R : TypedDict.t K V) (k : K) (v : V) :
    reachable check_key_fn check_value_fn R ->
    reachable check_key_fn check_value_fn (snd (TypedDict.__setitem__ R k v))
| reachable_delitem (R : TypedDict.t K V) (k : K) :
    reachable check_key_fn check_value_fn R ->
    reachable check_key_fn check_value_fn (snd (TypedDict.__delitem__ R k))
| reachable_update (R : TypedDict.t K V) (entries : list (K * V)) :
    reachable check_key_fn check_value_fn R ->
    reachable check_key_fn check_value_fn (snd (TypedDict.update R entries))
| reachable_pop (R : TypedDict.t K V) (k : K) :
    reachable check_key_fn check_value_fn R ->
    reachable check_key_fn check_value_fn (snd (TypedDict.pop R k))
| reachable_clear (R : TypedDict.t K V) :
    reachable check_key_fn check_value_fn R ->
    reachable check_key_fn check_value_fn (TypedDict.clear R).

(** An entry that both checkers let through *)
Definition accepted {K V : Type} (R : TypedDict.t K V) (kv : K * V) : Prop :=
  TypedDict._check_key_fn R (fst kv) = Ok tt /\
  TypedDict._check_value_fn R (snd kv) = Ok tt.

(** [d[k] = v] for every entry of [entries], in order *)
Definition setitems {K V : Type} `{EqDecision K} (entries : list (K * V))
    (d : PyDict.dict K V) : PyDict.dict K V :=
  fold_left (fun d kv => PyDict.setitem (fst kv) (snd kv) d) entries d.

(** ** [vce_api.py]: registering the nodes *)

Module VceSetup.
Section VceSetup.

(** The state behind [state_factory.state()], as far as registration uses
    it: [create_node] returns a node id and the state that follows. *)
Variable State : Type.
Variable create_node : State -> Z * State.

(** The body of [for i in range(num_nodes)] of [_register_nodes] *)
Fixpoint _register_nodes_loop (idxs : list nat) (state : State)
    (nodes_mapping : gmap Z Z) : gmap Z Z * State :=
  match idxs with
  | [] => (nodes_mapping, state)
  | i :: rest =>
      let '(node_id, state) := create_node state in
      _register_nodes_loop rest state (<[node_id := Z.of_nat i]> nodes_mapping)
  end.

Definition _register_nodes (num_nodes : nat) (state : State) : gmap Z Z * State :=
  _register_nodes_loop (seq 0 num_nodes) state ∅.

(** The ids that [num_nodes] successive calls of [create_node] return *)
Fixpoint created_node_ids (num_nodes : nat) (state : State) : list Z :=
  match num_nodes with
  | O => []
  | S n =>
      let '(node_id, state) := create_node state in
      node_id :: created_node_ids n state
  end.

(** [run_vce]: [node_states[node_id] = NodeState()] for every key of the
    mapping *)
Definition initial_node_states {Ctx : Type} (nodes_mapping : gmap Z Z)
    : gmap Z (NodeState.t Ctx) :=
  (fun _ => NodeState.mk ∅) <$> nodes_mapping.

End VceSetup.
End VceSetup.

(** A store that numbers its nodes from 100 upwards *)
Module VceSetupExample.

Definition create_node (next : Z) : Z * Z := ((100 + next)%Z, (next + 1)%Z).

End VceSetupExample.

(** The job that the worker of [vce_api.py] builds for a task *)
Module VceJob.
Section VceJob.
Variables Payload RecordSet : Type.
Variable empty_recordset : RecordSet.
Variable recordset_from_proto : Payload -> RecordSet.

(** The context that a task finds for its node and run: the stored one, or
    an empty RecordSet registered on the spot. *)
Definition context_for (ns : NodeState.t RecordSet) (run_id : Z) : RecordSet :=
  default empty_recordset (NodeState.run_contexts ns !! run_id).

Definition job_for (task_ins : TaskIns.t Payload) (ns : NodeState.t RecordSet)
    (partition : Z) : VceApi.Job RecordSet :=
  (VceApi.taskins_to_message Payload RecordSet recordset_from_proto task_ins partition,
   str_int (Node.node_id (Task.consumer (TaskIns.task task_ins))),
   context_for ns (TaskIns.run_id task_ins)).

End VceJob.
Arguments context_for {RecordSet}.
Arguments job_for {Payload RecordSet}.
End VceJob.

(** ** Reading an assignment of the Dirichlet partitioner *)

(** The partitions 0, ..., [num_partitions - 1] of an assignment, and all
    their indices one partition after the other. *)
Definition partitions_of (num_partitions : nat) (node_id_to_indices : gmap nat (list nat))
    : list (list nat) :=
  map (fun nid => default [] (node_id_to_indices !! nid)) (seq 0 num_partitions).

Definition all_indices (num_partitions : nat) (node_id_to_indices : gmap nat (list nat))
    : list nat :=
  concat (partitions_of num_partitions node_id_to_indices).

(** Split indices that start at or above [lo] and never decrease *)
Fixpoint nondecreasing_from (lo : Z) (indices : list Z) : Prop :=
  match indices with
  | [] => True
  | i :: rest => (lo <= i)%Z /\ nondecreasing_from i rest
  end.

(** The generator only draws vectors without negative entries, as a
    Dirichlet distribution does. *)
Definition draws_nonnegative_by {Rng : Type} (dirichlet : list Q -> Rng -> list Q * Rng)
    : Prop :=
  forall (alpha : list Q) (rng : Rng), Forall (Qle 0) (fst (dirichlet alpha rng)).

(** A generator whose state counts the draws and which always draws the
    uniform proportions. *)
Module UniformDraws.

Definition dirichlet (alpha : list Q) (draws : nat) : list Q * nat :=
  (map (fun _ => (1 # Pos.of_nat (length alpha))%Q) alpha, S draws).

Definition determine : nat -> DirichletPartitioner.t -> nat ->
    Outcome unit * DirichletPartitioner.t * nat :=
  DirichletPartitioner._determine_node_id_to_indices_if_needed nat dirichlet.

Definition load_partition : nat -> DirichletPartitioner.t -> nat -> nat ->
    Outcome Dataset.t * DirichletPartitioner.t * nat :=
  DirichletPartitioner.load_partition nat dirichlet.

(** Two partitions of the four example rows, no self-balancing. *)
Definition partitioner : DirichletPartitioner.t := DirichletExample.new_partitioner 42.

(** The same with the constructor's defaults: self-balancing, no minimal
    partition size. *)
Definition default_partitioner : DirichletPartitioner.t :=
  DirichletPartitioner.__init__ DirichletExample.rows 2 (AlphaFloat (1 # 2)) "label" None
    true true 42.

(** Two rows asked for each of the two partitions. *)
Definition sized_partitioner : DirichletPartitioner.t :=
  DirichletPartitioner.__init__ DirichletExample.rows 2 (AlphaFloat (1 # 2)) "label"
    (Some 2%Z) false true 42.

(** Three rows asked for each of the two partitions of four rows. *)
Definition demanding_partitioner : DirichletPartitioner.t :=
  DirichletPartitioner.__init__ DirichletExample.rows 2 (AlphaFloat (1 # 2)) "label"
    (Some 3%Z) false true 42.

End UniformDraws.

(** ** Clients whose number of layers differs from the round's *)

(** The layers that two lists of layers have in common have the same
    sizes. *)
Definition layers_match (a b : NDArrays) : Prop :=
  forall (i : nat) (x y : NDArray),
    a !! i = Some x -> b !! i = Some y -> length x = length y.

(** The list that a call of [clip_inputs] leaves in its argument (the
    argument as it was, when the call raises) *)
Definition left_by (clip_inputs : NDArrays -> R -> result (NDArrays * NDArrays))
    (input_arrays : NDArrays) (clipping_norm : R) : NDArrays :=
  match clip_inputs input_arrays clipping_norm with
  | Ok (_, input_arrays_after) => input_arrays_after
  | Raise _ => input_arrays
  end.

(** A call of [clip_inputs] on [input_arrays] returns and leaves its argument
    with the layers and sizes it had. *)
Definition returns_keeping_shape
    (clip_inputs : NDArrays -> R -> result (NDArrays * NDArrays))
    (clipping_norm : R) (input_arrays : NDArrays) : Prop :=
  (exists clipped, clip_inputs input_arrays clipping_norm = Ok clipped) /\
  same_shape (left_by clip_inputs input_arrays clipping_norm) input_arrays.

(** [clip_inputs] does so on every call. *)
Definition keeps_shape (clip_inputs : NDArrays -> R -> result (NDArrays * NDArrays))
    : Prop :=
  forall (input_arrays : NDArrays) (clipping_norm : R),
    returns_keeping_shape clip_inputs clipping_norm input_arrays.



(** Wrappers and replies around one round whose parameters are the single
    layer [[0.0]]. *)
Module DPLayersExample.

(** A wrapper on which [configure_fit] was never called *)
Definition fresh_wrapper : DPStrategyWrapperServerSideFixedClipping.t :=
  DPStrategyWrapperServerSideFixedClipping.mk 0 (1 / 2) 1 [].

Definition reply_with (tensors : list bytes) : FitRes.t :=
  FitRes.mk (Status.mk 0 "Success") (Parameters.mk tensors "numpy.ndarray") 10 [].

(** A client that sends no layer, and one that sends a second layer *)
Definition short_results : DPStrategyWrapperServerSideFixedClipping.Results string :=
  [("client-0", DPExample.reply); ("client-1", reply_with [])].

Definition long_results : DPStrategyWrapperServerSideFixedClipping.Results string :=
  [("client-0", reply_with [[Byte.x01]; [Byte.x02; Byte.x03]])].

Definition aggregate_fit_with
    (clip_inputs : NDArrays -> R -> result (NDArrays * NDArrays))
    (self : DPStrategyWrapperServerSideFixedClipping.t) :=
  DPStrategyWrapperServerSideFixedClipping.aggregate_fit string
    DPExample.parameters_to_ndarrays DPExample.ndarrays_to_parameters nat
    DPExample.add_noise_to_params clip_inputs DPExample.first_result self 1.

Definition aggregate_fit := aggregate_fit_with DifferentialPrivacy.clip_inputs.

(** A [clip_inputs] that divides by the norm as Python floats do: on a list
    without any entry the norm is [0.0] and the division raises. *)
Definition dividing_clip_inputs (input_arrays : NDArrays) (clipping_norm : R)
    : result (NDArrays * NDArrays) :=
  match concat input_arrays with
  | [] => Raise ZeroDivisionError
  | _ :: _ => DifferentialPrivacy.clip_inputs input_arrays clipping_norm
  end.

End DPLayersExample.



(** ** [mock_utils.py] *)

Module MockUtils.
Section MockUtils.

(** The generator behind the module [random]: [randbelow n] draws an index
    for a sequence of [n] elements and advances the generator. *)
Variable Rng : Type.
Variable randbelow : nat -> Rng -> nat * Rng.

(** [random.choice(seq)]: an empty sequence is an [IndexError]. *)
Definition choice {A : Type} (seq : list A) (rng : Rng) : result A * Rng :=
  match seq with
  | [] => (Raise IndexError, rng)
  | _ :: _ =>
      let '(i, rng) := randbelow (length seq) rng in
      (list_getitem seq i, rng)
  end.

(** [for _ in range(remaining_to_allocate):
       artificial_column.append(random.choice(choices))] *)
Fixpoint append_choices {A : Type} (remaining_to_allocate : nat) (choices : list A)
    (artificial_column : list A) (rng : Rng) : result (list A) * Rng :=
  match remaining_to_allocate with
  | O => (Ok artificial_column, rng)
  | S remaining =>
      match choice choices rng with
      | (Raise e, rng) => (Raise e, rng)
      | (Ok x, rng) => append_choices remaining choices (artificial_column ++ [x]) rng
      end
  end.

Definition generate_artificial_categories {A : Type} (num_rows : Z) (choices : list A)
    (rng : Rng) : result (list A) * Rng :=
  let artificial_column := choices in
  let remaining_to_allocate := (num_rows - Z.of_nat (length choices))%Z in
  (* [range] of a negative number is empty *)
  append_choices (Z.to_nat remaining_to_allocate) choices artificial_column rng.

End MockUtils.
End MockUtils.

(** The generator draws an index of the sequence, as [random] does. *)
Definition draws_in_range {Rng : Type} (randbelow : nat -> Rng -> nat * Rng) : Prop :=
  forall (n : nat) (rng : Rng), 0 < n -> fst (randbelow n rng) < n.

(** A generator that walks through the sequence *)
Module MockExample.

Definition randbelow (n : nat) (rng : nat) : nat * nat := (rng mod n, S rng).

End MockExample.

(** ** [examples/app-pytorch/client.py]: the TensorBoard mod *)

(** The calls that the mod makes into TensorFlow, in the order made *)
Inductive TfCall (MetricValue Time : Type) : Type :=
| create_file_writer (logdir : string)
| as_default (step : string)
| scalar_time (name : string) (data : Time) (step : Z)
| scalar_metric (name : string) (data : MetricValue) (step : string)
| writer_flush
| exit_default.
Arguments create_file_writer {MetricValue Time}.
Arguments as_default {MetricValue Time}.
Arguments scalar_time {MetricValue Time}.
Arguments scalar_metric {MetricValue Time}.
Arguments writer_flush {MetricValue Time}.
Arguments exit_default {MetricValue Time}.

(** [a or b] on strings: the empty string is false. *)
Definition str_or (a b : string) : string := if String.eqb a "" then b else a.

Module TensorboardMod.
Section TensorboardMod.

(** What the mod reads of a RecordSet and what it uses from outside the
    file: the configs and the metrics of a content, [str] of a config value,
    [int] of a string, the clock of [time.time()], [os.path.join], the two
    message-type constants, and the directory of the run. *)
Variables Content Context ConfigValue MetricValue Time Clock : Type.
Variable configs : Content -> PyDict.dict string ConfigValue.
Variable metrics : Content -> PyDict.dict string MetricValue.
Variable str_config : ConfigValue -> string.
Variable int_str : string -> result Z.
Variable time_time : Clock -> Time * Clock.
Variable time_sub : Time -> Time -> Time.
Variable os_path_join : string -> string -> string.
Variables MESSAGE_TYPE_FIT MESSAGE_TYPE_EVALUATE : string.
Variable logdir_run : string.

(** A client app, called on a message and a context that it may change *)
Definition ClientAppCallable : Type :=
  Message.t Content -> Context -> result (Message.t Content) * Context.

(** [tf.summary.scalar(f"{msg_type}_<name>", metrics[name], step=round)] when
    [name] is among the metrics *)
Definition scalar_if_present (msg_type name round : string)
    (metrics : PyDict.dict string MetricValue)
    : result (list (TfCall MetricValue Time)) :=
  if PyDict.contains name metrics
  then data ← PyDict.getitem name metrics;
       Ok [scalar_metric (String.append msg_type (String.append "_" name)) data round]
  else Ok [].

(** The body of the [if] on the message type: the outcome and the calls
    made.  An exception inside the [with] block leaves the block. *)
Definition write_summary (bwd : Message.t Content) (client_id round : string)
    (time_diff : Time) : result unit * list (TfCall MetricValue Time) :=
  let writer := create_file_writer (os_path_join logdir_run client_id) in
  let metrics := metrics (Message.content bwd) in
  let msg_type := Metadata.message_type (Message.metadata bwd) in
  match int_str round with
  | Raise e => (Raise e, [writer; as_default round; exit_default])
  | Ok step =>
      let timed := scalar_time (String.append msg_type "_time") time_diff step in
      match scalar_if_present msg_type "accuracy" round metrics with
      | Raise e => (Raise e, [writer; as_default round; timed; exit_default])
      | Ok accuracy =>
          match scalar_if_present msg_type "loss" round metrics with
          | Raise e =>
              (Raise e, [writer; as_default round; timed] ++ accuracy ++ [exit_default])
          | Ok loss =>
              (Ok tt,
               [writer; as_default round; timed] ++ accuracy ++ loss ++
                 [writer_flush; exit_default])
          end
      end
  end.

(** [tensorboard_mod(fwd, context, app)]: the outcome, the context and the
    clock as the call leaves them, and the calls into TensorFlow. *)
Definition tensorboard_mod (fwd : Message.t Content) (context : Context)
    (app : ClientAppCallable) (clock : Clock)
    : result (Message.t Content) * Context * Clock * list (TfCall MetricValue Time) :=
  let group_id := Metadata.group_id (Message.metadata fwd) in
  let client_id := str_int (Metadata.node_id (Message.metadata fwd)) in
  let config := configs (Message.content fwd) in
  match (if PyDict.contains "round" config
         then v ← PyDict.getitem "round" config; Ok (str_config v)
         else Ok group_id) with
  | Raise e => (Raise e, context, clock, [])
  | Ok round =>
      let '(start_time, clock) := time_time clock in
      match app fwd context with
      | (Raise e, context) => (Raise e, context, clock, [])
      | (Ok bwd, context) =>
          let '(end_time, clock) := time_time clock in
          let time_diff := time_sub end_time start_time in
          if String.eqb (Metadata.message_type (Message.metadata bwd))
               (str_or MESSAGE_TYPE_FIT MESSAGE_TYPE_EVALUATE)
          then match write_summary bwd client_id round time_diff with
               | (Raise e, calls) => (Raise e, context, clock, calls)
               | (Ok _, calls) => (Ok bwd, context, clock, calls)
               end
          else (Ok bwd, context, clock, [])
      end
  end.

End TensorboardMod.
End TensorboardMod.

(** A content that is its own dictionary of metrics and of configs, the
    constants ["fit"] and ["evaluate"], a clock that counts its readings,
    and an app that answers every message with an evaluate reply. *)
Module TensorboardExample.

Definition Content : Type := PyDict.dict string Z.

Definition evaluate_app : TensorboardMod.ClientAppCallable Content nat :=
  fun fwd context =>
    (Ok (Message.mk [("accuracy", 1%Z); ("loss", 2%Z)]
           (Metadata.mk 1 "m1" "3" 7 "" "evaluate")),
     S context).

Definition tensorboard_mod :=
  TensorboardMod.tensorboard_mod Content nat Z Z Z Z
    (fun c => c) (fun c => c) str_int (fun _ => Ok 3%Z)
    (fun clock => (clock, (clock + 1)%Z)) Z.sub
    (fun a b => String.append a (String.append "/" b))
    "fit" "evaluate" ".runs_history/0".

Definition fwd : Message.t Content :=
  Message.mk [("round", 3%Z)] (Metadata.mk 1 "m0" "3" 7 "" "evaluate").

End TensorboardExample.

(** * Theorems *)

Section PyDictFacts.
Context {K V : Type} `{EqDecision K}.
Import PyDict.

Lemma setitem_fresh (k : K) (v : V) (d : dict K V) :
  ~ In k (keys d) -> setitem k v d = d ++ [(k, v)].
Proof.
  induction d as [|[k' v'] d IH]; simpl; intros Hk; [reflexivity|].
  destruct (decide (k = k')) as [->|Hne].
  - exfalso. apply Hk. now left.
  - f_equal. apply IH. intros Hin. apply Hk. now right.
Qed.

Lemma getitem_app_fresh (k : K) (v : V) (pre suf : dict K V) :
  ~ In k (keys pre) -> getitem k (pre ++ (k, v) :: suf) = Ok v.
Proof.
  induction pre as [|[k' v'] pre IH]; simpl; intros Hk.
  - destruct (decide (k = k)); [reflexivity|congruence].
  - destruct (decide (k = k')) as [->|Hne].
    + exfalso. apply Hk. now left.
    + apply IH. intros Hin. apply Hk. now right.
Qed.

Lemma getitem_head (k : K) (v : V) (d : dict K V) :
  getitem k ((k, v) :: d) = Ok v.
Proof. simpl. destruct (decide (k = k)); [reflexivity|congruence]. Qed.

Lemma delitem_head (k : K) (v : V) (d : dict K V) :
  delitem k ((k, v) :: d) = Ok d.
Proof. simpl. destruct (decide (k = k)); [reflexivity|congruence]. Qed.

End PyDictFacts.

(** ** Facts about [typeddict.py] *)

Section TypedDictFacts.
Context {K V : Type} `{EqDecision K}.

Lemma setitem_accepted (R : TypedDict.t K V) (k : K) (v : V) :
  TypedDict._check_key_fn R k = Ok tt ->
  TypedDict._check_value_fn R v = Ok tt ->
  TypedDict.__setitem__ R k v =
    (Ok tt, TypedDict.with_data R (PyDict.setitem k v (TypedDict._data R))).
Proof.
  intros Hk Hv. unfold TypedDict.__setitem__. now rewrite Hk, Hv.
Qed.

(** C8: if the key checker rejects [k] or the value checker rejects [v],
    then [R[k] = v] fails with the error raised by a rejecting checker and
    [R] is exactly what it was: its entries (and so its length, keys and
    values) are untouched. *)
Theorem setitem_rejected_unchanged (R : TypedDict.t K V) (k : K) (v : V) :
  TypedDict.rejects (TypedDict._check_key_fn R) k \/
  TypedDict.rejects (TypedDict._check_value_fn R) v ->
  exists e : PyExn,
    TypedDict.__setitem__ R k v = (Raise e, R) /\
    TypedDict._data (snd (TypedDict.__setitem__ R k v)) = TypedDict._data R /\
    (TypedDict._check_key_fn R k = Raise e \/
     TypedDict._check_value_fn R v = Raise e).
Proof.
  unfold TypedDict.rejects, TypedDict.__setitem__.
  intros [Hk | Hv].
  - destruct (TypedDict._check_key_fn R k) as [u|e]; [contradiction|].
    exists e. repeat split; auto.
  - destruct (TypedDict._check_key_fn R k) as [u|e].
    + destruct (TypedDict._check_value_fn R v) as [u'|e']; [contradiction|].
      exists e'. repeat split; auto.
    + exists e. repeat split; auto.
Qed.

End TypedDictFacts.

Lemma setitem_rejected_unchanged_witness :
  exists e : PyExn,
    TypedDict.__setitem__ nonneg_record "lr" (-1)%Z = (Raise e, nonneg_record) /\
    TypedDict._data (snd (TypedDict.__setitem__ nonneg_record "lr" (-1)%Z)) =
      TypedDict._data nonneg_record /\
    (TypedDict._check_key_fn nonneg_record "lr" = Raise e \/
     TypedDict._check_value_fn nonneg_record (-1)%Z = Raise e).
Proof.
  apply (setitem_rejected_unchanged nonneg_record "lr" (-1)%Z).
  right. exact I.
Defined.

(** ** Facts about [recordset_utils.py] *)

Section RecordsetUtilsFacts.
Import RecordsetUtils.

Lemma str_inj (n m : nat) : str n = str m -> n = m.
Proof.
  unfold str. intros E.
  assert (E' : Some (Nat.to_uint n) = Some (Nat.to_uint m)).
  { rewrite <- !NilEmpty.usu. now rewrite E. }
  injection E' as E'.
  rewrite <- (Unsigned.of_to n), <- (Unsigned.of_to m). now rewrite E'.
Qed.

Example str_10 : str 10 = "10".
Proof. reflexivity. Qed.

(** Keeping the input: the record is only read. *)
Lemma to_parameters_loop_keep (pre suf : PyDict.dict string Array.t)
    (parameters : Parameters.t) :
  PyDict.dict_wf (pre ++ suf) ->
  parametersrecord_to_parameters_loop (PyDict.keys suf) true parameters
      (ParametersRecord.mk (pre ++ suf)) =
    Ok (Parameters.mk
          (Parameters.tensors parameters ++ map Array.data (PyDict.values suf))
          (Parameters.tensor_type parameters),
        ParametersRecord.mk (pre ++ suf)).
Proof.
  revert pre parameters.
  induction suf as [|[k a] suf IH]; intros pre parameters Hwf.
  - simpl. rewrite !app_nil_r. now destruct parameters.
  - simpl. rewrite getitem_app_fresh.
    + simpl. specialize (IH (pre ++ [(k, a)])).
      rewrite <- app_assoc in IH. simpl in IH. rewrite IH by assumption.
      simpl. now rewrite <- app_assoc.
    + unfold PyDict.dict_wf, PyDict.keys in Hwf. rewrite map_app in Hwf.
      apply NoDup_app in Hwf as (_ & Hdisjoint & _).
      intros Hin. apply list_elem_of_In in Hin.
      apply (Hdisjoint k Hin). simpl. apply list_elem_of_here.
Qed.

(** Draining the input: every visited entry is the first one left. *)
Lemma to_parameters_loop_drain (d : PyDict.dict string Array.t)
    (parameters : Parameters.t) :
  parametersrecord_to_parameters_loop (PyDict.keys d) false parameters
      (ParametersRecord.mk d) =
    Ok (Parameters.mk
          (Parameters.tensors parameters ++ map Array.data (PyDict.values d))
          (Parameters.tensor_type parameters),
        ParametersRecord.mk []).
Proof.
  revert parameters.
  induction d as [|[k a] d IH]; intros parameters.
  - simpl. rewrite !app_nil_r. now destruct parameters.
  - cbn [PyDict.keys map fst parametersrecord_to_parameters_loop ParametersRecord.data].
    rewrite getitem_head, delitem_head. simpl.
    fold (PyDict.keys d). rewrite IH. simpl. now rewrite <- app_assoc.
Qed.

Lemma parametersrecord_to_parameters_spec (P : ParametersRecord.t) (keep_input : bool) :
  PyDict.dict_wf (ParametersRecord.data P) ->
  parametersrecord_to_parameters P keep_input =
    Ok (Parameters.mk (blobs P) "",
        if keep_input then P else ParametersRecord.mk []).
Proof.
  intros Hwf. destruct P as [d]. unfold parametersrecord_to_parameters, blobs.
  simpl in *. destruct keep_input.
  - apply (to_parameters_loop_keep [] d (Parameters.mk [] "")). exact Hwf.
  - apply (to_parameters_loop_drain d (Parameters.mk [] "")).
Qed.

Lemma indexed_arrays_keys (tt : string) (i : nat) (ts : list bytes) :
  PyDict.keys (indexed_arrays tt i ts) = map str (seq i (length ts)).
Proof.
  revert i. induction ts as [|t ts IH]; intros i; simpl; [reflexivity|].
  f_equal. apply IH.
Qed.

Lemma indexed_arrays_blobs (tt : string) (i : nat) (ts : list bytes) :
  map Array.data (PyDict.values (indexed_arrays tt i ts)) = ts.
Proof.
  revert i. induction ts as [|t ts IH]; intros i; simpl; [reflexivity|].
  f_equal. apply IH.
Qed.

Lemma indexed_arrays_meta (tt : string) (i : nat) (ts : list bytes) :
  Forall (fun a => Array.dtype a = "" /\ Array.shape a = [] /\ Array.stype a = tt)
    (PyDict.values (indexed_arrays tt i ts)).
Proof.
  revert i. induction ts as [|t ts IH]; intros i; simpl; constructor; auto.
Qed.

Lemma keys_below_fresh (i : nat) (d : PyDict.dict string Array.t) :
  keys_below i d -> ~ In (str i) (PyDict.keys d).
Proof.
  intros Hb Hin. destruct (Hb _ Hin) as (j & Hlt & E).
  apply str_inj in E. lia.
Qed.

Lemma keys_below_snoc (i : nat) (d : PyDict.dict string Array.t) (a : Array.t) :
  keys_below i d -> keys_below (S i) (d ++ [(str i, a)]).
Proof.
  intros Hb k Hin. unfold PyDict.keys in Hin. rewrite map_app in Hin.
  apply in_app_or in Hin as [Hin | Hin].
  - destruct (Hb _ Hin) as (j & Hlt & E). exists j. split; [lia|exact E].
  - simpl in Hin. destruct Hin as [<- | []]. exists i. split; [lia|reflexivity].
Qed.

Lemma to_record_loop_drain (tt : string) (ts : list bytes) (i : nat)
    (d : PyDict.dict string Array.t) :
  keys_below i d ->
  parameters_to_parametersrecord_loop (seq i (length ts)) false tt ts
      (ParametersRecord.mk d) =
    Ok (ParametersRecord.mk (d ++ indexed_arrays tt i ts), []).
Proof.
  revert i d. induction ts as [|t ts IH]; intros i d Hb.
  - simpl. now rewrite app_nil_r.
  - simpl. unfold ParametersRecord.set_parameters. simpl.
    rewrite setitem_fresh by now apply keys_below_fresh.
    rewrite IH by now apply keys_below_snoc.
    now rewrite <- app_assoc.
Qed.

Lemma list_getitem_middle {A : Type} (pre suf : list A) (x : A) :
  list_getitem (pre ++ x :: suf) (length pre) = Ok x.
Proof.
  unfold list_getitem. now rewrite list_lookup_middle.
Qed.

Lemma to_record_loop_keep (tt : string) (suf pre : list bytes)
    (d : PyDict.dict string Array.t) :
  keys_below (length pre) d ->
  parameters_to_parametersrecord_loop (seq (length pre) (length suf)) true tt
      (pre ++ suf) (ParametersRecord.mk d) =
    Ok (ParametersRecord.mk (d ++ indexed_arrays tt (length pre) suf), pre ++ suf).
Proof.
  revert pre d. induction suf as [|t suf IH]; intros pre d Hb.
  - simpl. now rewrite !app_nil_r.
  - simpl. rewrite list_getitem_middle. simpl.
    unfold ParametersRecord.set_parameters. simpl.
    rewrite setitem_fresh by now apply keys_below_fresh.
    specialize (IH (pre ++ [t]) (d ++ [(str (length pre), Array.mk "" [] tt t)])).
    rewrite length_app in IH. simpl in IH. rewrite Nat.add_1_r in IH.
    rewrite <- !app_assoc in IH. simpl in IH.
    rewrite IH by now apply keys_below_snoc.
    reflexivity.
Qed.

Lemma parameters_to_parametersrecord_spec (parameters : Parameters.t)
    (keep_input : bool) :
  parameters_to_parametersrecord parameters keep_input =
    Ok (ParametersRecord.mk
          (indexed_arrays (Parameters.tensor_type parameters) 0
             (Parameters.tensors parameters)),
        Parameters.with_tensors parameters
          (if keep_input then Parameters.tensors parameters else [])).
Proof.
  unfold parameters_to_parametersrecord, ParametersRecord.empty.
  assert (Hb : keys_below 0 []) by (intros k []).
  destruct keep_input.
  - rewrite (to_record_loop_keep _ (Parameters.tensors parameters) [] [] Hb).
    reflexivity.
  - rewrite (to_record_loop_drain _ (Parameters.tensors parameters) 0 [] Hb).
    reflexivity.
Qed.

End RecordsetUtilsFacts.

Section RecordsetUtilsClaims.
Import RecordsetUtils.

(** C5, as the specification states it, fails: the round trip of a record
    holding one NumPy-serialized tensor does not give back the tensor's
    serialization tag, so more than dtype and shape is lost. *)
Lemma roundtrip_drops_stype :
  ~ roundtrip_loses_only_dtype_and_shape one_layer_record.
Proof.
  intros (R & Hrun & _ & Hstype).
  vm_compute in Hrun. injection Hrun as <-.
  vm_compute in Hstype. discriminate Hstype.
Qed.

(** C5, amended: for every ParametersRecord [P] (a dictionary, so with
    pairwise distinct keys) and either choice of the two [keep_input] flags,
    converting [P] to Parameters and back succeeds and yields a record whose
    values, in insertion order, carry exactly the blobs of [P]'s values; the
    keys become "0", "1", ... and every resulting Array has empty dtype,
    empty shape and empty stype. *)
Theorem roundtrip_blobs_preserved (P : ParametersRecord.t) (keep1 keep2 : bool) :
  PyDict.dict_wf (ParametersRecord.data P) ->
  exists R : ParametersRecord.t,
    roundtrip P keep1 keep2 = Ok R /\
    blobs R = blobs P /\
    PyDict.keys (ParametersRecord.data R) =
      map str (seq 0 (length (ParametersRecord.data P))) /\
    Forall (fun a => Array.dtype a = "" /\ Array.shape a = [] /\ Array.stype a = "")
      (PyDict.values (ParametersRecord.data R)).
Proof.
  intros Hwf. unfold roundtrip.
  rewrite (parametersrecord_to_parameters_spec P keep1 Hwf). simpl.
  rewrite parameters_to_parametersrecord_spec. simpl.
  eexists. split; [reflexivity|]. unfold blobs at 1. simpl.
  split; [apply indexed_arrays_blobs|].
  split; [|apply indexed_arrays_meta].
  rewrite indexed_arrays_keys. unfold blobs, PyDict.values.
  now rewrite !length_map.
Qed.

Lemma roundtrip_blobs_preserved_witness :
  exists R : ParametersRecord.t,
    roundtrip one_layer_record false false = Ok R /\
    blobs R = blobs one_layer_record /\
    PyDict.keys (ParametersRecord.data R) =
      map str (seq 0 (length (ParametersRecord.data one_layer_record))) /\
    Forall (fun a => Array.dtype a = "" /\ Array.shape a = [] /\ Array.stype a = "")
      (PyDict.values (ParametersRecord.data R)).
Proof.
  apply (roundtrip_blobs_preserved one_layer_record false false).
  apply NoDup_singleton.
Defined.

(** C9, as the specification states it, fails: the record's first (and
    only) Array is tagged "numpy.ndarray", the returned tensor_type is not. *)
Lemma tensor_type_not_first_stype :
  ~ tensor_type_is_first_stype one_layer_record.
Proof.
  intros Hclaim.
  destruct (Hclaim _ _ _ eq_refl) as (parameters & P' & Hrun & Htag).
  vm_compute in Hrun. injection Hrun as <- <-.
  vm_compute in Htag. discriminate Htag.
Qed.

(** C9, amended: for every ParametersRecord (empty or not) and either value
    of [keep_input], [parametersrecord_to_parameters] returns a Parameters
    object whose tensor_type is the empty string, whatever the stype of the
    record's Arrays; its tensors are the record's blobs in insertion order. *)
Theorem tensor_type_always_empty (P : ParametersRecord.t) (keep_input : bool) :
  PyDict.dict_wf (ParametersRecord.data P) ->
  exists (parameters : Parameters.t) (P' : ParametersRecord.t),
    parametersrecord_to_parameters P keep_input = Ok (parameters, P') /\
    Parameters.tensor_type parameters = "" /\
    Parameters.tensors parameters = blobs P.
Proof.
  intros Hwf. rewrite (parametersrecord_to_parameters_spec P keep_input Hwf).
  do 2 eexists. split; [reflexivity|]. split; reflexivity.
Qed.

Lemma tensor_type_always_empty_witness :
  exists (parameters : Parameters.t) (P' : ParametersRecord.t),
    parametersrecord_to_parameters one_layer_record false = Ok (parameters, P') /\
    Parameters.tensor_type parameters = "" /\
    Parameters.tensors parameters = blobs one_layer_record.
Proof.
  apply (tensor_type_always_empty one_layer_record false).
  apply NoDup_singleton.
Defined.

End RecordsetUtilsClaims.

(** ** Facts about [vce_api.py] *)

Section VceApiFacts.
Variables Payload RecordSet : Type.
Variable empty_recordset : RecordSet.
Variable recordset_from_proto : Payload -> RecordSet.
Variable message_to_taskres : Message.t RecordSet -> TaskRes.t Payload.
Variable configure_task_res :
  TaskRes.t Payload -> TaskIns.t Payload -> Node.t -> TaskRes.t Payload.
Variable actor_run :
  VceApi.Job RecordSet -> result (Message.t RecordSet * RecordSet).
Variable nodes_mapping : VceApi.NodeToPartitionMapping.

#[local] Abbreviation World := (VceApi.World Payload RecordSet).
#[local] Abbreviation process_task :=
  (VceApi.process_task Payload RecordSet empty_recordset recordset_from_proto
     message_to_taskres configure_task_res actor_run nodes_mapping).
#[local] Abbreviation worker :=
  (VceApi.worker Payload RecordSet empty_recordset recordset_from_proto
     message_to_taskres configure_task_res actor_run nodes_mapping).
#[local] Abbreviation taskins_to_message :=
  (VceApi.taskins_to_message Payload RecordSet recordset_from_proto).
#[local] Abbreviation pool := (VceApi.pool Payload RecordSet).
#[local] Abbreviation node_states := (VceApi.node_states Payload RecordSet).
#[local] Abbreviation task_res_store := (VceApi.task_res_store Payload RecordSet).
#[local] Abbreviation consumer_id task_ins :=
  (Node.node_id (Task.consumer (TaskIns.task task_ins))).

Ltac unfold_worker_monad :=
  unfold VceApi.process_task, VceApi.bind, VceApi.get_pool, VceApi.set_pool,
    VceApi.assert_, VceApi.node_state_of, VceApi.set_node_state, VceApi.lift,
    VceApi.store_task_res, VceApi.raise, VceApi.ret, VceApi.partition_of,
    BasicActorPool.submit_if_actor_is_free; simpl.

Lemma retrieve_after_register (ns : NodeState.t RecordSet) (run_id : Z) :
  exists ctx,
    NodeState.retrieve_context
      (NodeState.register_context empty_recordset ns run_id) run_id = Ok ctx.
Proof.
  unfold NodeState.retrieve_context, NodeState.register_context.
  destruct (NodeState.run_contexts ns !! run_id) as [ctx|] eqn:E.
  - exists ctx. now rewrite E.
  - exists empty_recordset. simpl. now rewrite lookup_insert_eq.
Qed.

(** A task whose processing raises leaves the result store as it was. *)
Lemma failed_task_stores_nothing (task_ins : TaskIns.t Payload) (w w' : World)
    (ex : PyExn) :
  process_task task_ins w = (Raise ex, w') ->
  task_res_store w' = task_res_store w.
Proof.
  unfold_worker_monad.
  destruct (BasicActorPool.is_actor_available (pool w)) eqn:Hfree; simpl;
    [|intros [= _ <-]; reflexivity].
  destruct (node_states w !! consumer_id task_ins) as [ns|]; simpl;
    [|intros [= _ <-]; reflexivity].
  rewrite lookup_insert_eq. simpl.
  destruct (retrieve_after_register ns (TaskIns.run_id task_ins)) as [ctx ->].
  simpl.
  destruct (nodes_mapping !! consumer_id task_ins) as [p|]; simpl;
    [|intros [= _ <-]; reflexivity].
  rewrite Hfree. simpl.
  destruct (actor_run _) as [[out_mssg updated_context]|ex']; simpl;
    [|intros [= _ <-]; reflexivity].
  rewrite lookup_insert_eq. simpl. intros [=].
Qed.

(** A task whose client app raises makes [process_task] raise the same
    exception, after the job was handed to an actor. *)
Lemma actor_failure_propagates (task_ins : TaskIns.t Payload) (w : World)
    (ns : NodeState.t RecordSet) (p : Z) (ex : PyExn) :
  BasicActorPool.is_actor_available (pool w) = true ->
  node_states w !! consumer_id task_ins = Some ns ->
  nodes_mapping !! consumer_id task_ins = Some p ->
  (forall job, Message.content (fst (fst job)) =
                 recordset_from_proto (Task.recordset (TaskIns.task task_ins)) ->
               actor_run job = Raise ex) ->
  fst (process_task task_ins w) = Raise ex.
Proof.
  intros Hfree Hns Hp Hrun. unfold_worker_monad.
  rewrite Hfree, Hns. simpl. rewrite lookup_insert_eq. simpl.
  destruct (retrieve_after_register ns (TaskIns.run_id task_ins)) as [ctx ->].
  simpl. rewrite Hp. simpl. rewrite Hfree. simpl.
  rewrite Hrun by reflexivity. reflexivity.
Qed.

(** C3, as the specification states it, fails: with the failing task "t1"
    ahead of "t2" the worker leaves its loop with "t2" still queued and the
    result store empty. *)
Lemma worker_killed_by_task_failure :
  ~ worker_survives_task_failures VceExample.worker
      [VceExample.task "t1" "boom"; VceExample.task "t2" "ok"]
      VceExample.world0.
Proof.
  intros [Hstatus _]. vm_compute in Hstatus. discriminate Hstatus.
Qed.

(** C3, amended: whenever the worker has processed the tasks [done]
    successfully and the processing of the next task [task_ins] raises an
    exception [ex] (in the actor or anywhere else in the [try] block), the
    worker catches the exception, logs it and its traceback, and leaves its
    loop: the tasks [rest] that follow stay in the queue and are never
    processed by this worker. *)
Theorem worker_exits_at_first_failure (done rest : list (TaskIns.t Payload))
    (task_ins : TaskIns.t Payload) (w w1 w2 : World) (ex : PyExn) :
  worker done w = (AwaitingQueue, w1) ->
  process_task task_ins w1 = (Raise ex, w2) ->
  worker (done ++ task_ins :: rest) w =
    (Exited rest, VceApi.log_error Payload RecordSet
                    [LogError ex; LogErrorTraceback ex] w2).
Proof.
  revert w. induction done as [|t done IH]; intros w Hdone Hfail.
  - simpl in Hdone. injection Hdone as ->. simpl. now rewrite Hfail.
  - simpl in Hdone |- *.
    destruct (process_task t w) as [[u|e] w'] eqn:Ht.
    + apply IH; assumption.
    + discriminate Hdone.
Qed.

(** C7: for every TaskIns whose consumer node is in the node-to-partition
    mapping, the job handed to an actor (if the pool has a free actor and
    the node has a state, exactly one job is handed over; otherwise none)
    carries the Message [taskins_to_message task_ins p] where [p] is the
    consumer's partition index, and that Message's metadata has node_id [p],
    run_id, group_id, ttl and message_type copied from the TaskIns and
    message_id equal to the TaskIns's task_id. *)
Theorem message_carries_partition_index (task_ins : TaskIns.t Payload)
    (w : World) (p : Z) :
  nodes_mapping !! consumer_id task_ins = Some p ->
  let w' := snd (process_task task_ins w) in
  let message := taskins_to_message task_ins p in
  (if BasicActorPool.is_actor_available (pool w) &&
      bool_decide (is_Some (node_states w !! consumer_id task_ins))
   then exists run_state,
          BasicActorPool.submitted (pool w') =
            BasicActorPool.submitted (pool w) ++
              [(message, str_int (consumer_id task_ins), run_state)]
   else BasicActorPool.submitted (pool w') = BasicActorPool.submitted (pool w)) /\
  Message.metadata message =
    Metadata.mk (TaskIns.run_id task_ins) (TaskIns.task_id task_ins)
      (TaskIns.group_id task_ins) p (Task.ttl (TaskIns.task task_ins))
      (Task.task_type (TaskIns.task task_ins)).
Proof.
  intros Hp. split; [|reflexivity].
  unfold_worker_monad.
  destruct (BasicActorPool.is_actor_available (pool w)) eqn:Hfree; simpl;
    [|reflexivity].
  destruct (node_states w !! consumer_id task_ins) as [ns|] eqn:Hns; simpl.
  - rewrite lookup_insert_eq. simpl.
    destruct (retrieve_after_register ns (TaskIns.run_id task_ins)) as [ctx Hctx].
    rewrite Hctx. simpl. rewrite Hp. simpl. rewrite Hfree. simpl.
    exists ctx.
    destruct (actor_run _) as [[out_mssg updated_context]|ex']; simpl;
      [|reflexivity].
    rewrite lookup_insert_eq. reflexivity.
  - reflexivity.
Qed.

End VceApiFacts.

Lemma message_carries_partition_index_witness :
  let task_ins := VceExample.task "t1" "ok" in
  let w' := snd (VceApi.process_task string string "" (fun payload => payload)
                   VceExample.message_to_taskres VceExample.configure_task_res
                   VceExample.actor_run VceExample.nodes_mapping task_ins
                   VceExample.world0) in
  let message := VceApi.taskins_to_message string string (fun payload => payload)
                   task_ins 0%Z in
  (exists run_state,
     BasicActorPool.submitted (VceApi.pool _ _ w') =
       [] ++ [(message, "7", run_state)]) /\
  Message.metadata message = Metadata.mk 42%Z "t1" "1" 0%Z "" "fit".
Proof.
  apply (message_carries_partition_index string string "" (fun payload => payload)
           VceExample.message_to_taskres VceExample.configure_task_res
           VceExample.actor_run VceExample.nodes_mapping
           (VceExample.task "t1" "ok") VceExample.world0 0%Z).
  reflexivity.
Defined.

Lemma worker_exits_at_first_failure_witness :
  VceExample.worker
    ([VceExample.task "t0" "ok"] ++
     VceExample.task "t1" "boom" :: [VceExample.task "t2" "ok"])
    VceExample.world0 =
  (Exited [VceExample.task "t2" "ok"],
   VceApi.log_error string string
     [LogError RuntimeError; LogErrorTraceback RuntimeError]
     (snd (VceApi.process_task string string "" (fun payload => payload)
             VceExample.message_to_taskres VceExample.configure_task_res
             VceExample.actor_run VceExample.nodes_mapping
             (VceExample.task "t1" "boom")
             (snd (VceExample.worker [VceExample.task "t0" "ok"]
                     VceExample.world0))))).
Proof.
  apply (worker_exits_at_first_failure string string "" (fun payload => payload)
           VceExample.message_to_taskres VceExample.configure_task_res
           VceExample.actor_run VceExample.nodes_mapping
           [VceExample.task "t0" "ok"] [VceExample.task "t2" "ok"]
           (VceExample.task "t1" "boom") VceExample.world0
           (snd (VceExample.worker [VceExample.task "t0" "ok"] VceExample.world0))
           _ RuntimeError).
  - vm_compute. reflexivity.
  - vm_compute. reflexivity.
Defined.

(** ** Facts about [dirichlet_partitioner.py] *)

Section DirichletPartitionerFacts.
Variable Rng : Type.
Variable dirichlet : list Q -> Rng -> list Q * Rng.

#[local] Abbreviation assign_classes := (DirichletPartitioner.assign_classes Rng dirichlet).
#[local] Abbreviation sample_assignment :=
  (DirichletPartitioner.sample_assignment Rng dirichlet).
#[local] Abbreviation determine :=
  (DirichletPartitioner._determine_node_id_to_indices_if_needed Rng dirichlet).

(** The seed stored by the constructor is read by none of the sampling
    steps. *)
Lemma assign_classes_seed (self : DirichletPartitioner.t) (seed : Z)
    (targets classes : list Z) (a : gmap nat (list nat)) (rng : Rng) :
  assign_classes (with_seed self seed) targets classes a rng =
  assign_classes self targets classes a rng.
Proof.
  revert a rng. induction classes as [|k classes IH]; intros a rng; [reflexivity|].
  simpl. change (DirichletPartitioner.assign_class Rng dirichlet (with_seed self seed))
    with (DirichletPartitioner.assign_class Rng dirichlet self).
  destruct (DirichletPartitioner.assign_class Rng dirichlet self targets k a rng)
    as [[a'|e] rng']; [apply IH|reflexivity].
Qed.

Lemma sample_assignment_seed (fuel : nat) (self : DirichletPartitioner.t) (seed : Z)
    (targets : list Z) (rng : Rng) :
  sample_assignment fuel (with_seed self seed) targets rng =
  sample_assignment fuel self targets rng.
Proof.
  revert rng. induction fuel as [|fuel IH]; intros rng; [reflexivity|].
  simpl. rewrite assign_classes_seed.
  destruct (assign_classes self targets _ _ rng) as [[a|e] rng']; [|reflexivity].
  destruct (DirichletPartitioner.min_sample_size _ a) as [n|e]; [|reflexivity].
  destruct (Z.leb _ _); [reflexivity|apply IH].
Qed.

(** Whatever seed a partitioner was constructed with, a call ends the same
    way, leaves the generator in the same state and stores the same
    assignment. *)
Lemma determine_seed (fuel : nat) (self : DirichletPartitioner.t) (seed : Z)
    (rng : Rng) :
  determine fuel (with_seed self seed) rng =
  (fst (fst (determine fuel self rng)),
   with_seed (snd (fst (determine fuel self rng))) seed,
   snd (determine fuel self rng)).
Proof.
  unfold DirichletPartitioner._determine_node_id_to_indices_if_needed. simpl.
  destruct (Dataset.unique _ _) as [classes|e]; [|reflexivity].
  destruct (Nat.eqb _ 0); [reflexivity|].
  destruct (Dataset.column _ _) as [targets|e]; [|reflexivity].
  match goal with
  | |- context [sample_assignment fuel ?s targets rng] =>
      change s with (with_seed
        (DirichletPartitioner.set_class_info self classes
           (inject_Z (Z.of_nat (Dataset.num_rows (DirichletPartitioner.dataset self)))
            / inject_Z (Z.of_nat (DirichletPartitioner._num_partitions self)))%Q) seed)
  end.
  rewrite sample_assignment_seed.
  destruct (sample_assignment fuel _ targets rng) as [[a|e|] rng']; reflexivity.
Qed.

End DirichletPartitionerFacts.

Section DirichletPartitionerClaims.
Import DirichletExample.

(** C2 (violated by the code): the assignment is meant to be computed on the
    first [load_partition] only and to stay as it is afterwards.  Here the
    first call, for node 0, stores the assignment 0 -> [0; 2], 1 -> [1; 3]
    and sets the determined flag; the second call, for node 1, draws from
    the generator again, replaces the assignment by 0 -> [],
    1 -> [0; 1; 2; 3] and returns all four rows instead of the rows 1
    and 3. *)
Theorem second_load_partition_resamples :
  let first := load_partition (new_partitioner 42) 0 rng0 in
  let second := load_partition (fst (after first)) 1 (snd (after first)) in
  DirichletPartitioner._node_id_to_indices_determined (fst (after first)) = true /\
  DirichletPartitioner._node_id_to_indices (fst (after first)) !! 1 = Some [1; 3] /\
  DirichletPartitioner._node_id_to_indices (fst (after second)) !! 1 =
    Some [0; 1; 2; 3] /\
  fst (fst second) = Returned rows /\
  snd (after second) <> snd (after first).
Proof.
  vm_compute. repeat split; try reflexivity. discriminate.
Qed.

(** C6 (violated by the code): two partitioners constructed with the same
    dataset, seed 42, alpha and flags, used one after the other in a
    process, end with different assignments: node 1 holds the indices
    [1; 3] in the first and all four indices in the second. *)
Theorem same_seed_different_assignment :
  let a := load_partition (new_partitioner 42) 0 rng0 in
  let b := load_partition (new_partitioner 42) 0 (snd (after a)) in
  fst (fst a) = Returned [ [("features", 10%Z); ("label", 0%Z)];
                           [("features", 12%Z); ("label", 1%Z)] ] /\
  fst (fst b) = Returned [] /\
  DirichletPartitioner._node_id_to_indices (fst (after a)) !! 1 = Some [1; 3] /\
  DirichletPartitioner._node_id_to_indices (fst (after b)) !! 1 = Some [0; 1; 2; 3].
Proof.
  vm_compute. repeat split; reflexivity.
Qed.

End DirichletPartitionerClaims.

(** ** Facts about [dp_strategy_wrapper_fixed_clipping.py] *)

Section NormFacts.
Import DifferentialPrivacy.
Local Open Scope R_scope.

Lemma sum_of_squares_nonneg (xs : list R) : 0 <= sum_of_squares xs.
Proof.
  induction xs as [|x xs IH]; simpl; [lra|].
  pose proof (Rle_0_sqr x) as Hx. unfold Rsqr in Hx. lra.
Qed.







(** An update within the norm is left as it is. *)
Lemma clip_small_update (C : R) (delta : NDArrays) :
  0 < get_norm delta <= C -> Rmin 1 (C / get_norm delta) = 1.
Proof.
  intros [Hpos Hle]. apply Rmin_left.
  apply Rmult_le_reg_r with (get_norm delta); [exact Hpos|].
  unfold Rdiv. rewrite Rmult_assoc, Rinv_l by lra. lra.
Qed.

(** A wrapper that was constructed has a non-negative noise multiplier and
    positive clipping norm and number of sampled clients. *)
Lemma init_validates (nm C : R) (n : Z) (self : DPStrategyWrapperServerSideFixedClipping.t) :
  DPStrategyWrapperServerSideFixedClipping.__init__ nm C n = Ok self ->
  0 <= DPStrategyWrapperServerSideFixedClipping.noise_multiplier self /\
  0 < DPStrategyWrapperServerSideFixedClipping.clipping_norm self /\
  (0 < DPStrategyWrapperServerSideFixedClipping.num_sampled_clients self)%Z.
Proof.
  unfold DPStrategyWrapperServerSideFixedClipping.__init__.
  destruct (Rlt_dec nm 0) as [|Hnm]; [discriminate|].
  destruct (Rle_dec C 0) as [|HC]; [discriminate|].
  destruct (Z.leb n 0) eqn:Hn; [discriminate|].
  intros [= <-]. simpl. apply Z.leb_gt in Hn. repeat split; [lra|lra|lia].
Qed.

End NormFacts.

Section WrapperFacts.
Variable ClientProxy : Type.
Variable parameters_to_ndarrays : Parameters.t -> NDArrays.
Variable ndarrays_to_parameters : NDArrays -> Parameters.t.
Variable NoiseRng : Type.
Variable add_noise_to_params : Parameters.t -> R -> NoiseRng -> Parameters.t * NoiseRng.
Variable strategy_aggregate_fit :
  Z -> DPStrategyWrapperServerSideFixedClipping.Results ClientProxy ->
  list (DPStrategyWrapperServerSideFixedClipping.Failure ClientProxy) ->
  option Parameters.t * DPStrategyWrapperServerSideFixedClipping.Metrics.

Import DPStrategyWrapperServerSideFixedClipping.

#[local] Abbreviation clip_updates :=
  (DPStrategyWrapperServerSideFixedClipping.clip_updates DifferentialPrivacy.clip_inputs).
#[local] Abbreviation sanitized_clients_params :=
  (DPStrategyWrapperServerSideFixedClipping.sanitized_clients_params
     ClientProxy parameters_to_ndarrays DifferentialPrivacy.clip_inputs).
#[local] Abbreviation write_back :=
  (DPStrategyWrapperServerSideFixedClipping.write_back ClientProxy ndarrays_to_parameters).
#[local] Abbreviation aggregate_fit :=
  (DPStrategyWrapperServerSideFixedClipping.aggregate_fit ClientProxy
     parameters_to_ndarrays ndarrays_to_parameters NoiseRng add_noise_to_params
     DifferentialPrivacy.clip_inputs strategy_aggregate_fit).
#[local] Abbreviation add_noise :=
  (DPStrategyWrapperServerSideFixedClipping.add_noise NoiseRng add_noise_to_params).
#[local] Abbreviation client_params r :=
  (parameters_to_ndarrays (FitRes.parameters (snd r))).

Lemma broadcast_same_length (f : R -> R -> R) (x y : NDArray) :
  length x = length y -> Np1.broadcast f x y = Ok (zip_with f x y).
Proof.
  intros E. unfold Np1.broadcast. now rewrite E, Nat.eqb_refl.
Qed.

Lemma compute_model_update_same_shape (client current : NDArrays) :
  same_shape client current ->
  compute_model_update client current = Ok (DPSpec.update client current).
Proof.
  induction 1 as [|x y client current Hxy Hrest IH]; [reflexivity|].
  simpl. unfold Np1.subtract. rewrite broadcast_same_length by exact Hxy.
  simpl. rewrite IH. reflexivity.
Qed.

Lemma compute_model_updates_same_shape (self : t) (clients : list NDArrays) :
  Forall (fun c => same_shape c (current_round_params self)) clients ->
  _compute_model_updates self clients =
    Ok (map (fun c => DPSpec.update c (current_round_params self)) clients).
Proof.
  induction 1 as [|c clients Hc Hrest IH]; [reflexivity|].
  simpl. rewrite compute_model_update_same_shape by exact Hc.
  simpl. rewrite IH. reflexivity.
Qed.

Lemma same_shape_update (client current : NDArrays) :
  same_shape client current -> same_shape (DPSpec.update client current) current.
Proof.
  induction 1 as [|x y client current Hxy Hrest IH]; constructor; [|exact IH].
  rewrite length_zip_with. lia.
Qed.

Lemma same_shape_scale (s : R) (delta current : NDArrays) :
  same_shape delta current -> same_shape (DifferentialPrivacy.scale s delta) current.
Proof.
  induction 1 as [|x y delta current Hxy Hrest IH]; constructor; [|exact IH].
  now rewrite length_map.
Qed.

Lemma same_shape_length (a b : NDArrays) : same_shape a b -> length a = length b.
Proof. apply Forall2_length. Qed.

(** The loop of [_update_clients_params] has replaced the layers below [i]
    when it reaches index [i]; it ends with every layer replaced. *)
Lemma update_clients_params_loop_spec (self : t) (client_update : NDArrays) :
  same_shape client_update (current_round_params self) ->
  forall (m i : nat) (client_param : NDArrays),
    i + m = length (current_round_params self) ->
    length client_param = length (current_round_params self) ->
    update_clients_params_loop self (seq i m) client_param client_update =
      Ok (take i client_param ++
          drop i (zip_with (zip_with Rplus) (current_round_params self) client_update)).
Proof.
  intros Hshape. pose proof (same_shape_length _ _ Hshape) as Hlen.
  induction m as [|m IH]; intros i cp Him Hcp.
  - simpl. rewrite take_ge by lia. rewrite drop_ge; [now rewrite app_nil_r|].
    rewrite length_zip_with. lia.
  - simpl.
    destruct (lookup_lt_is_Some_2 (current_round_params self) i) as [y Hy]; [lia|].
    destruct (lookup_lt_is_Some_2 client_update i) as [u Hu]; [lia|].
    assert (Hyu : length u = length y)
      by exact (Forall2_lookup_lr _ _ _ _ _ _ Hshape Hu Hy).
    unfold list_getitem. rewrite Hy, Hu. simpl.
    unfold Np1.add. rewrite broadcast_same_length by lia. simpl.
    unfold list_setitem.
    assert (Hlt : Nat.ltb i (length cp) = true) by (apply Nat.ltb_lt; lia).
    rewrite Hlt. simpl.
    rewrite IH by (rewrite ?length_insert; lia).
    f_equal.
    assert (Hz : zip_with (zip_with Rplus) (current_round_params self) client_update !! i
                 = Some (zip_with Rplus y u)).
    { rewrite lookup_zip_with, Hy, Hu. reflexivity. }
    rewrite (drop_S _ _ _ Hz).
    rewrite (take_S_r _ i (zip_with Rplus y u))
      by (apply list_lookup_insert_eq; lia).
    rewrite take_insert_ge by lia.
    now rewrite <- app_assoc.
Qed.

Lemma update_clients_params_same_shape (self : t) (client_param client_update : NDArrays) :
  same_shape client_update (current_round_params self) ->
  length client_param = length (current_round_params self) ->
  _update_clients_params self client_param client_update =
    Ok (zip_with (zip_with Rplus) (current_round_params self) client_update).
Proof.
  intros Hshape Hlen. unfold _update_clients_params.
  now rewrite (update_clients_params_loop_spec self client_update Hshape _ 0 client_param).
Qed.

Lemma clip_updates_spec (self : t) (updates : list NDArrays) :
  clip_updates self updates = Ok (map (DPSpec.clip (clipping_norm self)) updates).
Proof.
  induction updates as [|u updates IH]; [reflexivity|].
  simpl. rewrite IH. reflexivity.
Qed.

(** Adding back updates that were transformed by a shape-preserving [g] *)
Lemma update_all_clients_params_transformed (self : t) (g : NDArrays -> NDArrays)
    (clients : list NDArrays) :
  (forall d, same_shape d (current_round_params self) ->
             same_shape (g d) (current_round_params self)) ->
  Forall (fun c => same_shape c (current_round_params self)) clients ->
  update_all_clients_params self clients
      (map g (map (fun c => DPSpec.update c (current_round_params self)) clients)) =
    Ok (map (fun c => zip_with (zip_with Rplus) (current_round_params self)
                        (g (DPSpec.update c (current_round_params self))))
            clients).
Proof.
  intros Hg.
  induction 1 as [|c clients Hc Hrest IH]; [reflexivity|].
  cbn [map update_all_clients_params].
  rewrite update_clients_params_same_shape.
  - rewrite IH. reflexivity.
  - apply Hg, same_shape_update, Hc.
  - apply same_shape_length, Hc.
Qed.

Lemma update_all_clients_params_same_shape (self : t) (clients : list NDArrays) :
  Forall (fun c => same_shape c (current_round_params self)) clients ->
  update_all_clients_params self clients
      (map (DPSpec.clip (clipping_norm self))
         (map (fun c => DPSpec.update c (current_round_params self)) clients)) =
    Ok (map (DPSpec.sanitized (clipping_norm self) (current_round_params self)) clients).
Proof.
  intros Hshape.
  apply (update_all_clients_params_transformed self (DPSpec.clip (clipping_norm self))).
  - intros d. apply same_shape_scale.
  - exact Hshape.
Qed.

(** When every client sends parameters of the model's shape, the parameters
    written back are the specification's sanitized ones. *)
Lemma sanitized_clients_params_same_shape (self : t) (results : Results ClientProxy) :
  Forall (fun r => same_shape (client_params r) (current_round_params self)) results ->
  sanitized_clients_params self results =
    Ok (map (fun r => DPSpec.sanitized (clipping_norm self) (current_round_params self)
                        (client_params r))
            results).
Proof.
  intros Hshape.
  unfold DPStrategyWrapperServerSideFixedClipping.sanitized_clients_params.
  assert (Hshape' : Forall (fun c => same_shape c (current_round_params self))
                      (map (fun r => client_params r) results)).
  { apply Forall_fmap. exact Hshape. }
  rewrite (compute_model_updates_same_shape self _ Hshape'). simpl.
  rewrite clip_updates_spec. simpl.
  rewrite (update_all_clients_params_same_shape self _ Hshape').
  now rewrite map_map.
Qed.

Lemma write_back_map (results : Results ClientProxy)
    (f : ClientProxy * FitRes.t -> NDArrays) :
  write_back results (map f results) =
    map (fun r => (fst r, FitRes.set_parameters (snd r) (ndarrays_to_parameters (f r))))
        results.
Proof.
  induction results as [|[proxy fit_res] results IH]; [reflexivity|].
  simpl. now rewrite IH.
Qed.

Lemma compute_model_updates_length (self : t) (clients updates : list NDArrays) :
  _compute_model_updates self clients = Ok updates -> length updates = length clients.
Proof.
  revert updates. induction clients as [|c clients IH]; intros updates; simpl.
  - now intros [= <-].
  - destruct (compute_model_update c _) as [u|e]; simpl; [|discriminate].
    destruct (_compute_model_updates self clients) as [us|e]; simpl; [|discriminate].
    intros [= <-]. simpl. f_equal. now apply IH.
Qed.

Lemma update_all_clients_params_length (self : t) (clients updates out : list NDArrays) :
  update_all_clients_params self clients updates = Ok out -> length out = length clients.
Proof.
  revert updates out. induction clients as [|c clients IH]; intros updates out; simpl.
  - now intros [= <-].
  - destruct updates as [|u updates]; [now intros [= <-]|].
    destruct (_update_clients_params self c u) as [c'|e]; simpl; [|discriminate].
    destruct (update_all_clients_params self clients updates) as [rest|e] eqn:E;
      simpl; [|discriminate].
    intros [= <-]. simpl. f_equal. now apply (IH updates).
Qed.

Lemma sanitized_clients_params_length (self : t) (results : Results ClientProxy)
    (clients_params : list NDArrays) :
  sanitized_clients_params self results = Ok clients_params ->
  length clients_params = length results.
Proof.
  unfold DPStrategyWrapperServerSideFixedClipping.sanitized_clients_params.
  destruct (_compute_model_updates self _) as [updates|e]; simpl; [|discriminate].
  destruct (clip_updates self updates) as [clipped|e]; simpl; [|discriminate].
  intros H. apply update_all_clients_params_length in H.
  now rewrite length_map in H.
Qed.



Lemma add_noise_none (self : t) (metrics : Metrics) (rng : NoiseRng) :
  add_noise self (None, metrics) rng = ((None, metrics), rng).
Proof. reflexivity. Qed.

Lemma aggregate_fit_sanitized (self : t) (server_round : Z)
    (results : Results ClientProxy) (rng : NoiseRng) (clients_params : list NDArrays) :
  sanitized_clients_params self results = Ok clients_params ->
  aggregate_fit self server_round results [] rng =
    let handed := write_back results clients_params in
    let noisy := add_noise self (strategy_aggregate_fit server_round handed []) rng in
    (Ok (fst noisy), handed, snd noisy).
Proof.
  intros H. unfold DPStrategyWrapperServerSideFixedClipping.aggregate_fit.
  rewrite H. simpl. now destruct (add_noise _ _ _).
Qed.


(** A call that raises, or that is given failures, leaves the results as
    they were. *)
Lemma aggregate_fit_frame (self : t) (server_round : Z) (results : Results ClientProxy)
    (failures : list (Failure ClientProxy)) (rng : NoiseRng) :
  failures <> [] \/ is_raise (sanitized_clients_params self results) ->
  snd (fst (aggregate_fit self server_round results failures rng)) = results.
Proof.
  unfold DPStrategyWrapperServerSideFixedClipping.aggregate_fit.
  destruct failures as [|failure failures]; [|reflexivity].
  intros [Hne | Hraise]; [congruence|].
  now destruct (sanitized_clients_params self results).
Qed.

End WrapperFacts.

(** The clipping reaches the parameters only through what [clip_inputs]
    does to its argument: the loop drops the list that [clip_inputs]
    returns.  With a [clip_inputs] that leaves its argument as it is, the
    parameters written back are the clients' own. *)
Section ClipInputsEffect.
Variable ClientProxy : Type.
Variable parameters_to_ndarrays : Parameters.t -> NDArrays.
Variable clip_inputs : NDArrays -> R -> result (NDArrays * NDArrays).

Import DPStrategyWrapperServerSideFixedClipping.



(** The clipping loop leaves every update as [clip_inputs] leaves its
    argument, when [clip_inputs] returns on each of them. *)
Lemma clip_updates_left (self : t) (updates : list NDArrays) :
  Forall (fun u => exists clipped, clip_inputs u (clipping_norm self) = Ok clipped)
         updates ->
  clip_updates clip_inputs self updates =
    Ok (map (fun u => left_by clip_inputs u (clipping_norm self)) updates).
Proof.
  induction 1 as [|u updates [[returned after] Hu] _ IH]; [reflexivity|].
  simpl. unfold left_by. rewrite Hu, IH. reflexivity.
Qed.





End ClipInputsEffect.

Section WrapperExample.
Import DPStrategyWrapperServerSideFixedClipping.

Lemma example_shapes :
  Forall (fun r => same_shape
                     (DPExample.parameters_to_ndarrays (FitRes.parameters (snd r)))
                     (current_round_params DPExample.wrapper))
         DPExample.results.
Proof. repeat constructor. Qed.

(** Scenario S3: the update [[1.0]] is clipped to [[0.5]], and the
    sanitized parameters are [[0.5]]. *)
Example scenario_s3 :
  sanitized_clients_params string DPExample.parameters_to_ndarrays
    DifferentialPrivacy.clip_inputs DPExample.wrapper DPExample.results =
  Ok [[[(1 / 2)%R]]].
Proof.
  rewrite (sanitized_clients_params_same_shape string _ _ _ example_shapes).
  cbn. unfold DPSpec.sanitized, DPSpec.clip, DPSpec.update,
    DifferentialPrivacy.scale, DifferentialPrivacy.get_norm. cbn.
  assert (Hnorm : sqrt ((1 - 0) * (1 - 0) + 0) = 1%R).
  { replace ((1 - 0) * (1 - 0) + 0)%R with 1%R by lra. apply sqrt_1. }
  rewrite Hnorm. repeat f_equal.
  unfold Rmin. destruct (Rle_dec 1 (1 / 2 / 1)); lra.
Qed.


(** Without failures the same call does delegate. *)
Example delegation_without_failures :
  delegates_to_inner_strategy DPExample.results [] 0.
Proof.
  exists (write_back string DPExample.ndarrays_to_parameters DPExample.results
            [[[(1 / 2)%R]]]).
  split; [reflexivity|].
  unfold DPExample.aggregate_fit.
  now rewrite (aggregate_fit_sanitized string _ _ nat _ _ _ _ _ _ _ scenario_s3).
Qed.


End WrapperExample.

(** * Further properties of the code *)

(** ** Dictionaries *)

Section PyDictMoreFacts.
Context {K V : Type} `{EqDecision K}.
Import PyDict.

Lemma getitem_setitem_eq (k : K) (v : V) (d : dict K V) :
  getitem k (setitem k v d) = Ok v.
Proof.
  induction d as [|[k' v'] d IH]; simpl.
  - destruct (decide (k = k)); [reflexivity|congruence].
  - destruct (decide (k = k')) as [->|Hne]; simpl.
    + destruct (decide (k' = k')); [reflexivity|congruence].
    + destruct (decide (k = k')); [congruence|exact IH].
Qed.

Lemma getitem_setitem_ne (k k' : K) (v : V) (d : dict K V) :
  k <> k' -> getitem k' (setitem k v d) = getitem k' d.
Proof.
  intros Hne. induction d as [|[k0 v0] d IH]; simpl.
  - destruct (decide (k' = k)); [congruence|reflexivity].
  - destruct (decide (k = k0)) as [->|Hk]; simpl.
    + destruct (decide (k' = k0)); [congruence|reflexivity].
    + destruct (decide (k' = k0)); [reflexivity|exact IH].
Qed.

Lemma getitem_missing (k : K) (d : dict K V) :
  k ∉ keys d -> getitem k d = Raise KeyError.
Proof.
  induction d as [|[k' v'] d IH]; simpl; intros Hk; [reflexivity|].
  destruct (decide (k = k')) as [->|Hne].
  - exfalso. apply Hk. apply list_elem_of_here.
  - apply IH. intros Hin. apply Hk. now apply list_elem_of_further.
Qed.

Lemma getitem_present (k : K) (d : dict K V) :
  k ∈ keys d -> exists v, getitem k d = Ok v /\ (k, v) ∈ d.
Proof.
  induction d as [|[k' v'] d IH]; simpl; intros Hk.
  - now apply elem_of_nil in Hk.
  - destruct (decide (k = k')) as [->|Hne].
    + exists v'. split; [reflexivity|apply list_elem_of_here].
    + apply elem_of_cons in Hk as [Hk|Hk]; [congruence|].
      destruct (IH Hk) as (v & Hv & Hin). exists v.
      split; [exact Hv|now apply list_elem_of_further].
Qed.

Lemma delitem_missing (k : K) (d : dict K V) :
  k ∉ keys d -> delitem k d = Raise KeyError.
Proof.
  induction d as [|[k' v'] d IH]; simpl; intros Hk; [reflexivity|].
  destruct (decide (k = k')) as [->|Hne].
  - exfalso. apply Hk. apply list_elem_of_here.
  - rewrite IH; [reflexivity|]. intros Hin. apply Hk. now apply list_elem_of_further.
Qed.

(** Deleting a present key removes its entry and keeps the others in
    order. *)
Lemma delitem_present (k : K) (d : dict K V) :
  k ∈ keys d ->
  exists pre v suf,
    d = pre ++ (k, v) :: suf /\ (k ∉ keys pre) /\ delitem k d = Ok (pre ++ suf).
Proof.
  induction d as [|[k' v'] d IH]; simpl; intros Hk.
  - now apply elem_of_nil in Hk.
  - destruct (decide (k = k')) as [->|Hne].
    + exists [], v', d. repeat split. apply not_elem_of_nil.
    + apply elem_of_cons in Hk as [Hk|Hk]; [congruence|].
      destruct (IH Hk) as (pre & v & suf & -> & Hpre & Hdel).
      exists ((k', v') :: pre), v, suf. rewrite Hdel. repeat split.
      simpl. intros Hin. apply elem_of_cons in Hin as [Hin|Hin]; [congruence|].
      now apply Hpre.
Qed.

Lemma keys_setitem_present (k : K) (v : V) (d : dict K V) :
  k ∈ keys d -> keys (setitem k v d) = keys d.
Proof.
  induction d as [|[k' v'] d IH]; simpl; intros Hk.
  - now apply elem_of_nil in Hk.
  - destruct (decide (k = k')) as [->|Hne]; [reflexivity|].
    simpl. f_equal. apply IH.
    apply elem_of_cons in Hk as [Hk|Hk]; [congruence|exact Hk].
Qed.

Lemma keys_setitem_absent (k : K) (v : V) (d : dict K V) :
  k ∉ keys d -> keys (setitem k v d) = keys d ++ [k].
Proof.
  intros Hk. rewrite setitem_fresh.
  - unfold keys. now rewrite map_app.
  - intros Hin. apply Hk. now apply list_elem_of_In.
Qed.

Lemma setitem_wf (k : K) (v : V) (d : dict K V) :
  dict_wf d -> dict_wf (setitem k v d).
Proof.
  unfold dict_wf. intros Hwf.
  destruct (decide (k ∈ keys d)) as [Hin|Hout].
  - now rewrite keys_setitem_present.
  - rewrite keys_setitem_absent by exact Hout.
    apply NoDup_app. split; [exact Hwf|]. split; [|apply NoDup_singleton].
    intros x Hx Hx'. apply list_elem_of_singleton in Hx'. now subst.
Qed.

Lemma setitem_entries (k : K) (v : V) (d : dict K V) (kv : K * V) :
  kv ∈ setitem k v d -> kv ∈ d \/ kv = (k, v).
Proof.
  induction d as [|[k' v'] d IH]; simpl; intros Hin.
  - apply list_elem_of_singleton in Hin. now right.
  - destruct (decide (k = k')) as [->|Hne].
    + apply elem_of_cons in Hin as [->|Hin]; [now right|].
      left. now apply list_elem_of_further.
    + apply elem_of_cons in Hin as [->|Hin]; [left; apply list_elem_of_here|].
      destruct (IH Hin) as [H1|H2]; [|now right].
      left. now apply list_elem_of_further.
Qed.

Lemma contains_true (k : K) (d : dict K V) : contains k d = true <-> k ∈ keys d.
Proof.
  unfold contains. split.
  - intros H. destruct (decide (k ∈ keys d)) as [Hin|Hout]; [exact Hin|].
    rewrite getitem_missing in H by exact Hout. discriminate.
  - intros Hin. destruct (getitem_present k d Hin) as (v & -> & _). reflexivity.
Qed.

Lemma length_setitem (k : K) (v : V) (d : dict K V) :
  length (setitem k v d) = if contains k d then length d else S (length d).
Proof.
  rewrite <- !(length_map fst). fold (keys (setitem k v d)) (keys d).
  destruct (contains k d) eqn:E.
  - apply contains_true in E. now rewrite keys_setitem_present.
  - assert (Hout : k ∉ keys d).
    { intros Hin. apply contains_true in Hin. congruence. }
    rewrite keys_setitem_absent by exact Hout. rewrite length_app. simpl. lia.
Qed.

Lemma getitem_app (k : K) (a b : dict K V) :
  getitem k (a ++ b) =
    match getitem k a with
    | Ok v => Ok v
    | Raise _ => getitem k b
    end.
Proof.
  induction a as [|[k' v'] a IH]; simpl; [reflexivity|].
  destruct (decide (k = k')); [reflexivity|exact IH].
Qed.

End PyDictMoreFacts.

Section TypedDictRejected.
Context {K V : Type} `{EqDecision K}.

Lemma setitem_rejected_unchanged_aux (R : TypedDict.t K V) (k : K) (v : V) :
  TypedDict.rejects (TypedDict._check_key_fn R) k \/
  TypedDict.rejects (TypedDict._check_value_fn R) v ->
  exists e : PyExn,
    TypedDict.__setitem__ R k v = (Raise e, R) /\
    (TypedDict._check_key_fn R k = Raise e \/ TypedDict._check_value_fn R v = Raise e).
Proof.
  unfold TypedDict.rejects, TypedDict.__setitem__.
  intros [Hk | Hv].
  - destruct (TypedDict._check_key_fn R k) as [u|e]; [contradiction|].
    exists e. split; auto.
  - destruct (TypedDict._check_key_fn R k) as [u|e].
    + destruct (TypedDict._check_value_fn R v) as [u'|e']; [contradiction|].
      exists e'. split; auto.
    + exists e. split; auto.
Qed.

End TypedDictRejected.

(** ** Further facts about [typeddict.py] *)

Section TypedDictMoreFacts.
Context {K V : Type} `{EqDecision K}.

(** X1: assigning an accepted key and value succeeds; reading the key back
    gives the value, every other key reads as before, the length grows by one
    exactly when the key is new, and the keys keep their order (a new key
    goes last). *)
Theorem setitem_then_getitem (R : TypedDict.t K V) (k : K) (v : V) :
  TypedDict._check_key_fn R k = Ok tt ->
  TypedDict._check_value_fn R v = Ok tt ->
  let R' := snd (TypedDict.__setitem__ R k v) in
  fst (TypedDict.__setitem__ R k v) = Ok tt /\
  TypedDict.__getitem__ R' k = Ok v /\
  (forall k', k' <> k -> TypedDict.__getitem__ R' k' = TypedDict.__getitem__ R k') /\
  TypedDict.__len__ R' =
    (if TypedDict.__contains__ R k then TypedDict.__len__ R
     else S (TypedDict.__len__ R)) /\
  TypedDict.keys R' =
    (if TypedDict.__contains__ R k then TypedDict.keys R
     else TypedDict.keys R ++ [k]).
Proof.
  intros Hk Hv. rewrite (setitem_accepted R k v Hk Hv). simpl.
  unfold TypedDict.__getitem__, TypedDict.__len__, TypedDict.__contains__,
    TypedDict.keys. simpl.
  split; [reflexivity|]. split; [apply getitem_setitem_eq|].
  split; [intros k' Hne; apply getitem_setitem_ne; congruence|].
  split; [apply length_setitem|].
  destruct (PyDict.contains k (TypedDict._data R)) eqn:E.
  - apply keys_setitem_present. now apply contains_true.
  - apply keys_setitem_absent. intros Hin. apply contains_true in Hin. congruence.
Qed.

(** The invariant of a typed dictionary with the checkers [ck] and [cv] *)
Lemma typed_invariant_step (ck : K -> result unit) (cv : V -> result unit)
    (R : TypedDict.t K V) :
  reachable ck cv R ->
  TypedDict._check_key_fn R = ck /\
  TypedDict._check_value_fn R = cv /\
  Forall (fun kv => ck (fst kv) = Ok tt /\ cv (snd kv) = Ok tt) (TypedDict._data R) /\
  PyDict.dict_wf (TypedDict._data R).
Proof.
  assert (Hset : forall R k v,
            (TypedDict._check_key_fn R = ck /\
             TypedDict._check_value_fn R = cv /\
             Forall (fun kv => ck (fst kv) = Ok tt /\ cv (snd kv) = Ok tt)
               (TypedDict._data R) /\
             PyDict.dict_wf (TypedDict._data R)) ->
            let R' := snd (TypedDict.__setitem__ R k v) in
            TypedDict._check_key_fn R' = ck /\
            TypedDict._check_value_fn R' = cv /\
            Forall (fun kv => ck (fst kv) = Ok tt /\ cv (snd kv) = Ok tt)
              (TypedDict._data R') /\
            PyDict.dict_wf (TypedDict._data R')).
  { intros R0 k v (Hck & Hcv & Hall & Hwf). unfold TypedDict.__setitem__.
    destruct (TypedDict._check_key_fn R0 k) as [[]|e] eqn:Ek; simpl; [|auto].
    destruct (TypedDict._check_value_fn R0 v) as [[]|e] eqn:Ev; simpl; [|auto].
    repeat split; auto.
    - apply Forall_forall. intros kv Hin.
      destruct (setitem_entries k v _ kv Hin) as [Hold| ->].
      + rewrite Forall_forall in Hall. exact (Hall kv Hold).
      + simpl. rewrite <- Hck, <- Hcv. auto.
    - now apply setitem_wf. }
  assert (Hdel : forall (d d' : PyDict.dict K V) k,
            PyDict.delitem k d = Ok d' ->
            Forall (fun kv => ck (fst kv) = Ok tt /\ cv (snd kv) = Ok tt) d ->
            PyDict.dict_wf d ->
            Forall (fun kv => ck (fst kv) = Ok tt /\ cv (snd kv) = Ok tt) d' /\
            PyDict.dict_wf d').
  { intros d d' k Hd Hall Hwf.
    destruct (decide (k ∈ PyDict.keys d)) as [Hin|Hout];
      [|rewrite delitem_missing in Hd by exact Hout; discriminate].
    destruct (delitem_present k d Hin) as (pre & v & suf & -> & _ & Hd').
    rewrite Hd' in Hd. injection Hd as <-.
    apply Forall_app in Hall as [Hpre Hsuf]. apply Forall_cons in Hsuf as [_ Hsuf].
    split; [apply Forall_app; auto|].
    unfold PyDict.dict_wf, PyDict.keys in *. rewrite map_app in *. simpl in Hwf.
    apply NoDup_app in Hwf as (Hn1 & Hdis & Hn2).
    apply NoDup_cons in Hn2 as [_ Hn2].
    apply NoDup_app. repeat split; auto.
    intros x Hx Hx'. apply (Hdis x Hx). now apply list_elem_of_further. }
  induction 1 as [|R k v _ IH|R k _ IH|R entries _ IH|R k _ IH|R _ IH].
  - repeat split; [constructor|apply NoDup_nil_2].
  - apply Hset, IH.
  - destruct IH as (Hck & Hcv & Hall & Hwf). unfold TypedDict.__delitem__.
    destruct (PyDict.delitem k (TypedDict._data R)) as [d'|e] eqn:E; simpl; [|auto].
    destruct (Hdel _ _ _ E Hall Hwf). auto.
  - unfold TypedDict.update. generalize (TypedDict.dict_of entries). clear entries.
    intros entries.
    revert R IH. induction entries as [|[k v] entries IHe]; intros R IH; [exact IH|].
    simpl. pose proof (Hset R k v IH) as Hstep.
    destruct (TypedDict.__setitem__ R k v) as [[u|e] R']; simpl in *;
      [apply IHe, Hstep|exact Hstep].
  - destruct IH as (Hck & Hcv & Hall & Hwf). unfold TypedDict.pop.
    destruct (PyDict.getitem k (TypedDict._data R)) as [v|e]; simpl; [|auto].
    destruct (PyDict.delitem k (TypedDict._data R)) as [d'|e] eqn:E; simpl; [|auto].
    destruct (Hdel _ _ _ E Hall Hwf). auto.
  - destruct IH as (Hck & Hcv & _ & _). repeat split; auto; constructor.
Qed.

(** X2: a typed dictionary that was constructed empty and changed only
    through [__setitem__], [__delitem__], [update], [pop] and [clear] holds
    only entries whose key and value its checkers accept, and no key
    twice. *)
Theorem reachable_entries_accepted (ck : K -> result unit) (cv : V -> result unit)
    (R : TypedDict.t K V) :
  reachable ck cv R ->
  Forall (accepted R) (TypedDict._data R) /\ NoDup (TypedDict.keys R).
Proof.
  intros Hreach.
  destruct (typed_invariant_step ck cv R Hreach) as (Hck & Hcv & Hall & Hwf).
  split; [|exact Hwf]. unfold accepted. now rewrite Hck, Hcv.
Qed.

Lemma update_items_stop (R : TypedDict.t K V) (pre post : list (K * V))
    (k : K) (v : V) :
  Forall (accepted R) pre ->
  TypedDict.rejects (TypedDict._check_key_fn R) k \/
  TypedDict.rejects (TypedDict._check_value_fn R) v ->
  exists e : PyExn,
    TypedDict.update_items R (pre ++ (k, v) :: post) =
      (Raise e, TypedDict.with_data R (setitems pre (TypedDict._data R))) /\
    (TypedDict._check_key_fn R k = Raise e \/ TypedDict._check_value_fn R v = Raise e).
Proof.
  revert R. induction pre as [|[k0 v0] pre IH]; intros R Hall Hrej.
  - destruct (setitem_rejected_unchanged_aux R k v Hrej) as (e & Hset & Hwhich).
    exists e. split; [|exact Hwhich]. simpl. rewrite Hset. now destruct R.
  - apply Forall_cons in Hall as [[Hk Hv] Hall]. simpl in Hk, Hv.
    cbn [app TypedDict.update_items]. rewrite (setitem_accepted R k0 v0 Hk Hv).
    apply (IH (TypedDict.with_data R _)); assumption.
Qed.

(** X3: [update] first merges the pairs it is given into one dictionary (a
    repeated key keeps its first position and takes its last value) and
    then assigns the items of that dictionary in order; it is not atomic.
    When the items [pre] before the first rejected item are all accepted,
    [update] raises the checker's error and leaves the record with the items
    of [pre] assigned; the items after the rejected one are not looked
    at. *)
Theorem update_stops_at_first_rejected (R : TypedDict.t K V)
    (entries pre post : list (K * V)) (k : K) (v : V) :
  TypedDict.dict_of entries = pre ++ (k, v) :: post ->
  Forall (accepted R) pre ->
  TypedDict.rejects (TypedDict._check_key_fn R) k \/
  TypedDict.rejects (TypedDict._check_value_fn R) v ->
  exists e : PyExn,
    TypedDict.update R entries =
      (Raise e, TypedDict.with_data R (setitems pre (TypedDict._data R))) /\
    (TypedDict._check_key_fn R k = Raise e \/ TypedDict._check_value_fn R v = Raise e).
Proof.
  intros Hmerged Hall Hrej. unfold TypedDict.update. rewrite Hmerged.
  exact (update_items_stop R pre post k v Hall Hrej).
Qed.

(** X4: on a key that is not there, [__delitem__] and [pop] raise KeyError
    and leave the record as it is.  On a key that is there, both remove its
    entry ([pop] also returns the value that [__getitem__] gives): the key is
    gone afterwards, the length drops by one and every other key reads as
    before. *)
Theorem delitem_and_pop (R : TypedDict.t K V) (k : K) :
  NoDup (TypedDict.keys R) ->
  if TypedDict.__contains__ R k
  then exists v : V,
         TypedDict.__getitem__ R k = Ok v /\
         fst (TypedDict.pop R k) = Ok v /\
         fst (TypedDict.__delitem__ R k) = Ok tt /\
         snd (TypedDict.pop R k) = snd (TypedDict.__delitem__ R k) /\
         let R' := snd (TypedDict.__delitem__ R k) in
         TypedDict.__contains__ R' k = false /\
         TypedDict.__len__ R = S (TypedDict.__len__ R') /\
         forall k', k' <> k -> TypedDict.__getitem__ R' k' = TypedDict.__getitem__ R k'
  else TypedDict.__delitem__ R k = (Raise KeyError, R) /\
       TypedDict.pop R k = (Raise KeyError, R).
Proof.
  unfold TypedDict.keys, TypedDict.__contains__, TypedDict.__getitem__,
    TypedDict.pop, TypedDict.__delitem__, TypedDict.__len__.
  intros Hwf. destruct (PyDict.contains k (TypedDict._data R)) eqn:E.
  - apply contains_true in E.
    destruct (delitem_present k _ E) as (pre & v & suf & Hd & Hpre & Hdel).
    rewrite Hdel. rewrite Hd in *. clear Hd.
    assert (Hget : PyDict.getitem k (pre ++ (k, v) :: suf) = Ok v).
    { apply getitem_app_fresh. intros Hin. apply Hpre. now apply list_elem_of_In. }
    rewrite Hget. exists v. simpl. repeat split.
    + destruct (PyDict.contains k (pre ++ suf)) eqn:E'; [|reflexivity].
      apply contains_true in E'. exfalso.
      unfold PyDict.keys in *. rewrite map_app in *. simpl in Hwf.
      apply NoDup_app in Hwf as (_ & Hdis & Hn).
      apply NoDup_cons in Hn as [Hsuf _].
      apply elem_of_app in E' as [E'|E']; [now apply Hpre|now apply Hsuf].
    + rewrite !length_app. simpl. lia.
    + intros k' Hne. rewrite !getitem_app. simpl.
      destruct (PyDict.getitem k' pre); [reflexivity|].
      destruct (decide (k' = k)); [congruence|reflexivity].
  - assert (Hout : k ∉ PyDict.keys (TypedDict._data R)).
    { intros Hin. apply contains_true in Hin. congruence. }
    rewrite delitem_missing, getitem_missing by exact Hout. split; reflexivity.
Qed.

End TypedDictMoreFacts.

Lemma setitem_then_getitem_witness :
  let R' := snd (TypedDict.__setitem__ nonneg_record "momentum" 9%Z) in
  fst (TypedDict.__setitem__ nonneg_record "momentum" 9%Z) = Ok tt /\
  TypedDict.__getitem__ R' "momentum" = Ok 9%Z /\
  (forall k', k' <> "momentum" ->
     TypedDict.__getitem__ R' k' = TypedDict.__getitem__ nonneg_record k') /\
  TypedDict.__len__ R' =
    (if TypedDict.__contains__ nonneg_record "momentum"
     then TypedDict.__len__ nonneg_record
     else S (TypedDict.__len__ nonneg_record)) /\
  TypedDict.keys R' =
    (if TypedDict.__contains__ nonneg_record "momentum"
     then TypedDict.keys nonneg_record
     else TypedDict.keys nonneg_record ++ ["momentum"]).
Proof.
  apply (setitem_then_getitem nonneg_record "momentum" 9%Z); reflexivity.
Defined.

Lemma reachable_entries_accepted_witness :
  let R := snd (TypedDict.__setitem__
                  (TypedDict.__init__ (fun _ : string => Ok tt)
                     (fun v => if Z.ltb v 0 then Raise TypeError else Ok tt))
                  "lr" 3%Z) in
  Forall (accepted R) (TypedDict._data R) /\ NoDup (TypedDict.keys R).
Proof.
  apply (reachable_entries_accepted (fun _ : string => Ok tt)
           (fun v => if Z.ltb v 0 then Raise TypeError else Ok tt)).
  apply reachable_setitem, reachable_init.
Defined.

Lemma update_stops_at_first_rejected_witness :
  exists e : PyExn,
    TypedDict.update nonneg_record
      [("lr", 5%Z); ("epochs", 2%Z); ("decay", (-1)%Z); ("seed", 1%Z); ("lr", 7%Z)] =
      (Raise e,
       TypedDict.with_data nonneg_record
         (setitems [("lr", 7%Z); ("epochs", 2%Z)] (TypedDict._data nonneg_record))) /\
    (TypedDict._check_key_fn nonneg_record "decay" = Raise e \/
     TypedDict._check_value_fn nonneg_record (-1)%Z = Raise e).
Proof.
  apply (update_stops_at_first_rejected nonneg_record
           [("lr", 5%Z); ("epochs", 2%Z); ("decay", (-1)%Z); ("seed", 1%Z); ("lr", 7%Z)]
           [("lr", 7%Z); ("epochs", 2%Z)] [("seed", 1%Z)] "decay" (-1)%Z).
  - reflexivity.
  - repeat constructor.
  - right. exact I.
Defined.

Lemma delitem_and_pop_witness :
  exists v : Z,
    TypedDict.__getitem__ nonneg_record "lr" = Ok v /\
    fst (TypedDict.pop nonneg_record "lr") = Ok v /\
    fst (TypedDict.__delitem__ nonneg_record "lr") = Ok tt /\
    snd (TypedDict.pop nonneg_record "lr") = snd (TypedDict.__delitem__ nonneg_record "lr") /\
    let R' := snd (TypedDict.__delitem__ nonneg_record "lr") in
    TypedDict.__contains__ R' "lr" = false /\
    TypedDict.__len__ nonneg_record = S (TypedDict.__len__ R') /\
    forall k', k' <> "lr" ->
      TypedDict.__getitem__ R' k' = TypedDict.__getitem__ nonneg_record k'.
Proof.
  exact (delitem_and_pop nonneg_record "lr" (NoDup_singleton "lr")).
Defined.


(** ** Further facts about [recordset_utils.py] *)

Section RecordsetUtilsMoreFacts.
Import RecordsetUtils.

Lemma indexed_arrays_wf (tt : string) (ts : list bytes) :
  PyDict.dict_wf (indexed_arrays tt 0 ts).
Proof.
  unfold PyDict.dict_wf. rewrite indexed_arrays_keys.
  apply NoDup_fmap_2; [intros n m; apply str_inj|apply NoDup_seq].
Qed.

(** X5: [parameters_to_parametersrecord] always returns.  The record has one
    Array per tensor, under the keys "0", "1", ... in this order (all
    distinct), holding the tensors' bytes in order, each with the
    Parameters' tensor_type as stype and empty dtype and shape.  The input's
    list of tensors is emptied unless [keep_input]; its tensor_type stays. *)
Theorem parameters_to_parametersrecord_result (parameters : Parameters.t)
    (keep_input : bool) :
  exists (p_record : ParametersRecord.t) (after : Parameters.t),
    parameters_to_parametersrecord parameters keep_input = Ok (p_record, after) /\
    PyDict.keys (ParametersRecord.data p_record) =
      map str (seq 0 (length (Parameters.tensors parameters))) /\
    NoDup (PyDict.keys (ParametersRecord.data p_record)) /\
    blobs p_record = Parameters.tensors parameters /\
    Forall (fun a => Array.stype a = Parameters.tensor_type parameters /\
                     Array.dtype a = "" /\ Array.shape a = [])
           (PyDict.values (ParametersRecord.data p_record)) /\
    Parameters.tensors after =
      (if keep_input then Parameters.tensors parameters else []) /\
    Parameters.tensor_type after = Parameters.tensor_type parameters.
Proof.
  rewrite parameters_to_parametersrecord_spec. do 2 eexists.
  split; [reflexivity|]. simpl.
  split; [apply indexed_arrays_keys|].
  split; [apply indexed_arrays_wf|].
  split; [apply indexed_arrays_blobs|].
  split; [|split; reflexivity].
  eapply Forall_impl; [apply indexed_arrays_meta|].
  intros a (H1 & H2 & H3). auto.
Qed.

(** X6: converting a Parameters object to a record and the record back
    always succeeds and returns the same tensors in the same order; the
    tensor_type is not recovered, it comes back empty. *)
Theorem parameters_roundtrip (parameters : Parameters.t) (keep1 keep2 : bool) :
  exists (p_record : ParametersRecord.t) (after : Parameters.t)
         (back : Parameters.t) (p_record_after : ParametersRecord.t),
    parameters_to_parametersrecord parameters keep1 = Ok (p_record, after) /\
    parametersrecord_to_parameters p_record keep2 = Ok (back, p_record_after) /\
    Parameters.tensors back = Parameters.tensors parameters /\
    Parameters.tensor_type back = "".
Proof.
  rewrite parameters_to_parametersrecord_spec.
  pose proof (parametersrecord_to_parameters_spec
                (ParametersRecord.mk
                   (indexed_arrays (Parameters.tensor_type parameters) 0
                      (Parameters.tensors parameters)))
                keep2 (indexed_arrays_wf _ _)) as Hback.
  do 4 eexists. split; [reflexivity|]. split; [exact Hback|]. simpl.
  split; [apply indexed_arrays_blobs|reflexivity].
Qed.

(** X7: with the default [keep_input = False], [parametersrecord_to_parameters]
    empties the record it converts, so converting the same record a second
    time returns no tensors; with [keep_input = True] the record is left
    as it was. *)
Theorem conversion_drains_record (P : ParametersRecord.t) :
  PyDict.dict_wf (ParametersRecord.data P) ->
  exists (parameters : Parameters.t) (P1 : ParametersRecord.t),
    parametersrecord_to_parameters P false = Ok (parameters, P1) /\
    Parameters.tensors parameters = blobs P /\
    ParametersRecord.data P1 = [] /\
    parametersrecord_to_parameters P1 false = Ok (Parameters.mk [] "", P1) /\
    parametersrecord_to_parameters P true = Ok (parameters, P).
Proof.
  intros Hwf. rewrite !(parametersrecord_to_parameters_spec P _ Hwf).
  do 2 eexists. repeat split.
Qed.

Lemma conversion_drains_record_witness :
  exists (parameters : Parameters.t) (P1 : ParametersRecord.t),
    parametersrecord_to_parameters one_layer_record false = Ok (parameters, P1) /\
    Parameters.tensors parameters = blobs one_layer_record /\
    ParametersRecord.data P1 = [] /\
    parametersrecord_to_parameters P1 false = Ok (Parameters.mk [] "", P1) /\
    parametersrecord_to_parameters one_layer_record true = Ok (parameters, one_layer_record).
Proof.
  apply (conversion_drains_record one_layer_record). apply NoDup_singleton.
Defined.

End RecordsetUtilsMoreFacts.

(** ** Further facts about [vce_api.py] *)

Section VceSetupFacts.
Variable State : Type.
Variable create_node : State -> Z * State.

#[local] Abbreviation register_loop := (VceSetup._register_nodes_loop State create_node).
#[local] Abbreviation created := (VceSetup.created_node_ids State create_node).

Lemma register_nodes_loop_lookup (m : nat) :
  forall (s : nat) (state : State) (acc : gmap Z Z) (node_id : Z),
    NoDup (created m state) ->
    fst (register_loop (seq s m) state acc) !! node_id =
      match list_find (fun x => x = node_id) (created m state) with
      | Some (j, _) => Some (Z.of_nat (s + j))
      | None => acc !! node_id
      end.
Proof.
  induction m as [|m IH]; intros s state acc node_id Hnd; [reflexivity|].
  simpl in *. destruct (create_node state) as [nid state'] eqn:E.
  apply NoDup_cons in Hnd as [Hfresh Hnd].
  rewrite IH by exact Hnd. simpl.
  destruct (decide (nid = node_id)) as [->|Hne].
  - destruct (list_find (fun x => x = node_id) (created m state')) as [[j x]|] eqn:F.
    + apply list_find_Some in F as (Hj & -> & _).
      exfalso. apply Hfresh. eapply list_elem_of_lookup_2, Hj.
    + simpl. rewrite lookup_insert_eq. do 2 f_equal. lia.
  - destruct (list_find (fun x => x = node_id) (created m state')) as [[j x]|] eqn:F;
      simpl.
    + do 2 f_equal. lia.
    + now rewrite lookup_insert_ne.
Qed.

(** X8: when the node ids that [create_node] hands out are pairwise
    distinct, [_register_nodes] maps the node created by the [i]-th call to
    the partition index [i] and maps nothing else: the partition indices are
    0, ..., num_nodes - 1, each given to one node. *)
Theorem register_nodes_assigns_creation_order (num_nodes : nat) (state : State) :
  NoDup (created num_nodes state) ->
  let nodes_mapping := fst (VceSetup._register_nodes State create_node num_nodes state) in
  forall (node_id partition : Z),
    nodes_mapping !! node_id = Some partition <->
    exists i : nat,
      created num_nodes state !! i = Some node_id /\ partition = Z.of_nat i.
Proof.
  intros Hnd nodes_mapping node_id partition. subst nodes_mapping.
  unfold VceSetup._register_nodes.
  rewrite (register_nodes_loop_lookup num_nodes 0 state ∅ node_id Hnd).
  destruct (list_find (fun x => x = node_id) (created num_nodes state))
    as [[j x]|] eqn:F.
  - apply list_find_Some in F as (Hj & -> & _). simpl. split.
    + intros [= <-]. now exists j.
    + intros (i & Hi & ->). f_equal. f_equal.
      apply (NoDup_lookup _ _ _ _ Hnd Hj Hi).
  - rewrite lookup_empty. split; [discriminate|].
    intros (i & Hi & _). exfalso.
    rewrite list_find_None in F. rewrite Forall_forall in F.
    apply (F node_id); [|reflexivity]. eapply list_elem_of_lookup_2, Hi.
Qed.

End VceSetupFacts.

Lemma register_nodes_assigns_creation_order_witness :
  fst (VceSetup._register_nodes Z VceSetupExample.create_node 3 0%Z) !! 101%Z =
    Some 1%Z <->
  exists i : nat,
    VceSetup.created_node_ids Z VceSetupExample.create_node 3 0%Z !! i = Some 101%Z /\
    1%Z = Z.of_nat i.
Proof.
  apply (register_nodes_assigns_creation_order Z VceSetupExample.create_node 3 0%Z).
  apply (bool_decide_unpack _). vm_compute. exact I.
Defined.

Section VceApiMoreFacts.
Variables Payload RecordSet : Type.
Variable empty_recordset : RecordSet.
Variable recordset_from_proto : Payload -> RecordSet.
Variable message_to_taskres : Message.t RecordSet -> TaskRes.t Payload.
Variable configure_task_res :
  TaskRes.t Payload -> TaskIns.t Payload -> Node.t -> TaskRes.t Payload.
Variable actor_run :
  VceApi.Job RecordSet -> result (Message.t RecordSet * RecordSet).
Variable nodes_mapping : VceApi.NodeToPartitionMapping.

#[local] Abbreviation World := (VceApi.World Payload RecordSet).
#[local] Abbreviation process_task :=
  (VceApi.process_task Payload RecordSet empty_recordset recordset_from_proto
     message_to_taskres configure_task_res actor_run nodes_mapping).
#[local] Abbreviation worker :=
  (VceApi.worker Payload RecordSet empty_recordset recordset_from_proto
     message_to_taskres configure_task_res actor_run nodes_mapping).
#[local] Abbreviation taskins_to_message :=
  (VceApi.taskins_to_message Payload RecordSet recordset_from_proto).
#[local] Abbreviation pool := (VceApi.pool Payload RecordSet).
#[local] Abbreviation node_states := (VceApi.node_states Payload RecordSet).
#[local] Abbreviation task_res_store := (VceApi.task_res_store Payload RecordSet).
#[local] Abbreviation log := (VceApi.log Payload RecordSet).
#[local] Abbreviation consumer_id task_ins :=
  (Node.node_id (Task.consumer (TaskIns.task task_ins))).

#[local] Abbreviation context_for := (VceJob.context_for empty_recordset).
#[local] Abbreviation job_for := (VceJob.job_for empty_recordset recordset_from_proto).

Ltac unfold_task :=
  unfold VceApi.process_task, VceApi.bind, VceApi.get_pool, VceApi.set_pool,
    VceApi.assert_, VceApi.node_state_of, VceApi.set_node_state, VceApi.lift,
    VceApi.store_task_res, VceApi.raise, VceApi.ret, VceApi.partition_of,
    BasicActorPool.submit_if_actor_is_free; simpl.

Lemma retrieve_registered (ns : NodeState.t RecordSet) (run_id : Z) :
  NodeState.retrieve_context
    (NodeState.register_context empty_recordset ns run_id) run_id =
  Ok (context_for ns run_id).
Proof.
  unfold NodeState.retrieve_context, NodeState.register_context, VceJob.context_for.
  destruct (NodeState.run_contexts ns !! run_id) as [ctx|] eqn:E; simpl.
  - now rewrite E.
  - now rewrite lookup_insert_eq.
Qed.

(** What one pass through the [try] block does when an actor is free and
    the consumer is registered. *)
Lemma process_task_registered (task_ins : TaskIns.t Payload) (w : World)
    (ns : NodeState.t RecordSet) (p : Z) :
  BasicActorPool.is_actor_available (pool w) = true ->
  node_states w !! consumer_id task_ins = Some ns ->
  nodes_mapping !! consumer_id task_ins = Some p ->
  let node_id := consumer_id task_ins in
  let run_id := TaskIns.run_id task_ins in
  let job := job_for task_ins ns p in
  let registered := NodeState.register_context empty_recordset ns run_id in
  let pool' :=
    BasicActorPool.mk (BasicActorPool.num_actors (pool w))
      (BasicActorPool.busy (pool w))
      (BasicActorPool.submitted (pool w) ++ [job]) in
  process_task task_ins w =
    match actor_run job with
    | Ok (out_mssg, updated_context) =>
        (Ok tt,
         VceApi.mkWorld Payload RecordSet
           (<[node_id := NodeState.update_context registered run_id updated_context]>
              (<[node_id := registered]> (node_states w)))
           pool'
           (task_res_store w ++
              [configure_task_res (message_to_taskres out_mssg) task_ins
                 (Node.mk node_id false)])
           (log w))
    | Raise ex =>
        (Raise ex,
         VceApi.mkWorld Payload RecordSet
           (<[node_id := registered]> (node_states w)) pool' (task_res_store w) (log w))
    end.
Proof.
  intros Hfree Hns Hp. unfold_task. rewrite Hfree, Hns. simpl.
  rewrite lookup_insert_eq. simpl. rewrite retrieve_registered. simpl.
  rewrite Hp. simpl. rewrite Hfree. simpl. unfold VceJob.job_for.
  destruct (actor_run _) as [[out_mssg updated_context]|ex]; simpl; [|reflexivity].
  rewrite lookup_insert_eq. reflexivity.
Qed.

(** Whatever happens in the [try] block, it logs nothing, and it stores one
    TaskRes when it ends normally and none when it raises. *)
Lemma process_task_store_and_log (task_ins : TaskIns.t Payload) (w : World) :
  log (snd (process_task task_ins w)) = log w /\
  length (task_res_store (snd (process_task task_ins w))) =
    match fst (process_task task_ins w) with
    | Ok _ => S (length (task_res_store w))
    | Raise _ => length (task_res_store w)
    end.
Proof.
  unfold_task.
  destruct (BasicActorPool.is_actor_available (pool w)) eqn:Hfree; simpl; [|auto].
  destruct (node_states w !! consumer_id task_ins) as [ns|]; simpl; [|auto].
  rewrite lookup_insert_eq. simpl. rewrite retrieve_registered. simpl.
  destruct (nodes_mapping !! consumer_id task_ins) as [p|]; simpl; [|auto].
  rewrite Hfree. simpl.
  destruct (actor_run _) as [[out_mssg updated_context]|ex]; simpl; [|auto].
  rewrite lookup_insert_eq. simpl. split; [reflexivity|].
  rewrite length_app. simpl. lia.
Qed.

(** X9: when an actor is free, the consumer node is registered and the
    client app returns, the [try] block ends normally: exactly one TaskRes is
    appended to the store, namely the reply converted and configured with
    the TaskIns and the consumer as producer; the context stored for the
    node and run is the one the app returned; the other nodes' states, the
    number of busy actors and the log are as before. *)
Theorem successful_task_effects (task_ins : TaskIns.t Payload) (w : World)
    (ns : NodeState.t RecordSet) (p : Z) (out_mssg : Message.t RecordSet)
    (updated_context : RecordSet) :
  BasicActorPool.is_actor_available (pool w) = true ->
  node_states w !! consumer_id task_ins = Some ns ->
  nodes_mapping !! consumer_id task_ins = Some p ->
  actor_run (job_for task_ins ns p) = Ok (out_mssg, updated_context) ->
  let w' := snd (process_task task_ins w) in
  fst (process_task task_ins w) = Ok tt /\
  task_res_store w' =
    task_res_store w ++
      [configure_task_res (message_to_taskres out_mssg) task_ins
         (Node.mk (consumer_id task_ins) false)] /\
  (exists ns', node_states w' !! consumer_id task_ins = Some ns' /\
               NodeState.retrieve_context ns' (TaskIns.run_id task_ins) =
                 Ok updated_context) /\
  (forall other, other <> consumer_id task_ins ->
                 node_states w' !! other = node_states w !! other) /\
  BasicActorPool.busy (pool w') = BasicActorPool.busy (pool w) /\
  log w' = log w.
Proof.
  intros Hfree Hns Hp Hrun.
  rewrite (process_task_registered task_ins w ns p Hfree Hns Hp). cbv zeta.
  rewrite Hrun. simpl. repeat split.
  - eexists. split; [apply lookup_insert_eq|].
    unfold NodeState.retrieve_context, NodeState.update_context. simpl.
    now rewrite lookup_insert_eq.
  - intros other Hne. now rewrite !lookup_insert_ne by congruence.
Qed.

(** X10: the context returned for a task is the one handed to the next task
    of the same node and run: after a task that the app answered with
    [updated_context], the job built for a following task with the same
    consumer and run id carries [updated_context]. *)
Theorem context_carried_to_next_task (task_ins next_ins : TaskIns.t Payload)
    (w : World) (ns : NodeState.t RecordSet) (p : Z)
    (out_mssg : Message.t RecordSet) (updated_context : RecordSet) :
  BasicActorPool.is_actor_available (pool w) = true ->
  node_states w !! consumer_id task_ins = Some ns ->
  nodes_mapping !! consumer_id task_ins = Some p ->
  actor_run (job_for task_ins ns p) = Ok (out_mssg, updated_context) ->
  consumer_id next_ins = consumer_id task_ins ->
  TaskIns.run_id next_ins = TaskIns.run_id task_ins ->
  let w1 := snd (process_task task_ins w) in
  let w2 := snd (process_task next_ins w1) in
  BasicActorPool.submitted (pool w2) =
    BasicActorPool.submitted (pool w) ++
      [job_for task_ins ns p;
       (taskins_to_message next_ins p, str_int (consumer_id task_ins),
        updated_context)].
Proof.
  intros Hfree Hns Hp Hrun Hsame Hrunid.
  rewrite (process_task_registered task_ins w ns p Hfree Hns Hp). cbv zeta.
  rewrite Hrun. simpl.
  match goal with
  | |- context [process_task next_ins ?w1] =>
      rewrite (process_task_registered next_ins w1
                 (NodeState.update_context
                    (NodeState.register_context empty_recordset ns
                       (TaskIns.run_id task_ins))
                    (TaskIns.run_id task_ins) updated_context) p)
  end.
  - cbv zeta. simpl.
    assert (Hjob : job_for next_ins
                     (NodeState.update_context
                        (NodeState.register_context empty_recordset ns
                           (TaskIns.run_id task_ins))
                        (TaskIns.run_id task_ins) updated_context) p =
                   (taskins_to_message next_ins p, str_int (consumer_id task_ins),
                    updated_context)).
    { unfold VceJob.job_for, VceJob.context_for, NodeState.update_context. simpl.
      rewrite Hsame, Hrunid, lookup_insert_eq. reflexivity. }
    rewrite Hjob.
    match goal with
    | |- context [match ?r with Ok _ => _ | Raise _ => _ end] =>
        destruct r as [[o c]|e]
    end; simpl; now rewrite <- app_assoc.
  - exact Hfree.
  - simpl. rewrite Hsame. apply lookup_insert_eq.
  - now rewrite Hsame.
Qed.

(** X11: the worker stores one TaskRes per task it processed normally and
    logs only the failure that ends it.  If it is still waiting for the
    queue, the store has grown by the number of tasks and the log is
    unchanged; if it left its loop, the store has one TaskRes for every task
    before the failing one and the log has gained the failure and its
    traceback. *)
Theorem worker_store_and_log (queue : list (TaskIns.t Payload)) (w : World) :
  match worker queue w with
  | (AwaitingQueue, w') =>
      length (task_res_store w') = length (task_res_store w) + length queue /\
      log w' = log w
  | (Exited remaining, w') =>
      length (task_res_store w') + S (length remaining) =
        length (task_res_store w) + length queue /\
      exists ex, log w' = log w ++ [LogError ex; LogErrorTraceback ex]
  end.
Proof.
  revert w. induction queue as [|task_ins queue IH]; intros w; simpl; [auto|].
  destruct (process_task_store_and_log task_ins w) as [Hlog Hstore].
  destruct (process_task task_ins w) as [[u|ex] w1]; simpl in *.
  - specialize (IH w1). destruct (worker queue w1) as [[|remaining] w'].
    + destruct IH as [IH1 IH2]. split; [lia|congruence].
    + destruct IH as [IH1 [ex IH2]]. split; [lia|]. exists ex. congruence.
  - split; [lia|]. exists ex. now rewrite Hlog.
Qed.

(** X12: a task addressed to a node without a NodeState ends the worker: with
    a free actor, the lookup of the node's state raises KeyError, the worker
    logs it and leaves its loop; no job was handed to an actor, nothing was
    stored, and the tasks behind it stay queued. *)
Theorem unregistered_consumer_stops_worker (task_ins : TaskIns.t Payload)
    (rest : list (TaskIns.t Payload)) (w : World) :
  BasicActorPool.is_actor_available (pool w) = true ->
  node_states w !! consumer_id task_ins = None ->
  worker (task_ins :: rest) w =
    (Exited rest,
     VceApi.mkWorld Payload RecordSet (node_states w) (pool w) (task_res_store w)
       (log w ++ [LogError KeyError; LogErrorTraceback KeyError])).
Proof.
  intros Hfree Hns. simpl. unfold_task. rewrite Hfree, Hns. reflexivity.
Qed.

End VceApiMoreFacts.

Section VceApiMoreWitnesses.

#[local] Abbreviation ex_process_task :=
  (VceApi.process_task string string "" (fun payload => payload)
     VceExample.message_to_taskres VceExample.configure_task_res
     VceExample.actor_run VceExample.nodes_mapping).
#[local] Abbreviation ex_message :=
  (VceApi.taskins_to_message string string (fun payload : string => payload)).

Lemma successful_task_effects_witness :
  let task_ins := VceExample.task "t1" "ok" in
  let w := VceExample.world0 in
  let w' := snd (ex_process_task task_ins w) in
  fst (ex_process_task task_ins w) = Ok tt /\
  VceApi.task_res_store _ _ w' =
    VceApi.task_res_store _ _ w ++
      [VceExample.configure_task_res
         (VceExample.message_to_taskres
            (Message.mk "reply" (Message.metadata (ex_message task_ins 0%Z))))
         task_ins (Node.mk 7 false)] /\
  (exists ns', VceApi.node_states _ _ w' !! 7%Z = Some ns' /\
               NodeState.retrieve_context ns' 42%Z = Ok "+7") /\
  (forall other, other <> 7%Z ->
                 VceApi.node_states _ _ w' !! other = VceApi.node_states _ _ w !! other) /\
  BasicActorPool.busy (VceApi.pool _ _ w') = BasicActorPool.busy (VceApi.pool _ _ w) /\
  VceApi.log _ _ w' = VceApi.log _ _ w.
Proof.
  apply (successful_task_effects string string "" (fun payload => payload)
           VceExample.message_to_taskres VceExample.configure_task_res
           VceExample.actor_run VceExample.nodes_mapping
           (VceExample.task "t1" "ok") VceExample.world0
           (NodeState.mk ∅) 0%Z
           (Message.mk "reply"
              (Message.metadata (ex_message (VceExample.task "t1" "ok") 0%Z)))
           "+7"); reflexivity.
Defined.

Lemma context_carried_to_next_task_witness :
  let w1 := snd (ex_process_task (VceExample.task "t1" "ok") VceExample.world0) in
  let w2 := snd (ex_process_task (VceExample.task "t2" "ok") w1) in
  BasicActorPool.submitted (VceApi.pool _ _ w2) =
    BasicActorPool.submitted (VceApi.pool _ _ VceExample.world0) ++
      [VceJob.job_for "" (fun payload : string => payload)
         (VceExample.task "t1" "ok") (NodeState.mk ∅) 0%Z;
       (ex_message (VceExample.task "t2" "ok") 0%Z, str_int 7, "+7")].
Proof.
  apply (context_carried_to_next_task string string "" (fun payload => payload)
           VceExample.message_to_taskres VceExample.configure_task_res
           VceExample.actor_run VceExample.nodes_mapping
           (VceExample.task "t1" "ok") (VceExample.task "t2" "ok")
           VceExample.world0 (NodeState.mk ∅) 0%Z
           (Message.mk "reply"
              (Message.metadata (ex_message (VceExample.task "t1" "ok") 0%Z)))
           "+7"); reflexivity.
Defined.

Lemma unregistered_consumer_stops_worker_witness :
  let stranger :=
    TaskIns.mk "t9" "1" 42%Z
      (Task.mk (Node.mk 0 true) (Node.mk 8 false) "" "fit" "ok") in
  VceExample.worker [stranger; VceExample.task "t2" "ok"] VceExample.world0 =
    (Exited [VceExample.task "t2" "ok"],
     VceApi.mkWorld string string
       (VceApi.node_states _ _ VceExample.world0)
       (VceApi.pool _ _ VceExample.world0)
       (VceApi.task_res_store _ _ VceExample.world0)
       (VceApi.log _ _ VceExample.world0 ++
          [LogError KeyError; LogErrorTraceback KeyError])).
Proof.
  apply (unregistered_consumer_stops_worker string string "" (fun payload => payload)
           VceExample.message_to_taskres VceExample.configure_task_res
           VceExample.actor_run VceExample.nodes_mapping
           (TaskIns.mk "t9" "1" 42%Z
              (Task.mk (Node.mk 0 true) (Node.mk 8 false) "" "fit" "ok"))
           [VceExample.task "t2" "ok"] VceExample.world0); reflexivity.
Defined.

End VceApiMoreWitnesses.

(** ** Further facts about [dirichlet_partitioner.py] *)

Section NpFacts.

Lemma slice_then_rest {A : Type} (a : list A) (start stop : nat) :
  start <= stop -> Np.slice a start stop ++ drop stop a = drop start a.
Proof.
  intros Hle. unfold Np.slice.
  replace stop with (start + (stop - start)) at 2 by lia.
  rewrite <- drop_drop. apply take_drop.
Qed.

Lemma clamp_mono (n : nat) (i j : Z) :
  (0 <= i)%Z -> (i <= j)%Z -> Np.clamp n i <= Np.clamp n j.
Proof.
  intros Hi Hij. unfold Np.clamp.
  destruct (Z.ltb_spec i 0); [lia|]. destruct (Z.ltb_spec j 0); lia.
Qed.

Lemma clamp_bound (n : nat) (i : Z) : (0 <= i)%Z -> Np.clamp n i <= n.
Proof.
  intros Hi. unfold Np.clamp. destruct (Z.ltb_spec i 0); lia.
Qed.

(** The sections of [np.split] at non-decreasing indices, put one after the
    other, give the array back. *)
Lemma split_from_concat {A : Type} (a : list A) (indices : list Z) :
  forall (lo : Z),
    (0 <= lo)%Z -> nondecreasing_from lo indices ->
    concat (Np.split_from a (Np.clamp (length a) lo) indices) =
      drop (Np.clamp (length a) lo) a.
Proof.
  induction indices as [|i indices IH]; intros lo Hlo Hnd; simpl.
  - rewrite app_nil_r. unfold Np.slice.
    rewrite take_ge; [reflexivity|]. rewrite length_drop. lia.
  - destruct Hnd as [Hi Hnd]. rewrite (IH i) by (lia || assumption).
    apply slice_then_rest. apply clamp_mono; assumption.
Qed.

Lemma split_concat {A : Type} (a : list A) (indices : list Z) :
  nondecreasing_from 0 indices -> concat (Np.split a indices) = a.
Proof.
  intros Hnd. unfold Np.split.
  change 0 with (Np.clamp (length a) 0%Z) at 1.
  now rewrite (split_from_concat a indices 0%Z) by (lia || assumption).
Qed.

Lemma split_from_length {A : Type} (a : list A) (start : nat) (indices : list Z) :
  length (Np.split_from a start indices) = S (length indices).
Proof.
  revert start. induction indices as [|i indices IH]; intros start; simpl;
    [reflexivity|]. now rewrite IH.
Qed.

Lemma cumsum_from_length (acc : Q) (xs : list Q) :
  length (Np.cumsum_from acc xs) = length xs.
Proof.
  revert acc. induction xs as [|x xs IH]; intros acc; simpl; [reflexivity|].
  now rewrite IH.
Qed.

Lemma astype_int_nonneg_mono (x y : Q) :
  (0 <= x)%Q -> (x <= y)%Q ->
  (0 <= Np.astype_int x)%Z /\ (Np.astype_int x <= Np.astype_int y)%Z.
Proof.
  intros Hx Hxy. unfold Np.astype_int.
  assert (Hy : (0 <= y)%Q) by (eapply Qle_trans; eassumption).
  apply Qle_bool_iff in Hx as Hbx. apply Qle_bool_iff in Hy as Hby.
  rewrite Hbx, Hby. split; [|now apply Qfloor_resp_le].
  change 0%Z with (Qfloor 0). now apply Qfloor_resp_le.
Qed.

(** The split indices computed from non-negative proportions never
    decrease. *)
Lemma split_indices_nondecreasing (n : Q) (xs : list Q) :
  (0 <= n)%Q -> Forall (Qle 0) xs ->
  forall (acc : Q), (0 <= acc)%Q ->
    nondecreasing_from (Np.astype_int (acc * n))
      (map Np.astype_int (map (fun f => (f * n)%Q) (Np.cumsum_from acc xs))).
Proof.
  intros Hn. induction 1 as [|x xs Hx Hxs IH]; intros acc Hacc; simpl; [exact I|].
  assert (Hacc' : (0 <= acc + x)%Q).
  { rewrite <- (Qplus_0_r 0). now apply Qplus_le_compat. }
  split; [|apply IH; exact Hacc'].
  apply astype_int_nonneg_mono.
  - now apply Qmult_le_0_compat.
  - apply Qmult_le_compat_r; [|exact Hn].
    rewrite <- (Qplus_0_r acc) at 1. apply Qplus_le_compat; [apply Qle_refl|exact Hx].
Qed.

Lemma nondecreasing_from_removelast (lo : Z) (indices : list Z) :
  nondecreasing_from lo indices -> nondecreasing_from lo (removelast indices).
Proof.
  revert lo. induction indices as [|i [|j indices] IH]; intros lo Hnd.
  - exact I.
  - exact I.
  - destruct Hnd as [Hi Hnd]. split; [exact Hi|]. apply (IH i Hnd).
Qed.

End NpFacts.

Section ClassFacts.

Lemma distinct_spec (vs : list Z) :
  forall seen : list Z,
    NoDup (Dataset.distinct seen vs) /\
    forall v, v ∈ Dataset.distinct seen vs <-> v ∈ vs /\ v ∉ seen.
Proof.
  induction vs as [|x vs IH]; intros seen; simpl.
  - split; [constructor|]. intros v. split; [intros H; inversion H|].
    intros [H _]. inversion H.
  - destruct (bool_decide_reflect (x ∈ seen)) as [Hin|Hout].
    + destruct (IH seen) as [Hnd Hel]. split; [exact Hnd|].
      intros v. rewrite Hel, elem_of_cons. split; [tauto|].
      intros [[->|Hv] Hs]; [contradiction|tauto].
    + destruct (IH (x :: seen)) as [Hnd Hel]. split.
      * apply NoDup_cons. split; [|exact Hnd].
        rewrite Hel. intros [_ Hx]. apply Hx. apply list_elem_of_here.
      * intros v. rewrite elem_of_cons, Hel, !elem_of_cons.
        destruct (decide (v = x)) as [->|Hne]; tauto.
Qed.

Lemma concat_map_nil {A B : Type} (l : list A) :
  concat (map (fun _ : A => @nil B) l) = [].
Proof. induction l; simpl; auto. Qed.

(** Every row index belongs to the class of its label and to no other
    class. *)
Lemma nonzero_eq_cover (targets : list Z) :
  forall (s : nat) (classes : list Z),
    NoDup classes -> (forall t, t ∈ targets -> t ∈ classes) ->
    concat (map (Np.nonzero_eq_from s targets) classes) ≡ₚ seq s (length targets).
Proof.
  induction targets as [|t targets IH]; intros s classes Hnd Hall; simpl.
  - now rewrite concat_map_nil.
  - assert (Ht : t ∈ classes) by (apply Hall, list_elem_of_here).
    destruct (list_elem_of_split _ _ Ht) as (c1 & c2 & ->).
    apply NoDup_app in Hnd as Hnd'. destruct Hnd' as (_ & Hdis & Hn2).
    apply NoDup_cons in Hn2 as [Ht2 _].
    assert (Ht1 : t ∉ c1).
    { intros Hin. apply (Hdis t Hin). apply list_elem_of_here. }
    assert (Hother : forall c : list Z, t ∉ c ->
              map (fun k => if Z.eqb t k
                            then s :: Np.nonzero_eq_from (S s) targets k
                            else Np.nonzero_eq_from (S s) targets k) c =
              map (Np.nonzero_eq_from (S s) targets) c).
    { intros c Hc. apply map_ext_Forall, Forall_forall. intros k Hk.
      destruct (Z.eqb_spec t k) as [->|]; [contradiction|reflexivity]. }
    specialize (IH (S s) (c1 ++ t :: c2) Hnd
                  (fun t' Ht' => Hall t' (list_elem_of_further _ _ _ Ht'))).
    rewrite map_app, concat_app in *. simpl in *.
    rewrite Z.eqb_refl, !Hother by assumption. simpl.
    rewrite <- Permutation_middle. now constructor.
Qed.

Lemma concat_map_app_perm {A B : Type} (f g : A -> list B) (l : list A) :
  concat (map (fun x => f x ++ g x) l) ≡ₚ concat (map f l) ++ concat (map g l).
Proof.
  induction l as [|x l IH]; simpl; [reflexivity|].
  rewrite IH. rewrite <- !app_assoc. apply Permutation_app_head.
  rewrite !app_assoc. apply Permutation_app_tail. apply Permutation_app_comm.
Qed.

Lemma map_lookup_seq {A : Type} (l : list (list A)) :
  map (fun i => default [] (l !! i)) (seq 0 (length l)) = l.
Proof.
  induction l as [|x l IH] using rev_ind; [reflexivity|].
  rewrite length_app. simpl. rewrite Nat.add_1_r, seq_S, map_app. simpl.
  rewrite list_lookup_middle by reflexivity. simpl. f_equal.
  rewrite <- IH at 2. apply map_ext_Forall, Forall_forall. intros i Hi.
  apply elem_of_seq in Hi. now rewrite lookup_app_l by lia.
Qed.

End ClassFacts.

Section AssignmentFacts.

Lemma empty_assignment_lookup (nids : list nat) (nid : nat) :
  (list_to_map (map (fun n => (n, @nil nat)) nids) : gmap nat (list nat)) !! nid =
    if bool_decide (nid ∈ nids) then Some [] else None.
Proof.
  induction nids as [|n nids IH]; cbn [map].
  - rewrite list_to_map_nil, lookup_empty. reflexivity.
  - rewrite list_to_map_cons. cbn [fst snd].
    destruct (decide (n = nid)) as [->|Hne].
    + rewrite lookup_insert_eq.
      now rewrite bool_decide_eq_true_2 by apply list_elem_of_here.
    + rewrite lookup_insert_ne by exact Hne. rewrite IH.
      destruct (bool_decide_reflect (nid ∈ nids)) as [Hin|Hout].
      * now rewrite bool_decide_eq_true_2 by (now apply list_elem_of_further).
      * rewrite bool_decide_eq_false_2; [reflexivity|].
        intros Hin. apply elem_of_cons in Hin as [->|Hin]; congruence.
Qed.

Lemma empty_assignment_spec (P nid : nat) :
  DirichletPartitioner.empty_assignment P !! nid =
    if bool_decide (nid < P) then Some [] else None.
Proof.
  unfold DirichletPartitioner.empty_assignment. rewrite empty_assignment_lookup.
  destruct (bool_decide_reflect (nid ∈ seq 0 P)) as [Hin|Hout];
    rewrite elem_of_seq in *.
  - now rewrite bool_decide_eq_true_2 by lia.
  - now rewrite bool_decide_eq_false_2 by lia.
Qed.

Lemma all_indices_empty (P : nat) :
  all_indices P (DirichletPartitioner.empty_assignment P) = [].
Proof.
  unfold all_indices, partitions_of.
  rewrite (map_ext_Forall _ (fun _ => [])); [apply concat_map_nil|].
  apply Forall_forall. intros nid _. rewrite empty_assignment_spec.
  now destruct (bool_decide (nid < P)).
Qed.

(** [extend_all] appends to every listed partition its section and leaves
    the other entries alone. *)
Lemma extend_all_spec (sections : list (list nat)) (nids : list nat) :
  forall a : gmap nat (list nat),
    NoDup nids -> (forall nid, nid ∈ nids -> nid < length sections) ->
    exists a',
      DirichletPartitioner.extend_all nids sections a = Ok a' /\
      forall nid,
        a' !! nid =
          if bool_decide (nid ∈ nids)
          then Some (default [] (a !! nid) ++ default [] (sections !! nid))
          else a !! nid.
Proof.
  induction nids as [|n nids IH]; intros a Hnd Hlt;
    cbn [DirichletPartitioner.extend_all].
  - exists a. split; [reflexivity|]. intros nid. reflexivity.
  - apply NoDup_cons in Hnd as [Hn Hnd].
    destruct (lookup_lt_is_Some_2 sections n) as [section Hsec];
      [apply Hlt, list_elem_of_here|].
    unfold list_getitem. rewrite Hsec. simpl.
    destruct (IH (<[n := default [] (a !! n) ++ section]> a) Hnd) as (a' & -> & Ha').
    { intros nid Hin. apply Hlt. now apply list_elem_of_further. }
    exists a'. split; [reflexivity|]. intros nid. rewrite Ha'.
    destruct (decide (nid = n)) as [->|Hne].
    + rewrite (bool_decide_eq_false_2 (n ∈ nids)) by exact Hn.
      rewrite (bool_decide_eq_true_2 (n ∈ n :: nids)) by apply list_elem_of_here.
      now rewrite lookup_insert_eq, Hsec.
    + rewrite lookup_insert_ne by congruence.
      destruct (bool_decide_reflect (nid ∈ nids)) as [Hin|Hout].
      * now rewrite bool_decide_eq_true_2 by (now apply list_elem_of_further).
      * rewrite bool_decide_eq_false_2; [reflexivity|].
        intros Hin. apply elem_of_cons in Hin as [->|Hin]; congruence.
Qed.

Lemma proportions_by_nid_ok (draw : list Q) (nids : list nat) (props : list Q) :
  DirichletPartitioner.proportions_by_nid nids draw = Ok props ->
  length props = length nids /\ Forall (fun x => x ∈ draw) props.
Proof.
  revert props. induction nids as [|nid nids IH]; intros props; simpl.
  - intros [= <-]. split; [reflexivity|constructor].
  - unfold list_getitem. destruct (draw !! nid) as [x|] eqn:E; simpl; [|discriminate].
    destruct (DirichletPartitioner.proportions_by_nid nids draw) as [xs|e];
      simpl; [|discriminate].
    intros [= <-]. destruct (IH xs eq_refl) as [Hlen Hall].
    split; [simpl; lia|]. constructor; [|exact Hall].
    eapply list_elem_of_lookup_2, E.
Qed.

Lemma nondecreasing_from_weaken (lo lo' : Z) (indices : list Z) :
  (lo' <= lo)%Z -> nondecreasing_from lo indices -> nondecreasing_from lo' indices.
Proof.
  destruct indices as [|i indices]; simpl; [auto|]. intros Hle [Hi Hnd].
  split; [lia|exact Hnd].
Qed.

End AssignmentFacts.

Section SamplingFacts.
Variable Rng : Type.
Variable dirichlet : list Q -> Rng -> list Q * Rng.

Import DirichletPartitioner.

#[local] Abbreviation assign_class := (DirichletPartitioner.assign_class Rng dirichlet).
#[local] Abbreviation assign_classes := (DirichletPartitioner.assign_classes Rng dirichlet).
#[local] Abbreviation sample_assignment :=
  (DirichletPartitioner.sample_assignment Rng dirichlet).
#[local] Abbreviation determine :=
  (DirichletPartitioner._determine_node_id_to_indices_if_needed Rng dirichlet).
#[local] Abbreviation load_partition := (DirichletPartitioner.load_partition Rng dirichlet).

#[local] Abbreviation draws_nonnegative := (draws_nonnegative_by dirichlet).

Lemma sections_of_class (n P : nat) (indices_k : list nat) (props : list Q) :
  0 < P -> length props = P -> Forall (Qle 0) props ->
  let sections :=
    Np.split indices_k
      (removelast
         (map Np.astype_int
            (map (fun f => (f * inject_Z (Z.of_nat (length indices_k)))%Q)
               (Np.cumsum props)))) in
  length sections = P /\ concat sections = indices_k.
Proof.
  intros HP Hlen Hnn sections. subst sections. split.
  - unfold Np.split. rewrite split_from_length, removelast_firstn_len.
    rewrite !length_map. unfold Np.cumsum. rewrite cumsum_from_length.
    rewrite length_take, !length_map, cumsum_from_length. lia.
  - apply split_concat, nondecreasing_from_removelast.
    assert (Hn : (0 <= inject_Z (Z.of_nat (length indices_k)))%Q).
    { change 0%Q with (inject_Z 0). rewrite <- Zle_Qle. lia. }
    pose proof (split_indices_nondecreasing _ props Hn Hnn 0%Q (Qle_refl 0)) as Hnd.
    eapply nondecreasing_from_weaken; [|exact Hnd].
    apply astype_int_nonneg_mono with (y := (0 * inject_Z (Z.of_nat (length indices_k)))%Q);
      [|apply Qle_refl].
    apply Qmult_le_0_compat; [apply Qle_refl|exact Hn].
Qed.

(** Without self-balancing, one class is spread over the partitions: every
    index of the class goes to exactly one of the partitions 0, ..., P-1. *)
Lemma assign_class_effect (self : t) (targets : list Z) (k : Z)
    (a a' : gmap nat (list nat)) (rng rng' : Rng) :
  _self_balancing self = false -> 0 < _num_partitions self ->
  draws_nonnegative ->
  assign_class self targets k a rng = (Ok a', rng') ->
  all_indices (_num_partitions self) a' ≡ₚ
    all_indices (_num_partitions self) a ++ Np.nonzero_eq targets k /\
  (forall nid, _num_partitions self <= nid -> a' !! nid = a !! nid) /\
  (forall nid, nid < _num_partitions self -> is_Some (a' !! nid)).
Proof.
  intros Hbal HP Hdraws. unfold DirichletPartitioner.assign_class.
  pose proof (Hdraws (_alpha self) rng) as Hnn.
  destruct (dirichlet (_alpha self) rng) as [draw rng1]. simpl in Hnn.
  destruct (proportions_by_nid (seq 0 (_num_partitions self)) draw)
    as [props|e] eqn:Ep; simpl; [|intros [=]].
  rewrite Hbal. simpl.
  destruct (proportions_by_nid_ok _ _ _ Ep) as [Hlen Hmem].
  rewrite length_seq in Hlen.
  assert (Hprops : Forall (Qle 0) props).
  { rewrite Forall_forall in *. intros x Hx. apply Hnn, Hmem, Hx. }
  destruct (sections_of_class (length targets) _ (Np.nonzero_eq targets k) props
              HP Hlen Hprops) as [Hslen Hconcat].
  match goal with
  | |- context [extend_all _ ?sections a] =>
      destruct (extend_all_spec sections (seq 0 (_num_partitions self)) a)
        as (a1 & Hext & Ha1);
        [apply NoDup_seq|intros nid Hin; apply elem_of_seq in Hin; lia|]
  end.
  rewrite Hext. intros [= <- <-]. repeat split.
  - unfold all_indices, partitions_of.
    rewrite (map_ext_Forall _
               (fun nid => default [] (a !! nid) ++
                           default []
                             (Np.split (Np.nonzero_eq targets k)
                                (removelast
                                   (map Np.astype_int
                                      (map (fun f => (f * inject_Z (Z.of_nat
                                              (length (Np.nonzero_eq targets k))))%Q)
                                         (Np.cumsum props)))) !! nid))).
    + rewrite concat_map_app_perm. apply Permutation_app_head.
      rewrite <- Hslen at 1. rewrite map_lookup_seq. now rewrite Hconcat.
    + apply Forall_forall. intros nid Hin. rewrite Ha1.
      now rewrite bool_decide_eq_true_2 by exact Hin.
  - intros nid Hge. rewrite Ha1. rewrite bool_decide_eq_false_2; [reflexivity|].
    rewrite elem_of_seq. lia.
  - intros nid Hlt. rewrite Ha1. rewrite bool_decide_eq_true_2; [eauto|].
    rewrite elem_of_seq. lia.
Qed.

Lemma assign_classes_effect (self : t) (targets : list Z) (classes : list Z) :
  _self_balancing self = false -> 0 < _num_partitions self ->
  draws_nonnegative ->
  forall (a a' : gmap nat (list nat)) (rng rng' : Rng),
    assign_classes self targets classes a rng = (Ok a', rng') ->
    all_indices (_num_partitions self) a' ≡ₚ
      all_indices (_num_partitions self) a ++
        concat (map (Np.nonzero_eq targets) classes) /\
    (forall nid, _num_partitions self <= nid -> a' !! nid = a !! nid) /\
    (forall nid, nid < _num_partitions self ->
                 is_Some (a !! nid) -> is_Some (a' !! nid)).
Proof.
  intros Hbal HP Hdraws.
  induction classes as [|k classes IH]; intros a a' rng rng'; simpl.
  - intros [= <- <-]. rewrite app_nil_r. auto.
  - destruct (assign_class self targets k a rng) as [[a1|e] rng1] eqn:E;
      [|intros [=]].
    destruct (assign_class_effect self targets k a a1 rng rng1 Hbal HP Hdraws E)
      as (Hp1 & Hout1 & Hin1).
    intros Hrest. destruct (IH a1 a' rng1 rng' Hrest) as (Hp2 & Hout2 & Hin2).
    repeat split.
    + rewrite Hp2, Hp1. now rewrite <- app_assoc.
    + intros nid Hge. now rewrite Hout2, Hout1.
    + intros nid Hlt _. apply Hin2; [exact Hlt|]. now apply Hin1.
Qed.

Lemma extend_all_keeps_entries (sections : list (list nat)) (nids : list nat) :
  forall (a a' : gmap nat (list nat)) (nid : nat),
    extend_all nids sections a = Ok a' -> is_Some (a !! nid) -> is_Some (a' !! nid).
Proof.
  induction nids as [|n nids IH]; intros a a' nid; simpl.
  - now intros [= <-].
  - destruct (list_getitem sections n) as [section|e]; simpl; [|discriminate].
    intros Hext Hsome. apply (IH _ _ _ Hext).
    destruct (decide (n = nid)) as [->|Hne].
    + rewrite lookup_insert_eq. eauto.
    + now rewrite lookup_insert_ne.
Qed.

Lemma assign_classes_keeps_entries (self : t) (targets classes : list Z) :
  forall (a a' : gmap nat (list nat)) (rng rng' : Rng) (nid : nat),
    assign_classes self targets classes a rng = (Ok a', rng') ->
    is_Some (a !! nid) -> is_Some (a' !! nid).
Proof.
  induction classes as [|k classes IH]; intros a a' rng rng' nid; simpl.
  - now intros [= <- <-].
  - destruct (assign_class self targets k a rng) as [[a1|e] rng1] eqn:E;
      [|intros [=]].
    intros Hrest Hsome. apply (IH _ _ _ _ _ Hrest).
    unfold DirichletPartitioner.assign_class in E.
    destruct (dirichlet (_alpha self) rng) as [draw rng0].
    destruct (proportions_by_nid _ draw) as [props|e]; simpl in E; [|discriminate].
    destruct (if _self_balancing self then _ else _) as [props'|e]; simpl in E;
      [|discriminate].
    injection E as E _. exact (extend_all_keeps_entries _ _ _ _ _ E Hsome).
Qed.

Lemma fold_left_min_le (ns : list nat) :
  forall n : nat,
    fold_left Nat.min ns n <= n /\ Forall (fun x => fold_left Nat.min ns n <= x) ns.
Proof.
  induction ns as [|x ns IH]; intros n; simpl; [split; [lia|constructor]|].
  destruct (IH (Nat.min n x)) as [H1 H2]. split; [lia|].
  constructor; [lia|exact H2].
Qed.

Lemma min_sample_size_le (P m : nat) (a : gmap nat (list nat)) :
  min_sample_size P a = Ok m ->
  0 < P /\ forall nid, nid < P -> m <= length (default [] (a !! nid)).
Proof.
  unfold min_sample_size.
  destruct (map _ (seq 0 P)) as [|n ns] eqn:E; [discriminate|]. intros [= <-].
  assert (HP : 0 < P) by (destruct P; [discriminate|lia]).
  split; [exact HP|]. intros nid Hlt.
  assert (Hin : length (default [] (a !! nid)) ∈ n :: ns).
  { rewrite <- E. apply (list_elem_of_fmap_2 (fun nid => length (default [] (a !! nid)))).
    apply elem_of_seq. lia. }
  destruct (fold_left_min_le ns n) as [H1 H2].
  apply elem_of_cons in Hin as [->|Hin]; [exact H1|].
  rewrite Forall_forall in H2. now apply H2.
Qed.

(** An assignment that the sampling loop returns was built in one round
    from the empty assignment and passed the test of the smallest
    partition. *)
Lemma sample_assignment_returned (fuel : nat) (self : t) (targets : list Z) :
  forall (rng rng' : Rng) (a : gmap nat (list nat)),
    sample_assignment fuel self targets rng = (Returned a, rng') ->
    exists (rng0 : Rng) (m : nat),
      assign_classes self targets (_unique_classes self)
        (empty_assignment (_num_partitions self)) rng0 = (Ok a, rng') /\
      min_sample_size (_num_partitions self) a = Ok m /\
      (_min_partition_size self <= Z.of_nat m)%Z.
Proof.
  induction fuel as [|fuel IH]; intros rng rng' a; simpl; [intros [=]|].
  destruct (assign_classes self targets _ _ rng) as [[a1|e] rng1] eqn:E;
    [|intros [=]].
  destruct (min_sample_size _ a1) as [m|e] eqn:Em; [|intros [=]].
  destruct (Z.leb_spec (_min_partition_size self) (Z.of_nat m)) as [Hle|Hgt].
  - intros [= <- <-]. exists rng, m. auto.
  - apply IH.
Qed.

(** What a call of [_determine_node_id_to_indices_if_needed] that returns
    has done. *)
Lemma determine_returned (fuel : nat) (self self' : t) (rng rng' : Rng) :
  determine fuel self rng = (Returned tt, self', rng') ->
  exists (targets : list Z) (avg : Q),
    Dataset.column (dataset self) (_partition_by self) = Ok targets /\
    0 < _num_partitions self /\
    self' = set_assignment
              (set_class_info self (Dataset.distinct [] targets) avg)
              (_node_id_to_indices self') /\
    sample_assignment fuel (set_class_info self (Dataset.distinct [] targets) avg)
      targets rng = (Returned (_node_id_to_indices self'), rng').
Proof.
  unfold DirichletPartitioner._determine_node_id_to_indices_if_needed,
    Dataset.unique. simpl.
  destruct (Dataset.column (dataset self) (_partition_by self)) as [targets|e];
    simpl; [|intros [=]].
  destruct (Nat.eqb_spec (_num_partitions self) 0) as [|HP]; [intros [=]|].
  match goal with
  | |- context [sample_assignment fuel ?s targets rng] =>
      destruct (sample_assignment fuel s targets rng) as [[a|e|] rng1] eqn:E
  end; intros [= <- <-].
  do 2 eexists. split; [reflexivity|]. split; [lia|]. split; [reflexivity|exact E].
Qed.

Lemma column_length (ds : Dataset.t) (name : string) (targets : list Z) :
  Dataset.column ds name = Ok targets -> length targets = Dataset.num_rows ds.
Proof.
  revert targets. induction ds as [|row ds IH]; intros targets; simpl.
  - now intros [= <-].
  - destruct (PyDict.getitem name row) as [v|e]; simpl; [|discriminate].
    destruct (Dataset.column ds name) as [vs|e]; simpl; [|discriminate].
    intros [= <-]. simpl. f_equal. now apply IH.
Qed.

Lemma determine_cover (fuel : nat) (self self' : t) (rng rng' : Rng) :
  _self_balancing self = false ->
  draws_nonnegative ->
  determine fuel self rng = (Returned tt, self', rng') ->
  all_indices (_num_partitions self) (_node_id_to_indices self') ≡ₚ
    seq 0 (Dataset.num_rows (dataset self)) /\
  (forall nid, _num_partitions self <= nid -> _node_id_to_indices self' !! nid = None) /\
  _node_id_to_indices_determined self' = true /\
  dataset self' = dataset self.
Proof.
  intros Hbal Hdraws Hdet.
  destruct (determine_returned _ _ _ _ _ Hdet) as (targets & avg & Hcol & HP & Hself & Hs).
  destruct (sample_assignment_returned _ _ _ _ _ _ Hs) as (rng0 & m & Hassign & _ & _).
  destruct (assign_classes_effect
              (set_class_info self (Dataset.distinct [] targets) avg) targets _
              Hbal HP Hdraws _ _ _ _ Hassign)
    as (Hperm & Hout & _).
  simpl in *. split; [|split; [|split]].
  - rewrite Hperm, all_indices_empty. simpl.
    rewrite <- (column_length _ _ _ Hcol).
    destruct (distinct_spec targets []) as [Hnd Hel].
    apply (nonzero_eq_cover targets 0 _ Hnd).
    intros t Ht. apply Hel. split; [exact Ht|apply not_elem_of_nil].
  - intros nid Hge. rewrite (Hout nid Hge), empty_assignment_spec.
    now rewrite bool_decide_eq_false_2 by lia.
  - rewrite Hself. reflexivity.
  - rewrite Hself. reflexivity.
Qed.

Lemma determine_min_size (fuel : nat) (self self' : t) (rng rng' : Rng) :
  determine fuel self rng = (Returned tt, self', rng') ->
  forall nid, nid < _num_partitions self ->
    exists indices : list nat,
      _node_id_to_indices self' !! nid = Some indices /\
      (_min_partition_size self <= Z.of_nat (length indices))%Z.
Proof.
  intros Hdet nid Hlt.
  destruct (determine_returned _ _ _ _ _ Hdet) as (targets & avg & _ & _ & _ & Hs).
  destruct (sample_assignment_returned _ _ _ _ _ _ Hs) as (rng0 & m & Hassign & Hmin & Hle).
  simpl in *.
  destruct (assign_classes_keeps_entries _ _ _ _ _ _ _ nid Hassign) as [indices Hi].
  { rewrite empty_assignment_spec. rewrite bool_decide_eq_true_2 by exact Hlt. eauto. }
  exists indices. split; [exact Hi|].
  destruct (min_sample_size_le _ _ _ Hmin) as [_ Hall].
  specialize (Hall nid Hlt). rewrite Hi in Hall. simpl in Hall. lia.
Qed.

Lemma extend_all_outside (sections : list (list nat)) (nids : list nat) :
  forall (a a' : gmap nat (list nat)) (nid : nat),
    extend_all nids sections a = Ok a' -> nid ∉ nids -> a' !! nid = a !! nid.
Proof.
  induction nids as [|n nids IH]; intros a a' nid; simpl.
  - now intros [= <-].
  - destruct (list_getitem sections n) as [section|e]; simpl; [|discriminate].
    intros Hext Hout. apply not_elem_of_cons in Hout as [Hne Hout].
    rewrite (IH _ _ _ Hext Hout). now rewrite lookup_insert_ne by congruence.
Qed.

Lemma assign_classes_outside (self : t) (targets classes : list Z) :
  forall (a a' : gmap nat (list nat)) (rng rng' : Rng) (nid : nat),
    assign_classes self targets classes a rng = (Ok a', rng') ->
    _num_partitions self <= nid -> a' !! nid = a !! nid.
Proof.
  induction classes as [|k classes IH]; intros a a' rng rng' nid; simpl.
  - now intros [= <- <-].
  - destruct (assign_class self targets k a rng) as [[a1|e] rng1] eqn:E;
      [|intros [=]].
    intros Hrest Hge. rewrite (IH _ _ _ _ _ Hrest Hge).
    unfold DirichletPartitioner.assign_class in E.
    destruct (dirichlet (_alpha self) rng) as [draw rng0].
    destruct (proportions_by_nid _ draw) as [props|e]; simpl in E; [|discriminate].
    destruct (if _self_balancing self then _ else _) as [props'|e]; simpl in E;
      [|discriminate].
    injection E as E _. apply (extend_all_outside _ _ _ _ _ E).
    rewrite elem_of_seq. lia.
Qed.

Lemma select_rows (ds : Dataset.t) (indices : list nat) :
  Forall (fun i => i < Dataset.num_rows ds) indices ->
  exists rows : Dataset.t,
    Dataset.select ds indices = Ok rows /\
    Forall2 (fun i row => ds !! i = Some row) indices rows.
Proof.
  induction indices as [|i indices IH]; intros Hall; simpl.
  - exists []. split; [reflexivity|constructor].
  - apply Forall_cons in Hall as [Hi Hall].
    destruct (lookup_lt_is_Some_2 ds i Hi) as [row Hrow].
    destruct (IH Hall) as (rows & -> & Hrows).
    unfold list_getitem. rewrite Hrow. simpl.
    exists (row :: rows). split; [reflexivity|]. now constructor.
Qed.

Lemma partition_in_all_indices (P nid : nat) (a : gmap nat (list nat))
    (indices : list nat) :
  nid < P -> a !! nid = Some indices -> forall i, i ∈ indices -> i ∈ all_indices P a.
Proof.
  intros Hlt Ha i Hi. unfold all_indices, partitions_of.
  apply list_elem_of_In, in_concat. exists indices. split.
  - apply in_map_iff. exists nid. rewrite Ha. split; [reflexivity|].
    apply in_seq. lia.
  - now apply list_elem_of_In.
Qed.

Lemma concat_length_ge {A : Type} (m : nat) (ls : list (list A)) :
  Forall (fun l => m <= length l) ls -> length ls * m <= length (concat ls).
Proof.
  induction 1 as [|l ls Hl _ IH]; simpl; [lia|]. rewrite length_app. lia.
Qed.

Lemma proportions_by_nid_succeeds (draw : list Q) (nids : list nat) :
  Forall (fun nid => nid < length draw) nids ->
  exists props, proportions_by_nid nids draw = Ok props.
Proof.
  induction nids as [|nid nids IH]; intros Hall; simpl; [eauto|].
  apply Forall_cons in Hall as [Hn Hall].
  destruct (lookup_lt_is_Some_2 draw nid Hn) as [x Hx].
  destruct (IH Hall) as [props ->]. unfold list_getitem. rewrite Hx. simpl. eauto.
Qed.

(** Draws are vectors with an entry for every partition. *)
Lemma assign_classes_succeeds (self : t) (targets classes : list Z) :
  _self_balancing self = false -> 0 < _num_partitions self ->
  (forall rng, _num_partitions self <= length (fst (dirichlet (_alpha self) rng))) ->
  forall (a : gmap nat (list nat)) (rng : Rng),
    exists a' rng', assign_classes self targets classes a rng = (Ok a', rng').
Proof.
  intros Hbal HP Hlen.
  induction classes as [|k classes IH]; intros a rng; simpl; [eauto|].
  assert (exists a1 rng1, assign_class self targets k a rng = (Ok a1, rng1))
    as (a1 & rng1 & ->); [|apply IH].
  unfold DirichletPartitioner.assign_class.
  specialize (Hlen rng).
  destruct (dirichlet (_alpha self) rng) as [draw rng1]. simpl in Hlen.
  destruct (proportions_by_nid_succeeds draw (seq 0 (_num_partitions self)))
    as [props Ep].
  { apply Forall_forall. intros nid Hin. apply elem_of_seq in Hin. lia. }
  rewrite Ep, Hbal. simpl.
  destruct (proportions_by_nid_ok _ _ _ Ep) as [Hl _]. rewrite length_seq in Hl.
  match goal with
  | |- context [extend_all _ ?sections a] =>
      destruct (extend_all_spec sections (seq 0 (_num_partitions self)) a)
        as (a1 & Hext & _)
  end.
  - apply NoDup_seq.
  - intros nid Hin. apply elem_of_seq in Hin.
    unfold Np.split. rewrite split_from_length, removelast_firstn_len.
    rewrite !length_map. unfold Np.cumsum. rewrite cumsum_from_length.
    rewrite length_take, !length_map, cumsum_from_length. lia.
  - rewrite Hext. eauto.
Qed.

(** X13: without self-balancing and with draws that have no negative
    entries, an assignment that was materialized covers the dataset: the
    indices of the partitions 0, ..., num_partitions - 1, taken together, are
    the row indices 0, ..., num_rows - 1, each exactly once, and no other
    partition exists.  The determined flag is set. *)
Theorem assignment_partitions_rows (fuel : nat) (self self' : t) (rng rng' : Rng) :
  _self_balancing self = false ->
  draws_nonnegative ->
  determine fuel self rng = (Returned tt, self', rng') ->
  all_indices (_num_partitions self) (_node_id_to_indices self') ≡ₚ
    seq 0 (Dataset.num_rows (dataset self)) /\
  (forall nid, _num_partitions self <= nid -> _node_id_to_indices self' !! nid = None) /\
  _node_id_to_indices_determined self' = true.
Proof.
  intros Hbal Hdraws Hdet.
  destruct (determine_cover _ _ _ _ _ Hbal Hdraws Hdet) as (H1 & H2 & H3 & _). auto.
Qed.

(** X14: whenever the assignment is materialized, every partition
    0, ..., num_partitions - 1 exists in it and holds at least
    [min_partition_size] indices. *)
Theorem partitions_reach_min_size (fuel : nat) (self self' : t) (rng rng' : Rng) :
  determine fuel self rng = (Returned tt, self', rng') ->
  forall nid, nid < _num_partitions self ->
    exists indices : list nat,
      _node_id_to_indices self' !! nid = Some indices /\
      (_min_partition_size self <= Z.of_nat (length indices))%Z.
Proof.
  exact (determine_min_size fuel self self' rng rng').
Qed.

(** X15: without self-balancing and with draws that have no negative
    entries, once the assignment is materialized [load_partition] of a
    partition index below [num_partitions] returns the rows of the dataset at
    the indices assigned to that partition, in their order; it raises
    nothing. *)
Theorem load_partition_selects_assigned_rows (fuel : nat) (self self' : t)
    (rng rng' : Rng) (node_id : nat) :
  _self_balancing self = false ->
  draws_nonnegative ->
  determine fuel self rng = (Returned tt, self', rng') ->
  node_id < _num_partitions self ->
  exists (indices : list nat) (partition : Dataset.t),
    _node_id_to_indices self' !! node_id = Some indices /\
    load_partition fuel self node_id rng = (Returned partition, self', rng') /\
    Forall2 (fun i row => dataset self !! i = Some row) indices partition.
Proof.
  intros Hbal Hdraws Hdet Hlt.
  destruct (determine_cover _ _ _ _ _ Hbal Hdraws Hdet) as (Hperm & _ & _ & Hds).
  destruct (determine_min_size _ _ _ _ _ Hdet node_id Hlt) as (indices & Hi & _).
  destruct (select_rows (dataset self) indices) as (rows & Hsel & Hrows).
  { apply Forall_forall. intros i Hin.
    pose proof (partition_in_all_indices _ _ _ _ Hlt Hi i Hin) as Hall.
    rewrite Hperm in Hall. apply elem_of_seq in Hall. lia. }
  exists indices, rows. split; [exact Hi|]. split; [|exact Hrows].
  unfold DirichletPartitioner.load_partition. rewrite Hdet, Hi, Hds, Hsel.
  reflexivity.
Qed.

(** X16: a partition index that is not below [num_partitions] makes
    [load_partition] raise [KeyError], and only after the sampling: the
    assignment is stored, the determined flag set and the generator
    advanced. *)
Theorem load_partition_unknown_partition (fuel : nat) (self self' : t)
    (rng rng' : Rng) (node_id : nat) :
  determine fuel self rng = (Returned tt, self', rng') ->
  _num_partitions self <= node_id ->
  load_partition fuel self node_id rng = (Raised KeyError, self', rng') /\
  _node_id_to_indices_determined self' = true.
Proof.
  intros Hdet Hge.
  destruct (determine_returned _ _ _ _ _ Hdet) as (targets & avg & _ & _ & Hself & Hs).
  destruct (sample_assignment_returned _ _ _ _ _ _ Hs) as (rng0 & m & Hassign & _ & _).
  pose proof (assign_classes_outside _ _ _ _ _ _ _ node_id Hassign Hge) as Hout.
  rewrite empty_assignment_spec in Hout. simpl in Hout.
  rewrite bool_decide_eq_false_2 in Hout by lia.
  split; [|rewrite Hself; reflexivity].
  unfold DirichletPartitioner.load_partition. now rewrite Hdet, Hout.
Qed.

(** X17: with self-balancing, which is the default, [load_partition] on a
    dataset with at least one row raises [AttributeError] at the first class,
    in the first round: one vector has been drawn, the class information is
    set, the assignment and the determined flag are as before. *)
Theorem self_balancing_raises_attribute_error (fuel : nat) (self : t) (rng : Rng)
    (node_id : nat) (targets : list Z) :
  _self_balancing self = true ->
  0 < _num_partitions self ->
  Dataset.column (dataset self) (_partition_by self) = Ok targets ->
  targets <> [] ->
  _num_partitions self <= length (fst (dirichlet (_alpha self) rng)) ->
  exists self',
    load_partition (S fuel) self node_id rng =
      (Raised AttributeError, self', snd (dirichlet (_alpha self) rng)) /\
    _unique_classes self' = Dataset.distinct [] targets /\
    _node_id_to_indices self' = _node_id_to_indices self /\
    _node_id_to_indices_determined self' = _node_id_to_indices_determined self.
Proof.
  intros Hbal HP Hcol Hne Hlen.
  unfold DirichletPartitioner.load_partition,
    DirichletPartitioner._determine_node_id_to_indices_if_needed, Dataset.unique.
  simpl. rewrite Hcol. simpl.
  destruct (Nat.eqb_spec (_num_partitions self) 0) as [HP0|_]; [lia|].
  destruct targets as [|t targets]; [congruence|]. simpl.
  unfold DirichletPartitioner.assign_class. simpl.
  destruct (dirichlet (_alpha self) rng) as [draw rng1]. simpl in Hlen |- *.
  destruct (proportions_by_nid_succeeds draw (seq 0 (_num_partitions self)))
    as [props Ep].
  { apply Forall_forall. intros nid Hin. apply elem_of_seq in Hin. lia. }
  rewrite Ep, Hbal. simpl.
  eexists. split; [reflexivity|]. simpl. auto.
Qed.

(** X18: without self-balancing, when every draw has an entry for every
    partition and no minimal partition size is asked for, the first round of
    sampling is accepted: the assignment is materialized whatever the number
    of rounds allowed, and nothing is raised. *)
Theorem first_round_is_accepted (fuel : nat) (self : t) (rng : Rng)
    (targets : list Z) :
  _self_balancing self = false ->
  0 < _num_partitions self ->
  (forall rng, _num_partitions self <= length (fst (dirichlet (_alpha self) rng))) ->
  Dataset.column (dataset self) (_partition_by self) = Ok targets ->
  (_min_partition_size self <= 0)%Z ->
  exists self' rng',
    determine (S fuel) self rng = (Returned tt, self', rng') /\
    determine (S fuel) self rng = determine 1 self rng.
Proof.
  intros Hbal HP Hlen Hcol Hmin.
  unfold DirichletPartitioner._determine_node_id_to_indices_if_needed, Dataset.unique.
  simpl. rewrite Hcol. simpl.
  destruct (Nat.eqb_spec (_num_partitions self) 0) as [HP0|_]; [lia|].
  match goal with
  | |- context [assign_classes ?s targets ?cs ?a rng] =>
      destruct (assign_classes_succeeds s targets cs Hbal HP Hlen a rng)
        as (a' & rng' & ->)
  end.
  unfold min_sample_size.
  destruct (_num_partitions self) as [|P] eqn:EP; [lia|].
  cbn [seq map].
  match goal with
  | |- context [Z.leb ?x ?y] => destruct (Z.leb_spec x y) as [_|Hgt]; [|lia]
  end.
  eauto.
Qed.

(** X19: without self-balancing and with draws that have no negative
    entries, a minimal partition size that the rows cannot provide for every
    partition is never reached: whatever the number of rounds, the sampling
    does not return. *)
Theorem unreachable_min_size_never_returns (fuel : nat) (self self' : t)
    (rng rng' : Rng) :
  _self_balancing self = false ->
  draws_nonnegative ->
  (Z.of_nat (Dataset.num_rows (dataset self)) <
     Z.of_nat (_num_partitions self) * _min_partition_size self)%Z ->
  determine fuel self rng <> (Returned tt, self', rng').
Proof.
  intros Hbal Hdraws Hsize Hdet.
  destruct (determine_cover _ _ _ _ _ Hbal Hdraws Hdet) as (Hperm & _ & _ & _).
  pose proof (determine_min_size _ _ _ _ _ Hdet) as Hmin.
  apply Permutation_length in Hperm. rewrite length_seq in Hperm.
  assert (Hpos : (0 <= _min_partition_size self)%Z \/ (_min_partition_size self < 0)%Z)
    by lia.
  destruct Hpos as [Hpos|Hneg]; [|nia].
  pose proof (concat_length_ge (Z.to_nat (_min_partition_size self))
                (partitions_of (_num_partitions self) (_node_id_to_indices self')))
    as Hge.
  unfold all_indices in Hperm. unfold partitions_of in Hge at 2.
  rewrite length_map, length_seq in Hge.
  assert (Hall : Forall (fun l => Z.to_nat (_min_partition_size self) <= length l)
                   (partitions_of (_num_partitions self) (_node_id_to_indices self'))).
  { unfold partitions_of. apply Forall_forall. intros l Hin.
    apply list_elem_of_fmap in Hin as (nid & -> & Hin). apply elem_of_seq in Hin.
    destruct (Hmin nid) as (indices & -> & Hle); [lia|]. simpl. lia. }
  specialize (Hge Hall). nia.
Qed.

End SamplingFacts.

Section SamplingWitnesses.
Import DirichletPartitioner.

Lemma uniform_draws_nonnegative : draws_nonnegative_by UniformDraws.dirichlet.
Proof.
  intros alpha rng. unfold UniformDraws.dirichlet. simpl.
  apply Forall_forall. intros x Hx. apply list_elem_of_fmap in Hx as (y & -> & _).
  discriminate.
Qed.

Lemma uniform_draws_length (alpha : list Q) (rng : nat) :
  length (fst (UniformDraws.dirichlet alpha rng)) = length alpha.
Proof. unfold UniformDraws.dirichlet. simpl. apply length_map. Qed.

Lemma assignment_partitions_rows_witness :
  let run := UniformDraws.determine 1 UniformDraws.partitioner 0 in
  all_indices 2 (_node_id_to_indices (snd (fst run))) ≡ₚ seq 0 4 /\
  (forall nid, 2 <= nid -> _node_id_to_indices (snd (fst run)) !! nid = None) /\
  _node_id_to_indices_determined (snd (fst run)) = true.
Proof.
  intros run.
  apply (assignment_partitions_rows nat UniformDraws.dirichlet 1
           UniformDraws.partitioner (snd (fst run)) 0 (snd run)).
  - reflexivity.
  - exact uniform_draws_nonnegative.
  - vm_compute. reflexivity.
Defined.

Lemma partitions_reach_min_size_witness :
  let run := UniformDraws.determine 1 UniformDraws.sized_partitioner 0 in
  exists indices : list nat,
    _node_id_to_indices (snd (fst run)) !! 1 = Some indices /\
    (2 <= Z.of_nat (length indices))%Z.
Proof.
  intros run.
  apply (partitions_reach_min_size nat UniformDraws.dirichlet 1
           UniformDraws.sized_partitioner (snd (fst run)) 0 (snd run)).
  - vm_compute. reflexivity.
  - simpl. lia.
Defined.

Lemma load_partition_selects_assigned_rows_witness :
  let run := UniformDraws.determine 1 UniformDraws.partitioner 0 in
  exists (indices : list nat) (partition : Dataset.t),
    _node_id_to_indices (snd (fst run)) !! 1 = Some indices /\
    UniformDraws.load_partition 1 UniformDraws.partitioner 1 0 =
      (Returned partition, snd (fst run), snd run) /\
    Forall2 (fun i row => DirichletExample.rows !! i = Some row) indices partition.
Proof.
  intros run.
  apply (load_partition_selects_assigned_rows nat UniformDraws.dirichlet 1
           UniformDraws.partitioner (snd (fst run)) 0 (snd run) 1).
  - reflexivity.
  - exact uniform_draws_nonnegative.
  - vm_compute. reflexivity.
  - simpl. lia.
Defined.

Lemma load_partition_unknown_partition_witness :
  let run := UniformDraws.determine 1 UniformDraws.partitioner 0 in
  UniformDraws.load_partition 1 UniformDraws.partitioner 2 0 =
    (Raised KeyError, snd (fst run), snd run) /\
  _node_id_to_indices_determined (snd (fst run)) = true.
Proof.
  intros run.
  apply (load_partition_unknown_partition nat UniformDraws.dirichlet 1
           UniformDraws.partitioner (snd (fst run)) 0 (snd run) 2).
  - vm_compute. reflexivity.
  - simpl. lia.
Defined.

Lemma self_balancing_raises_attribute_error_witness :
  exists self',
    UniformDraws.load_partition 1 UniformDraws.default_partitioner 0 0 =
      (Raised AttributeError, self', 1) /\
    _unique_classes self' = [0%Z; 1%Z] /\
    _node_id_to_indices self' = ∅ /\
    _node_id_to_indices_determined self' = false.
Proof.
  apply (self_balancing_raises_attribute_error nat UniformDraws.dirichlet 0
           UniformDraws.default_partitioner 0 0 [0; 0; 1; 1]%Z).
  - reflexivity.
  - simpl. lia.
  - reflexivity.
  - discriminate.
  - simpl. lia.
Defined.

Lemma first_round_is_accepted_witness :
  exists self' rng',
    UniformDraws.determine 3 UniformDraws.partitioner 0 = (Returned tt, self', rng') /\
    UniformDraws.determine 3 UniformDraws.partitioner 0 =
      UniformDraws.determine 1 UniformDraws.partitioner 0.
Proof.
  apply (first_round_is_accepted nat UniformDraws.dirichlet 2
           UniformDraws.partitioner 0 [0; 0; 1; 1]%Z).
  - reflexivity.
  - simpl. lia.
  - intros rng. rewrite uniform_draws_length. simpl. lia.
  - reflexivity.
  - simpl. lia.
Defined.

Lemma unreachable_min_size_never_returns_witness :
  UniformDraws.determine 5 UniformDraws.demanding_partitioner 0 <>
    (Returned tt, UniformDraws.demanding_partitioner, 0).
Proof.
  apply (unreachable_min_size_never_returns nat UniformDraws.dirichlet 5
           UniformDraws.demanding_partitioner UniformDraws.demanding_partitioner 0 0).
  - reflexivity.
  - exact uniform_draws_nonnegative.
  - simpl. lia.
Defined.

End SamplingWitnesses.

(** ** The wrapper and clients with other numbers of layers *)

Section WrapperLayerFacts.
Variable ClientProxy : Type.
Variable parameters_to_ndarrays : Parameters.t -> NDArrays.
Variable ndarrays_to_parameters : NDArrays -> Parameters.t.
Variable NoiseRng : Type.
Variable add_noise_to_params : Parameters.t -> R -> NoiseRng -> Parameters.t * NoiseRng.
Variable clip_inputs : NDArrays -> R -> result (NDArrays * NDArrays).
Variable strategy_aggregate_fit :
  Z -> DPStrategyWrapperServerSideFixedClipping.Results ClientProxy ->
  list (DPStrategyWrapperServerSideFixedClipping.Failure ClientProxy) ->
  option Parameters.t * DPStrategyWrapperServerSideFixedClipping.Metrics.

Import DPStrategyWrapperServerSideFixedClipping.

#[local] Abbreviation sanitized_clients_params :=
  (DPStrategyWrapperServerSideFixedClipping.sanitized_clients_params
     ClientProxy parameters_to_ndarrays clip_inputs).
#[local] Abbreviation write_back :=
  (DPStrategyWrapperServerSideFixedClipping.write_back ClientProxy ndarrays_to_parameters).
#[local] Abbreviation aggregate_fit :=
  (DPStrategyWrapperServerSideFixedClipping.aggregate_fit ClientProxy
     parameters_to_ndarrays ndarrays_to_parameters NoiseRng add_noise_to_params
     clip_inputs strategy_aggregate_fit).
#[local] Abbreviation add_noise :=
  (DPStrategyWrapperServerSideFixedClipping.add_noise NoiseRng add_noise_to_params).
#[local] Abbreviation client_params r :=
  (parameters_to_ndarrays (FitRes.parameters (snd r))).
#[local] Abbreviation update_of c current := (zip_with (zip_with Rminus) c current).
#[local] Abbreviation add_back current u := (zip_with (zip_with Rplus) current u).

(** The update of a client as the clipping loop leaves it *)
#[local] Abbreviation clipped_update self c :=
  (left_by clip_inputs (update_of c (current_round_params self)) (clipping_norm self)).

#[local] Abbreviation clip_inputs_keeps_shape := (keeps_shape clip_inputs).

Lemma layers_match_tail (x y : NDArray) (a b : NDArrays) :
  layers_match (x :: a) (y :: b) -> length x = length y /\ layers_match a b.
Proof.
  intros H. split; [exact (H 0 x y eq_refl eq_refl)|].
  intros i x' y' Hx Hy. exact (H (S i) x' y' Hx Hy).
Qed.

Lemma compute_model_update_matching (c current : NDArrays) :
  layers_match c current ->
  compute_model_update c current = Ok (update_of c current).
Proof.
  revert current. induction c as [|x c IH]; intros [|y current] Hm; try reflexivity.
  apply layers_match_tail in Hm as [Hxy Hm]. simpl.
  unfold Np1.subtract, Np1.broadcast. rewrite Hxy, Nat.eqb_refl. simpl.
  now rewrite (IH current Hm).
Qed.

Lemma compute_model_updates_matching (self : t) (clients : list NDArrays) :
  Forall (fun c => layers_match c (current_round_params self)) clients ->
  _compute_model_updates self clients =
    Ok (map (fun c => update_of c (current_round_params self)) clients).
Proof.
  induction 1 as [|c clients Hc _ IH]; [reflexivity|].
  simpl. rewrite (compute_model_update_matching _ _ Hc). simpl. now rewrite IH.
Qed.

Lemma clip_updates_map (self : t) (updates : list NDArrays) :
  clip_inputs_keeps_shape ->
  clip_updates clip_inputs self updates =
    Ok (map (fun u => left_by clip_inputs u (clipping_norm self)) updates).
Proof.
  intros Hclip. apply clip_updates_left, Forall_forall.
  intros u _. apply (Hclip u (clipping_norm self)).
Qed.

(** The layers of an update whose shape is that of [client - current] *)
Lemma update_layers (c current u : NDArrays) :
  layers_match c current ->
  same_shape u (update_of c current) ->
  length u = Nat.min (length c) (length current) /\
  layers_match u current.
Proof.
  intros Hm Hu. split.
  - rewrite (Forall2_length _ _ _ Hu). apply length_zip_with.
  - intros i x y Hx Hy.
    destruct (Forall2_lookup_l _ _ _ _ _ Hu Hx) as (z & Hz & ->).
    rewrite lookup_zip_with, Hy in Hz.
    destruct (c !! i) as [ci|] eqn:Hc; [|discriminate]. simpl in Hz.
    injection Hz as <-. rewrite length_zip_with.
    rewrite (Hm i ci y Hc Hy). lia.
Qed.

(** A client with at least the round's layers: the loop of
    [_update_clients_params] replaces the round's layers and leaves the
    further ones. *)
Lemma update_clients_params_loop_long (self : t) (u : NDArrays) :
  same_shape u (current_round_params self) ->
  forall (m i : nat) (cp : NDArrays),
    i + m = length (current_round_params self) ->
    length (current_round_params self) <= length cp ->
    update_clients_params_loop self (seq i m) cp u =
      Ok (take i cp ++ drop i (add_back (current_round_params self) u) ++
          drop (length (current_round_params self)) cp).
Proof.
  intros Hshape. pose proof (Forall2_length _ _ _ Hshape) as Hlen.
  induction m as [|m IH]; intros i cp Him Hcp.
  - simpl. rewrite drop_ge by (rewrite length_zip_with; lia). simpl.
    replace (length (current_round_params self)) with i by lia.
    now rewrite take_drop.
  - simpl.
    destruct (lookup_lt_is_Some_2 (current_round_params self) i) as [y Hy]; [lia|].
    destruct (lookup_lt_is_Some_2 u i) as [x Hx]; [lia|].
    assert (Hxy : length x = length y)
      by exact (Forall2_lookup_lr _ _ _ _ _ _ Hshape Hx Hy).
    unfold list_getitem. rewrite Hy, Hx. simpl.
    unfold Np1.add, Np1.broadcast. rewrite <- Hxy, Nat.eqb_refl. simpl.
    unfold list_setitem.
    assert (Hlt : Nat.ltb i (length cp) = true) by (apply Nat.ltb_lt; lia).
    rewrite Hlt. simpl.
    rewrite IH by (rewrite ?length_insert; lia).
    f_equal.
    assert (Hz : add_back (current_round_params self) u !! i = Some (zip_with Rplus y x)).
    { rewrite lookup_zip_with, Hy, Hx. reflexivity. }
    rewrite (drop_S _ _ _ Hz).
    rewrite (take_S_r _ i (zip_with Rplus y x))
      by (apply list_lookup_insert_eq; lia).
    rewrite take_insert_ge by lia.
    rewrite drop_insert_lt by lia.
    now rewrite <- app_assoc.
Qed.

(** A client with fewer layers than the round: the loop reaches an index
    that the update does not have. *)
Lemma update_clients_params_loop_short (self : t) (u : NDArrays) :
  length u < length (current_round_params self) ->
  layers_match u (current_round_params self) ->
  forall (m i : nat) (cp : NDArrays),
    i + m = length (current_round_params self) ->
    i <= length u -> length u <= length cp ->
    update_clients_params_loop self (seq i m) cp u = Raise IndexError.
Proof.
  intros Hshort Hm.
  induction m as [|m IH]; intros i cp Him Hi Hcp; [lia|].
  simpl.
  destruct (lookup_lt_is_Some_2 (current_round_params self) i) as [y Hy]; [lia|].
  unfold list_getitem. rewrite Hy. simpl.
  destruct (u !! i) as [x|] eqn:Hx; simpl.
  - pose proof (lookup_lt_Some _ _ _ Hx) as Hlt.
    unfold Np1.add, Np1.broadcast. rewrite <- (Hm i x y Hx Hy), Nat.eqb_refl. simpl.
    unfold list_setitem.
    assert (Hlt' : Nat.ltb i (length cp) = true) by (apply Nat.ltb_lt; lia).
    rewrite Hlt'. simpl.
    apply IH; rewrite ?length_insert; lia.
  - reflexivity.
Qed.

Lemma update_all_clients_params_long (self : t) (clients : list NDArrays) :
  Forall (fun c => layers_match c (current_round_params self) /\
                   length (current_round_params self) <= length c /\
                   returns_keeping_shape clip_inputs (clipping_norm self)
                     (update_of c (current_round_params self))) clients ->
  update_all_clients_params self clients (map (fun c => clipped_update self c) clients) =
    Ok (map (fun c => add_back (current_round_params self) (clipped_update self c) ++
                      drop (length (current_round_params self)) c)
            clients).
Proof.
  induction 1 as [|c clients (Hm & Hlen & Hclip) _ IH]; [reflexivity|].
  cbn [map update_all_clients_params]. unfold _update_clients_params.
  destruct (update_layers c (current_round_params self) (clipped_update self c) Hm
              (proj2 Hclip)) as [Hl Hu].
  rewrite (update_clients_params_loop_long self (clipped_update self c)).
  - simpl. rewrite IH. reflexivity.
  - apply Forall2_same_length_lookup_2; [lia|exact Hu].
  - reflexivity.
  - exact Hlen.
Qed.

Lemma update_all_clients_params_short (self : t) (clients : list NDArrays) :
  clip_inputs_keeps_shape ->
  Forall (fun c => layers_match c (current_round_params self)) clients ->
  Exists (fun c => length c < length (current_round_params self)) clients ->
  update_all_clients_params self clients (map (fun c => clipped_update self c) clients) =
    Raise IndexError.
Proof.
  intros Hclip.
  induction 1 as [|c clients Hm _ IH]; intros Hex; [inversion Hex|].
  cbn [map update_all_clients_params]. unfold _update_clients_params.
  destruct (update_layers c (current_round_params self) (clipped_update self c) Hm
              (proj2 (Hclip _ _))) as [Hl Hu].
  destruct (Nat.lt_ge_cases (length c) (length (current_round_params self)))
    as [Hshort|Hlong].
  - rewrite (update_clients_params_loop_short self (clipped_update self c));
      [reflexivity|lia|exact Hu|reflexivity|lia|lia].
  - rewrite (update_clients_params_loop_long self (clipped_update self c));
      [|apply Forall2_same_length_lookup_2; [lia|exact Hu]|reflexivity|exact Hlong].
    simpl. rewrite IH; [reflexivity|].
    apply Exists_cons in Hex as [Hex|Hex]; [lia|exact Hex].
Qed.

Lemma aggregate_fit_of_sanitized (self : t) (server_round : Z)
    (results : Results ClientProxy) (rng : NoiseRng) (clients_params : list NDArrays) :
  sanitized_clients_params self results = Ok clients_params ->
  aggregate_fit self server_round results [] rng =
    let handed := write_back results clients_params in
    let noisy := add_noise self (strategy_aggregate_fit server_round handed []) rng in
    (Ok (fst noisy), handed, snd noisy).
Proof.
  intros H. unfold DPStrategyWrapperServerSideFixedClipping.aggregate_fit.
  rewrite H. simpl. now destruct (add_noise _ _ _).
Qed.

Lemma write_back_of_map (results : Results ClientProxy)
    (f : ClientProxy * FitRes.t -> NDArrays) :
  write_back results (map f results) =
    map (fun r => (fst r, FitRes.set_parameters (snd r) (ndarrays_to_parameters (f r))))
        results.
Proof.
  induction results as [|[proxy fit_res] results IH]; [reflexivity|].
  simpl. now rewrite IH.
Qed.

Lemma compute_model_update_no_layers (c : NDArrays) : compute_model_update c [] = Ok [].
Proof. now destruct c. Qed.

Lemma compute_model_updates_no_layers (self : t) (clients : list NDArrays) :
  current_round_params self = [] ->
  _compute_model_updates self clients = Ok (map (fun _ => []) clients).
Proof.
  intros Hcur. induction clients as [|c clients IH]; [reflexivity|].
  simpl. rewrite Hcur, compute_model_update_no_layers. simpl. now rewrite IH.
Qed.

Lemma update_all_clients_params_no_layers (self : t) (clients updates : list NDArrays) :
  current_round_params self = [] ->
  update_all_clients_params self clients updates = Ok clients.
Proof.
  intros Hcur. revert updates.
  induction clients as [|c clients IH]; intros [|u updates]; try reflexivity.
  simpl. unfold _update_clients_params. rewrite Hcur. simpl. now rewrite IH.
Qed.

(** On a wrapper without round parameters every update is the empty list:
    the clipping loop calls [clip_inputs] on it once per client. *)
Lemma clip_updates_no_layers (self : t) (clients : list NDArrays) :
  clip_updates clip_inputs self (map (fun _ => []) clients) =
    match clients, clip_inputs [] (clipping_norm self) with
    | _ :: _, Raise e => Raise e
    | _, _ => Ok (map (fun _ => left_by clip_inputs [] (clipping_norm self)) clients)
    end.
Proof.
  induction clients as [|c clients IH]; [reflexivity|].
  cbn [map clip_updates]. unfold left_by in *.
  destruct (clip_inputs [] (clipping_norm self)) as [[returned after]|e];
    [|reflexivity].
  simpl. rewrite IH. now destruct clients.
Qed.

Lemma sanitized_clients_params_long_at (self : t) (results : Results ClientProxy) :
  Forall (fun r => layers_match (client_params r) (current_round_params self) /\
                   length (current_round_params self) <= length (client_params r) /\
                   returns_keeping_shape clip_inputs (clipping_norm self)
                     (update_of (client_params r) (current_round_params self)))
         results ->
  sanitized_clients_params self results =
    Ok (map (fun r => add_back (current_round_params self)
                        (clipped_update self (client_params r)) ++
                      drop (length (current_round_params self)) (client_params r))
            results).
Proof.
  intros Hm.
  unfold DPStrategyWrapperServerSideFixedClipping.sanitized_clients_params.
  assert (Hm' : Forall (fun c => layers_match c (current_round_params self) /\
                                 length (current_round_params self) <= length c /\
                                 returns_keeping_shape clip_inputs (clipping_norm self)
                                   (update_of c (current_round_params self)))
                  (map (fun r => client_params r) results))
    by (apply Forall_fmap; exact Hm).
  rewrite (compute_model_updates_matching self _
             (Forall_impl _ _ _ Hm' (fun c H => proj1 H))). simpl.
  rewrite clip_updates_left.
  - simpl. rewrite map_map.
    rewrite (update_all_clients_params_long self _ Hm'). now rewrite map_map.
  - apply Forall_fmap. apply (Forall_impl _ _ _ Hm').
    intros c (_ & _ & Hclip). exact (proj1 Hclip).
Qed.

Lemma sanitized_clients_params_long (self : t) (results : Results ClientProxy) :
  clip_inputs_keeps_shape ->
  Forall (fun r => layers_match (client_params r) (current_round_params self) /\
                   length (current_round_params self) <= length (client_params r))
         results ->
  sanitized_clients_params self results =
    Ok (map (fun r => add_back (current_round_params self)
                        (clipped_update self (client_params r)) ++
                      drop (length (current_round_params self)) (client_params r))
            results).
Proof.
  intros Hclip Hm. apply sanitized_clients_params_long_at.
  apply (Forall_impl _ _ _ Hm). intros r [H1 H2]. repeat split; auto; apply Hclip.
Qed.

Lemma sanitized_clients_params_short (self : t) (results : Results ClientProxy) :
  clip_inputs_keeps_shape ->
  Forall (fun r => layers_match (client_params r) (current_round_params self)) results ->
  Exists (fun r => length (client_params r) < length (current_round_params self))
         results ->
  sanitized_clients_params self results = Raise IndexError.
Proof.
  intros Hclip Hm Hex.
  unfold DPStrategyWrapperServerSideFixedClipping.sanitized_clients_params.
  assert (Hm' : Forall (fun c => layers_match c (current_round_params self))
                  (map (fun r => client_params r) results))
    by (apply Forall_fmap; exact Hm).
  rewrite (compute_model_updates_matching self _ Hm'). simpl.
  rewrite (clip_updates_map self _ Hclip). simpl. rewrite map_map.
  rewrite (update_all_clients_params_short self _ Hclip Hm'); [reflexivity|].
  apply Exists_fmap. exact Hex.
Qed.


(** X20: on a wrapper whose round parameters are empty, as they are until
    [configure_fit] is called, [aggregate_fit] with no failures computes an
    empty update for every client and calls [clip_inputs] on it.  When that
    call raises, [aggregate_fit] raises the same exception and leaves the
    results as they were.  When it returns (or there is no result),
    nothing is clipped, whatever [clip_inputs] returns or leaves in its
    argument: the inner strategy is given every client's own parameters,
    decoded and encoded again. *)
Theorem aggregate_fit_before_configure_fit (self : t) (server_round : Z)
    (results : Results ClientProxy) (rng : NoiseRng) :
  current_round_params self = [] ->
  let handed :=
    map (fun r => (fst r,
                   FitRes.set_parameters (snd r)
                     (ndarrays_to_parameters (client_params r))))
        results in
  let noisy := add_noise self (strategy_aggregate_fit server_round handed []) rng in
  aggregate_fit self server_round results [] rng =
    match results, clip_inputs [] (clipping_norm self) with
    | _ :: _, Raise e => (Raise e, results, rng)
    | _, _ => (Ok (fst noisy), handed, snd noisy)
    end.
Proof.
  intros Hcur handed noisy. subst noisy handed.
  assert (Hsan : sanitized_clients_params self results =
                   match results, clip_inputs [] (clipping_norm self) with
                   | _ :: _, Raise e => Raise e
                   | _, _ => Ok (map (fun r => client_params r) results)
                   end).
  { unfold DPStrategyWrapperServerSideFixedClipping.sanitized_clients_params.
    rewrite (compute_model_updates_no_layers self _ Hcur). simpl.
    rewrite clip_updates_no_layers.
    destruct results as [|r results]; [reflexivity|]. cbn [map].
    destruct (clip_inputs [] (clipping_norm self)) as [clipped|e]; [|reflexivity].
    exact (update_all_clients_params_no_layers self _ _ Hcur). }
  assert (Hok : sanitized_clients_params self results =
                  Ok (map (fun r => client_params r) results) ->
                aggregate_fit self server_round results [] rng =
                  (let handed :=
                     map (fun r => (fst r,
                                    FitRes.set_parameters (snd r)
                                      (ndarrays_to_parameters (client_params r))))
                         results in
                   let noisy :=
                     add_noise self (strategy_aggregate_fit server_round handed []) rng in
                   (Ok (fst noisy), handed, snd noisy))).
  { intros H. rewrite <- (write_back_of_map results (fun r => client_params r)).
    now apply aggregate_fit_of_sanitized. }
  destruct results as [|r results]; [exact (Hok Hsan)|].
  destruct (clip_inputs [] (clipping_norm self)) as [clipped|e]; [exact (Hok Hsan)|].
  unfold DPStrategyWrapperServerSideFixedClipping.aggregate_fit. now rewrite Hsan.
Qed.

(** X21: when [clip_inputs] returns and keeps the shape of its argument and
    the layers that clients and round have in common are of the same sizes,
    a client that sent fewer layers than the round has makes
    [aggregate_fit] raise [IndexError]; the results are left as they were
    and the inner strategy is not consulted. *)
Theorem aggregate_fit_missing_layers (self : t) (server_round : Z)
    (results : Results ClientProxy) (rng : NoiseRng) :
  clip_inputs_keeps_shape ->
  Forall (fun r => layers_match (client_params r) (current_round_params self)) results ->
  Exists (fun r => length (client_params r) < length (current_round_params self))
         results ->
  aggregate_fit self server_round results [] rng = (Raise IndexError, results, rng).
Proof.
  intros Hclip Hm Hex.
  unfold DPStrategyWrapperServerSideFixedClipping.aggregate_fit.
  now rewrite (sanitized_clients_params_short self results Hclip Hm Hex).
Qed.

(** X22: when [clip_inputs] returns and keeps the shape of its argument and
    every client sent at least the round's layers, of the round's sizes, the
    parameters handed to the inner strategy are the round's layers plus the
    update as the clipping left it, followed by the client's further layers
    as the client sent them: layers beyond the round's are not clipped. *)
Theorem aggregate_fit_further_layers (self : t) (server_round : Z)
    (results : Results ClientProxy) (rng : NoiseRng) :
  clip_inputs_keeps_shape ->
  Forall (fun r => layers_match (client_params r) (current_round_params self) /\
                   length (current_round_params self) <= length (client_params r))
         results ->
  let handed :=
    map (fun r =>
           (fst r,
            FitRes.set_parameters (snd r)
              (ndarrays_to_parameters
                 (add_back (current_round_params self)
                    (clipped_update self (client_params r)) ++
                  drop (length (current_round_params self)) (client_params r)))))
        results in
  let noisy := add_noise self (strategy_aggregate_fit server_round handed []) rng in
  aggregate_fit self server_round results [] rng = (Ok (fst noisy), handed, snd noisy).
Proof.
  intros Hclip Hm handed noisy. subst noisy handed.
  rewrite <- (write_back_of_map results
                (fun r => add_back (current_round_params self)
                            (clipped_update self (client_params r)) ++
                          drop (length (current_round_params self)) (client_params r))).
  apply aggregate_fit_of_sanitized.
  exact (sanitized_clients_params_long self results Hclip Hm).
Qed.


End WrapperLayerFacts.

(** ** The clipping step and what reaches the inner strategy *)

Section WrapperClippingFacts.
Variable ClientProxy : Type.
Variable parameters_to_ndarrays : Parameters.t -> NDArrays.
Variable ndarrays_to_parameters : NDArrays -> Parameters.t.
Variable NoiseRng : Type.
Variable add_noise_to_params : Parameters.t -> R -> NoiseRng -> Parameters.t * NoiseRng.
Variable strategy_aggregate_fit :
  Z -> DPStrategyWrapperServerSideFixedClipping.Results ClientProxy ->
  list (DPStrategyWrapperServerSideFixedClipping.Failure ClientProxy) ->
  option Parameters.t * DPStrategyWrapperServerSideFixedClipping.Metrics.

Import DPStrategyWrapperServerSideFixedClipping.

#[local] Abbreviation aggregate_fit clip_inputs :=
  (DPStrategyWrapperServerSideFixedClipping.aggregate_fit ClientProxy
     parameters_to_ndarrays ndarrays_to_parameters NoiseRng add_noise_to_params
     clip_inputs strategy_aggregate_fit).
#[local] Abbreviation add_noise :=
  (DPStrategyWrapperServerSideFixedClipping.add_noise NoiseRng add_noise_to_params).
#[local] Abbreviation client_params r :=
  (parameters_to_ndarrays (FitRes.parameters (snd r))).



End WrapperClippingFacts.

Section WrapperLayerWitnesses.
Import DPStrategyWrapperServerSideFixedClipping.

Lemma same_shape_refl (a : NDArrays) : same_shape a a.
Proof. induction a; constructor; auto. Qed.

Lemma scaling_keeps_shape : keeps_shape DifferentialPrivacy.clip_inputs.
Proof.
  intros input_arrays C. split; [eexists; reflexivity|].
  unfold left_by, DifferentialPrivacy.clip_inputs.
  apply same_shape_scale, same_shape_refl.
Qed.


#[local] Ltac concrete_layers_match :=
  intros i x y Hx Hy;
  repeat (destruct i as [|i]; simpl in Hx, Hy; try discriminate);
  injection Hx as <-; injection Hy as <-; reflexivity.



Lemma aggregate_fit_before_configure_fit_witness :
  DPLayersExample.aggregate_fit_with DPLayersExample.dividing_clip_inputs
    DPLayersExample.fresh_wrapper DPExample.results [] 0 =
  (Raise ZeroDivisionError, DPExample.results, 0).
Proof.
  exact (aggregate_fit_before_configure_fit string
           DPExample.parameters_to_ndarrays DPExample.ndarrays_to_parameters
           nat DPExample.add_noise_to_params DPLayersExample.dividing_clip_inputs
           DPExample.first_result DPLayersExample.fresh_wrapper 1 DPExample.results 0
           eq_refl).
Defined.

Lemma aggregate_fit_missing_layers_witness :
  DPLayersExample.aggregate_fit DPExample.wrapper DPLayersExample.short_results [] 0 =
    (Raise IndexError, DPLayersExample.short_results, 0).
Proof.
  apply (aggregate_fit_missing_layers string
           DPExample.parameters_to_ndarrays DPExample.ndarrays_to_parameters
           nat DPExample.add_noise_to_params DifferentialPrivacy.clip_inputs
           DPExample.first_result DPExample.wrapper 1 DPLayersExample.short_results 0).
  - exact scaling_keeps_shape.
  - repeat constructor; concrete_layers_match.
  - apply Exists_cons_tl, Exists_cons_hd. simpl. lia.
Defined.

Lemma aggregate_fit_further_layers_witness :
  let self := DPExample.wrapper in
  let handed :=
    map (fun r : string * FitRes.t =>
           (fst r,
            FitRes.set_parameters (snd r)
              (DPExample.ndarrays_to_parameters
                 (zip_with (zip_with Rplus) (current_round_params self)
                    (left_by DifferentialPrivacy.clip_inputs
                       (zip_with (zip_with Rminus)
                          (DPExample.parameters_to_ndarrays
                             (FitRes.parameters (snd r)))
                          (current_round_params self))
                       (clipping_norm self)) ++
                  drop (length (current_round_params self))
                    (DPExample.parameters_to_ndarrays (FitRes.parameters (snd r)))))))
        DPLayersExample.long_results in
  let noisy :=
    add_noise nat DPExample.add_noise_to_params self
      (DPExample.first_result 1 handed []) 0 in
  DPLayersExample.aggregate_fit self DPLayersExample.long_results [] 0 =
    (Ok (fst noisy), handed, snd noisy).
Proof.
  apply (aggregate_fit_further_layers string
           DPExample.parameters_to_ndarrays DPExample.ndarrays_to_parameters
           nat DPExample.add_noise_to_params DifferentialPrivacy.clip_inputs
           DPExample.first_result DPExample.wrapper 1 DPLayersExample.long_results 0).
  - exact scaling_keeps_shape.
  - repeat constructor; concrete_layers_match.
Defined.



End WrapperLayerWitnesses.

(** ** [mock_utils.py] *)

Section MockUtilsFacts.
Variable Rng : Type.
Variable randbelow : nat -> Rng -> nat * Rng.
Context {A : Type}.

#[local] Abbreviation choice := (MockUtils.choice Rng randbelow (A := A)).
#[local] Abbreviation append_choices := (MockUtils.append_choices Rng randbelow (A := A)).
#[local] Abbreviation generate_artificial_categories :=
  (MockUtils.generate_artificial_categories Rng randbelow (A := A)).

Lemma choice_member (choices : list A) (rng : Rng) :
  draws_in_range randbelow -> choices <> [] ->
  exists x rng', choice choices rng = (Ok x, rng') /\ x ∈ choices.
Proof.
  intros Hdraw Hne. unfold MockUtils.choice.
  destruct choices as [|c choices]; [congruence|].
  pose proof (Hdraw (length (c :: choices)) rng) as Hlt.
  destruct (randbelow (length (c :: choices)) rng) as [i rng'].
  destruct (lookup_lt_is_Some_2 (c :: choices) i) as [x Hx];
    [apply Hlt; simpl; lia|].
  exists x, rng'. unfold list_getitem. rewrite Hx. split; [reflexivity|].
  eapply list_elem_of_lookup_2, Hx.
Qed.

Lemma append_choices_spec (choices : list A) (n : nat) :
  draws_in_range randbelow -> choices <> [] ->
  forall (column : list A) (rng : Rng),
    exists drawn rng',
      append_choices n choices column rng = (Ok (column ++ drawn), rng') /\
      length drawn = n /\ Forall (fun x => x ∈ choices) drawn.
Proof.
  intros Hdraw Hne. induction n as [|n IH]; intros column rng; simpl.
  - exists [], rng. rewrite app_nil_r. repeat split. constructor.
  - destruct (choice_member choices rng Hdraw Hne) as (x & rng1 & -> & Hx).
    destruct (IH (column ++ [x]) rng1) as (drawn & rng' & -> & Hlen & Hall).
    exists (x :: drawn), rng'. rewrite <- app_assoc. simpl.
    repeat split; [lia|]. now constructor.
Qed.

(** X23: with a non-empty list of choices, [generate_artificial_categories]
    returns the choices themselves followed by [num_rows - len(choices)]
    drawn entries, each one of the choices.  The column therefore has
    [max(num_rows, len(choices))] entries: when fewer rows are asked for than
    there are choices, it still holds every choice. *)
Theorem categories_start_with_choices (num_rows : Z) (choices : list A) (rng : Rng) :
  draws_in_range randbelow -> choices <> [] ->
  exists drawn rng',
    generate_artificial_categories num_rows choices rng = (Ok (choices ++ drawn), rng') /\
    Forall (fun x => x ∈ choices) drawn /\
    Z.of_nat (length (choices ++ drawn)) = Z.max num_rows (Z.of_nat (length choices)).
Proof.
  intros Hdraw Hne. unfold MockUtils.generate_artificial_categories.
  destruct (append_choices_spec choices
              (Z.to_nat (num_rows - Z.of_nat (length choices))) Hdraw Hne choices rng)
    as (drawn & rng' & -> & Hlen & Hall).
  exists drawn, rng'. repeat split; [exact Hall|].
  rewrite length_app, Hlen. lia.
Qed.

(** X24: with an empty list of choices, [generate_artificial_categories]
    raises [IndexError] as soon as a row is asked for, without drawing; for
    [num_rows <= 0] it returns the empty column. *)
Theorem categories_without_choices (num_rows : Z) (rng : Rng) :
  generate_artificial_categories num_rows [] rng =
    (if Z.ltb 0 num_rows then Raise IndexError else Ok [], rng).
Proof.
  unfold MockUtils.generate_artificial_categories. cbn [length].
  change (Z.of_nat 0) with 0%Z. rewrite Z.sub_0_r.
  destruct (Z.ltb_spec 0 num_rows) as [Hpos|Hneg].
  - destruct (Z.to_nat num_rows) eqn:E; [lia|reflexivity].
  - replace (Z.to_nat num_rows) with 0 by lia. reflexivity.
Qed.

End MockUtilsFacts.

Section MockUtilsWitnesses.

Lemma example_draws_in_range : draws_in_range MockExample.randbelow.
Proof.
  intros n rng Hn. unfold MockExample.randbelow. simpl.
  apply Nat.mod_upper_bound. lia.
Qed.

Lemma categories_start_with_choices_witness :
  exists drawn rng',
    MockUtils.generate_artificial_categories nat MockExample.randbelow 5 [0%Z; 4%Z] 0 =
      (Ok ([0%Z; 4%Z] ++ drawn), rng') /\
    Forall (fun x => x ∈ [0%Z; 4%Z]) drawn /\
    Z.of_nat (length ([0%Z; 4%Z] ++ drawn)) = Z.max 5 (Z.of_nat (length [0%Z; 4%Z])).
Proof.
  apply (categories_start_with_choices nat MockExample.randbelow 5 [0%Z; 4%Z] 0).
  - exact example_draws_in_range.
  - discriminate.
Defined.

End MockUtilsWitnesses.

(** ** [vce_api.py]: the node states of [run_vce] *)

Section VceStatesFacts.
Variable State : Type.
Variable create_node : State -> Z * State.
Variable Ctx : Type.

Lemma register_nodes_loop_domain (m : nat) :
  forall (s : nat) (state : State) (acc : gmap Z Z) (node_id : Z),
    is_Some (fst (VceSetup._register_nodes_loop State create_node (seq s m) state acc)
               !! node_id) <->
    node_id ∈ VceSetup.created_node_ids State create_node m state \/
    is_Some (acc !! node_id).
Proof.
  induction m as [|m IH]; intros s state acc node_id; simpl.
  - split; [auto|]. intros [H|H]; [inversion H|exact H].
  - destruct (create_node state) as [nid state']. rewrite IH.
    rewrite elem_of_cons. destruct (decide (nid = node_id)) as [->|Hne].
    + rewrite lookup_insert_eq. split; [auto|eauto].
    + rewrite lookup_insert_ne by exact Hne. split; [tauto|].
      intros [[Heq|H]|H]; [congruence|auto|auto].
Qed.

(** X25: [run_vce] sets up every node that [create_node] handed out and no
    other: a node id has a partition index exactly when it was created, and
    it then has a node state, which holds no run context yet. *)
Theorem created_nodes_are_set_up (num_nodes : nat) (state : State) (node_id : Z) :
  let nodes_mapping := fst (VceSetup._register_nodes State create_node num_nodes state) in
  let node_states := VceSetup.initial_node_states (Ctx := Ctx) nodes_mapping in
  (is_Some (nodes_mapping !! node_id) <->
     node_id ∈ VceSetup.created_node_ids State create_node num_nodes state) /\
  node_states !! node_id =
    match nodes_mapping !! node_id with
    | Some _ => Some (NodeState.mk ∅)
    | None => None
    end.
Proof.
  intros nodes_mapping node_states. subst node_states nodes_mapping. split.
  - unfold VceSetup._register_nodes. rewrite register_nodes_loop_domain.
    rewrite lookup_empty. split; [|auto]. intros [H|[x H]]; [exact H|discriminate].
  - unfold VceSetup.initial_node_states. rewrite lookup_fmap.
    now destruct (_ !! node_id).
Qed.

End VceStatesFacts.

(** ** [client.py]: the TensorBoard mod *)

Section TensorboardModFacts.
Variables Content Context ConfigValue MetricValue Time Clock : Type.
Variable configs : Content -> PyDict.dict string ConfigValue.
Variable metrics : Content -> PyDict.dict string MetricValue.
Variable str_config : ConfigValue -> string.
Variable int_str : string -> result Z.
Variable time_time : Clock -> Time * Clock.
Variable time_sub : Time -> Time -> Time.
Variable os_path_join : string -> string -> string.
Variables MESSAGE_TYPE_FIT MESSAGE_TYPE_EVALUATE : string.
Variable logdir_run : string.

#[local] Abbreviation tensorboard_mod :=
  (TensorboardMod.tensorboard_mod Content Context ConfigValue MetricValue Time Clock
     configs metrics str_config int_str time_time time_sub os_path_join
     MESSAGE_TYPE_FIT MESSAGE_TYPE_EVALUATE logdir_run).

Lemma str_or_first (a b : string) : a <> "" -> str_or a b = a.
Proof.
  intros Hne. unfold str_or. destruct (String.eqb_spec a ""); congruence.
Qed.

(** X26: the test [message_type == (MESSAGE_TYPE_FIT or MESSAGE_TYPE_EVALUATE)]
    compares with the fit constant alone when that is a non-empty string.
    For a reply of the evaluate type, the constants being different, the mod
    makes no call into TensorFlow: nothing is written for evaluation.  It
    returns the app's reply and context after two readings of the clock. *)
Theorem evaluate_replies_are_not_logged (fwd bwd : Message.t Content)
    (context context' : Context)
    (app : TensorboardMod.ClientAppCallable Content Context) (clock : Clock) :
  MESSAGE_TYPE_FIT <> "" ->
  MESSAGE_TYPE_EVALUATE <> MESSAGE_TYPE_FIT ->
  app fwd context = (Ok bwd, context') ->
  Metadata.message_type (Message.metadata bwd) = MESSAGE_TYPE_EVALUATE ->
  tensorboard_mod fwd context app clock =
    (Ok bwd, context', snd (time_time (snd (time_time clock))), []).
Proof.
  intros Hfit Hne Happ Htype. unfold TensorboardMod.tensorboard_mod.
  assert (Hround : exists round,
             (if PyDict.contains "round" (configs (Message.content fwd))
              then v ← PyDict.getitem "round" (configs (Message.content fwd));
                   Ok (str_config v)
              else Ok (Metadata.group_id (Message.metadata fwd))) = Ok round).
  { unfold PyDict.contains.
    destruct (PyDict.getitem "round" (configs (Message.content fwd))); simpl; eauto. }
  destruct Hround as [round ->].
  destruct (time_time clock) as [start_time clock1]. rewrite Happ. simpl.
  destruct (time_time clock1) as [end_time clock2]. simpl.
  rewrite (str_or_first _ _ Hfit), Htype.
  destruct (String.eqb_spec MESSAGE_TYPE_EVALUATE MESSAGE_TYPE_FIT); [congruence|].
  reflexivity.
Qed.

End TensorboardModFacts.

Lemma evaluate_replies_are_not_logged_witness :
  TensorboardExample.tensorboard_mod TensorboardExample.fwd 0
    TensorboardExample.evaluate_app 10%Z =
  (Ok (Message.mk [("accuracy", 1%Z); ("loss", 2%Z)]
         (Metadata.mk 1 "m1" "3" 7 "" "evaluate")),
   1, 12%Z, []).
Proof.
  apply (evaluate_replies_are_not_logged TensorboardExample.Content nat Z Z Z Z
           (fun c => c) (fun c => c) str_int (fun _ => Ok 3%Z)
           (fun clock => (clock, (clock + 1)%Z)) Z.sub
           (fun a b => String.append a (String.append "/" b))
           "fit" "evaluate" ".runs_history/0"
           TensorboardExample.fwd _ 0 1 TensorboardExample.evaluate_app 10%Z).
  - discriminate.
  - discriminate.
  - reflexivity.
  - reflexivity.
Defined.
